(** * JIMM: controller monitor, watcher, RPC gateway and orchestrator

  A shallow embedding of the parts of the JIMM sources that the
  specification's testable properties talk about, together with the
  proofs that settle them.

  - [Monitor]  : the per-controller monitor of package [monitor]
                 (delta reducer, batch flush, lease loop).
  - [Watcher]  : the database-backed watcher of package [jimm].
  - [JujuAPI]  : the RPC gateway of package [jujuapi].
  - [JEM]      : the orchestrator operations exercised by [jem_test.go].
*)

From Stdlib Require Import ZArith Lia.
From stdpp Require Import base gmap strings list fin_maps fin_sets sorting.

Set Warnings "-clear-no-such-hyp,-register-all".

Local Open Scope string_scope.
Local Open Scope list_scope.
Local Open Scope Z_scope.

(** ** Go machine integers *)

Module GoInt.

(** Go's [int] on the 64-bit platforms the service is built for, and
    [time.Duration] ([int64]): two's complement with silent wrap-around. *)
Definition minInt64 : Z := - 2 ^ 63.
Definition maxInt64 : Z := 2 ^ 63 - 1.

Definition wrap64 (x : Z) : Z := (x + 2 ^ 63) mod 2 ^ 64 - 2 ^ 63.

Definition add64 (x y : Z) : Z := wrap64 (x + y).
Definition neg64 (x : Z) : Z := wrap64 (- x).
(** Go's [/] truncates toward zero; the only overflowing quotient is
    [minInt64 / -1]. *)
Definition quot64 (x y : Z) : Z := wrap64 (Z.quot x y).

Definition inRange (x : Z) : Prop := minInt64 <= x <= maxInt64.

End GoInt.

(** ** The controller monitor (package [monitor]) *)

Module Monitor.
Import GoInt.

(** *** The multiwatcher vocabulary of the downstream controller *)

(** [multiwatcher.EntityId]. *)
Record EntityId := mkEntityId {
  Kind : string;
  ModelUUID : string;
  Id : string
}.

#[global] Instance EntityId_eq_dec : EqDecision EntityId.
Proof. solve_decision. Defined.

#[global] Instance EntityId_countable : Countable EntityId.
Proof.
  refine (inj_countable'
            (fun e => (Kind e, ModelUUID e, Id e))
            (fun t => mkEntityId t.1.1 t.1.2 t.2) _).
  by intros [].
Defined.

(** The entity kinds of the all-watcher that the monitor does not count. *)
Inductive OtherKind :=
| KRelation | KAnnotation | KBlock | KAction | KRemoteApplication.

Definition otherKindName (k : OtherKind) : string :=
  match k with
  | KRelation => "relation"
  | KAnnotation => "annotation"
  | KBlock => "block"
  | KAction => "action"
  | KRemoteApplication => "remoteApplication"
  end.

(** [multiwatcher.EntityInfo]: the dynamic type of a delta's entity is
    what [addDelta] switches on.  Only the fields the monitor reads are
    kept. *)
Inductive EntityInfo :=
| ModelInfo (modelUUID : string) (life : string)
| UnitInfo (modelUUID : string) (name : string)
| ApplicationInfo (modelUUID : string) (name : string)
| MachineInfo (modelUUID : string) (id : string)
| OtherInfo (k : OtherKind) (modelUUID : string) (id : string).

(** [EntityInfo.EntityId()]. *)
Definition entityId (e : EntityInfo) : EntityId :=
  match e with
  | ModelInfo u _ => mkEntityId "model" u u
  | UnitInfo u n => mkEntityId "unit" u n
  | ApplicationInfo u n => mkEntityId "application" u n
  | MachineInfo u i => mkEntityId "machine" u i
  | OtherInfo k u i => mkEntityId (otherKindName k) u i
  end.

(** [multiwatcher.Delta]. *)
Record Delta := mkDelta {
  Removed : bool;
  Entity : EntityInfo
}.

(** *** Watcher state *)

(** [mongodoc.ControllerStats]. *)
Record ControllerStats := mkStats {
  UnitCount : Z;
  ModelCount : Z;
  ServiceCount : Z;
  MachineCount : Z
}.

(** The counter a call of [adjustCount] points at ([n *int]). *)
Inductive StatField := FModelCount | FUnitCount | FServiceCount | FMachineCount.

#[global] Instance StatField_eq_dec : EqDecision StatField.
Proof. solve_decision. Defined.

Definition getStat (f : StatField) (s : ControllerStats) : Z :=
  match f with
  | FModelCount => ModelCount s
  | FUnitCount => UnitCount s
  | FServiceCount => ServiceCount s
  | FMachineCount => MachineCount s
  end.

Definition setStat (f : StatField) (v : Z) (s : ControllerStats) : ControllerStats :=
  match f with
  | FModelCount => mkStats (UnitCount s) v (ServiceCount s) (MachineCount s)
  | FUnitCount => mkStats v (ModelCount s) (ServiceCount s) (MachineCount s)
  | FServiceCount => mkStats (UnitCount s) (ModelCount s) v (MachineCount s)
  | FMachineCount => mkStats (UnitCount s) (ModelCount s) (ServiceCount s) v
  end.

(** [modelChange] bits. *)
Definition lifeChange : Z := Z.shiftl 1 0.
Definition countsChange : Z := Z.shiftl 1 1.

(** [params.EntityCount] keys of the per-model counts. *)
Definition paramsUnitCount : string := "units".
Definition paramsMachineCount : string := "machines".
Definition paramsApplicationCount : string := "applications".

(** [modelInfo]. *)
Record modelInfo := mkModelInfo {
  uuid : string;
  life : string;
  counts : gmap string Z;
  changed : Z
}.

(** Operations handed to the bounded runner ([w.runner.Do]). *)
Inductive DBOp :=
| SetControllerStats (s : ControllerStats)
| SetModelLife (uuid : string) (life : string)
| UpdateModelCounts (uuid : string) (counts : gmap string Z)
| UpdateMachineInfo (e : EntityInfo).

(** [watcherState]; [jem] and [ctlPath] are constant and left out, the
    runner is the list of operations it was given. *)
Record watcherState := mkWatcherState {
  runner : list DBOp;
  entities : gmap EntityId bool;
  wchanged : bool;
  stats : ControllerStats;
  models : gmap string modelInfo
}.

Definition newWatcherState : watcherState :=
  mkWatcherState [] ∅ false (mkStats 0 0 0 0) ∅.

(** [w.entities[id]] : a missing key reads as [false]. *)
Definition entitiesLookup (w : watcherState) (id : EntityId) : bool :=
  default false (entities w !! id).

(** [modelInfo.adjustCount]. *)
Definition infoAdjustCount (info : modelInfo) (kind : string) (n : Z) : modelInfo :=
  if Z.eqb n 0 then info
  else mkModelInfo (uuid info) (life info)
         (<[kind := add64 (default 0 (counts info !! kind)) n]> (counts info))
         (Z.lor (changed info) countsChange).

(** [modelInfo.setLife]. *)
Definition setLife (info : modelInfo) (l : string) : modelInfo :=
  if String.eqb l (life info) then info
  else mkModelInfo (uuid info) l (counts info) (Z.lor (changed info) lifeChange).

(** [watcherState.modelInfo]: the entry for [u], created on first use.
    The new entry is stored in the shared map, so the state is returned
    with it. *)
Definition getModelInfo (w : watcherState) (u : string) : watcherState * modelInfo :=
  match models w !! u with
  | Some info => (w, info)
  | None =>
      let info :=
        mkModelInfo u ""
          (<[paramsUnitCount := 0]>
             (<[paramsMachineCount := 0]>
                (<[paramsApplicationCount := 0]> ∅)))
          (Z.lnot 0) in
      (mkWatcherState (runner w) (entities w) (wchanged w) (stats w)
         (<[u := info]> (models w)), info)
  end.

(** Writing through the modelInfo pointer that [getModelInfo] returned. *)
Definition putModelInfo (w : watcherState) (u : string) (info : modelInfo) : watcherState :=
  mkWatcherState (runner w) (entities w) (wchanged w) (stats w)
    (<[u := info]> (models w)).

(** [watcherState.adjustCount]. *)
Definition adjustCount (w : watcherState) (n : StatField) (delta : Delta)
  : watcherState * Z :=
  let id := entityId (Entity delta) in
  let '(ents, diff) :=
    if Removed delta then
      if entitiesLookup w id then (delete id (entities w), -1)
      else (entities w, 0)
    else if negb (entitiesLookup w id) then (<[id := true]> (entities w), 1)
    else (entities w, 0) in
  if Z.eqb diff 0 then
    (mkWatcherState (runner w) ents (wchanged w) (stats w) (models w), diff)
  else
    (mkWatcherState (runner w) ents true
       (setStat n (add64 (getStat n (stats w)) diff) (stats w)) (models w), diff).

Definition runnerDo (w : watcherState) (op : DBOp) : watcherState :=
  mkWatcherState (runner w ++ [op]) (entities w) (wchanged w) (stats w) (models w).

(** [watcherState.addDelta] (it never fails). *)
Definition addDelta (w : watcherState) (d : Delta) : watcherState :=
  match Entity d with
  | ModelInfo u l =>
      let '(w, _) := adjustCount w FModelCount d in
      let l' := if Removed d then "dead" else l in
      let '(w, info) := getModelInfo w u in
      putModelInfo w u (setLife info l')
  | UnitInfo u _ =>
      let '(w, delta) := adjustCount w FUnitCount d in
      let '(w, info) := getModelInfo w u in
      putModelInfo w u (infoAdjustCount info paramsUnitCount delta)
  | ApplicationInfo u _ =>
      let '(w, delta) := adjustCount w FServiceCount d in
      let '(w, info) := getModelInfo w u in
      putModelInfo w u (infoAdjustCount info paramsApplicationCount delta)
  | MachineInfo u _ =>
      let '(w, delta) := adjustCount w FMachineCount d in
      let '(w, info) := getModelInfo w u in
      let w := putModelInfo w u (infoAdjustCount info paramsMachineCount delta) in
      runnerDo w (UpdateMachineInfo (Entity d))
  | OtherInfo _ _ _ => w
  end.

(** The delta reducer over a stream. *)
Definition addDeltas (w : watcherState) (ds : list Delta) : watcherState :=
  foldl addDelta w ds.

(** The flush of one model entry in the [watch] loop: the operations it
    issues, and the entry with its mask cleared. *)
Definition flushModel (u : string) (info : modelInfo) : list DBOp :=
  (if Z.eqb (Z.land (changed info) lifeChange) 0 then []
   else [SetModelLife u (life info)]) ++
  (if Z.eqb (Z.land (changed info) countsChange) 0 then []
   else [UpdateModelCounts u (counts info)]).

Definition clearChanged (info : modelInfo) : modelInfo :=
  mkModelInfo (uuid info) (life info) (counts info) 0.

(** One iteration of the [watch] loop after a batch has arrived: reset
    [changed] and the runner, reduce the batch, then flush.  The result
    is the state carried to the next batch and the operations given to
    the runner during this one. *)
Definition watchBatch (w : watcherState) (deltas : list Delta)
  : watcherState * list DBOp :=
  let w := mkWatcherState [] (entities w) false (stats w) (models w) in
  let w := addDeltas w deltas in
  let ops :=
    runner w ++
    (if wchanged w then [SetControllerStats (stats w)] else []) ++
    concat (map (fun '(u, info) => flushModel u info) (map_to_list (models w))) in
  (mkWatcherState [] (entities w) (wchanged w) (stats w)
     (clearChanged <$> models w), ops).

(** The [watch] loop over the batches the all-watcher delivers, as long
    as every database operation succeeds. *)
Fixpoint watchBatches (w : watcherState) (batches : list (list Delta))
  : watcherState * list DBOp :=
  match batches with
  | [] => (w, [])
  | b :: rest =>
      let '(w1, ops1) := watchBatch w b in
      let '(w2, ops2) := watchBatches w1 rest in
      (w2, ops1 ++ ops2)
  end.

(** *** What the statistics are meant to count *)

(** The entity kind each counter stands for. *)
Definition statKind (f : StatField) : string :=
  match f with
  | FModelCount => "model"
  | FUnitCount => "unit"
  | FServiceCount => "application"
  | FMachineCount => "machine"
  end.

(** The counter a delta's entity is counted under, by its dynamic type. *)
Definition counterOf (e : EntityInfo) : option StatField :=
  match e with
  | ModelInfo _ _ => Some FModelCount
  | UnitInfo _ _ => Some FUnitCount
  | ApplicationInfo _ _ => Some FServiceCount
  | MachineInfo _ _ => Some FMachineCount
  | OtherInfo _ _ _ => None
  end.

(** [id] has appeared in a non-removed delta of [ds] and no later delta
    of [ds] removes it. *)
Definition liveIn (ds : list Delta) (id : EntityId) : Prop :=
  exists (i : nat) (d : Delta),
    ds !! i = Some d /\ entityId (Entity d) = id /\ Removed d = false /\
    forall (j : nat) (d' : Delta),
      (i < j)%nat -> ds !! j = Some d' -> entityId (Entity d') = id ->
      Removed d' = false.

(** The known entities of kind [statKind f]. *)
Definition kindSet (f : StatField) (w : watcherState) : gset EntityId :=
  filter (fun id => Kind id = statKind f) (dom (entities w)).

(** *** The lease loop *)

(** [time.Time] as nanoseconds since the epoch; [time.Duration] is an
    [int64] count of nanoseconds. *)
Definition Time : Type := Z.
Definition Duration : Type := Z.

(** [Time.Add]. *)
Definition timeAdd (t : Time) (d : Duration) : Time := t + d.

(** [Time.Sub]: the difference, saturated at the ends of the
    [Duration] range. *)
Definition timeSub (t u : Time) : Duration :=
  Z.max minInt64 (Z.min maxInt64 (t - u)).

(** The causes the lease loop distinguishes. *)
Inductive LeaseError :=
| ErrLeaseUnavailable
| ErrNotFound
| errControllerRemoved
| ErrOther (msg : string).

(** The fields of [controllerMonitor] the lease loop uses. *)
Record controllerMonitor := mkMonitor {
  leaseExpiry : Time;
  ctlPath : string;
  ownerId : string
}.

(** How [leaseUpdater] ends. *)
Inductive LeaseExit :=
| ExitDying
| ExitCannotDrop (e : LeaseError)
| ExitCannotRenew (e : LeaseError).

(** Which case of the [select] fires in an iteration: the clock's timer,
    or the tomb dying at the given time. *)
Inductive LeaseEvent :=
| TimerFired
| TombDying (at_time : Time).

Section Lease.

(** [leaseExpiryDuration], a package variable set from the configuration. *)
Variable leaseExpiryDuration : Duration.

(** [jemInterface.AcquireMonitorLease] over the state [J] of the store
    behind it: controller path, old expiry, old owner, new expiry, new
    owner. *)
Variable J : Type.
Variable AcquireMonitorLease :
  J -> string -> Time -> string -> Time -> string -> (Time + LeaseError) * J.

(** [acquireLease]; [now] is [Clock.Now()]. *)
Definition acquireLease (j : J) (now : Time) (path : string)
    (oldExpiry : Time) (oldOwner newOwner : string) : (Time + LeaseError) * J :=
  match AcquireMonitorLease j path oldExpiry oldOwner
          (timeAdd now leaseExpiryDuration) newOwner with
  | (inl t, j') => (inl t, j')
  | (inr ErrNotFound, j') => (inr errControllerRemoved, j')
  | (inr e, j') => (inr e, j')
  end.

(** [renewLease]. *)
Definition renewLease (m : controllerMonitor) (j : J) (now : Time) (renew : bool)
  : controllerMonitor * option LeaseError * J :=
  let owner := if renew then ownerId m else "" in
  match acquireLease j now (ctlPath m) (leaseExpiry m) (ownerId m) owner with
  | (inl t, j') => (mkMonitor t (ctlPath m) (ownerId m), None, j')
  | (inr e, j') => (m, Some e, j')
  end.

(** The time the timer of an iteration is set for:
    [m.leaseExpiry.Add(-leaseExpiryDuration / 4)]. *)
Definition renewTime (m : controllerMonitor) : Time :=
  timeAdd (leaseExpiry m) (quot64 (neg64 leaseExpiryDuration) 4).

(** The clock reading when [Clock.After(renewTime.Sub(Clock.Now()))]
    fires: a non-positive duration fires at once. *)
Definition wakeTime (m : controllerMonitor) (now : Time) : Time :=
  now + Z.max 0 (timeSub (renewTime m) now).

(** [leaseUpdater], run against a script of [select] outcomes.  [None]
    means the loop is still running when the script ends. *)
Fixpoint leaseUpdater (events : list LeaseEvent) (m : controllerMonitor)
    (now : Time) (j : J) : option LeaseExit * controllerMonitor * Time * J :=
  match events with
  | [] => (None, m, now, j)
  | TimerFired :: rest =>
      let now' := wakeTime m now in
      match renewLease m j now' true with
      | (m', None, j') => leaseUpdater rest m' now' j'
      | (m', Some e, j') => (Some (ExitCannotRenew e), m', now', j')
      end
  | TombDying t :: _ =>
      match renewLease m j t false with
      | (m', None, j') => (Some ExitDying, m', t, j')
      | (m', Some e, j') => (Some (ExitCannotDrop e), m', t, j')
      end
  end.

End Lease.

(** Modelled from the spec: the lease manager behind
    [AcquireMonitorLease] (section 4.D), which is not part of this
    package.  The store maps a controller path to its lease
    [(expiry, owner)] and knows the server time. *)
Record LeaseStore := mkLeaseStore {
  serverNow : Time;
  leases : gmap string (Time * string)
}.

Definition specAcquireMonitorLease (s : LeaseStore) (path : string)
    (oldExpiry : Time) (oldOwner : string) (newExpiry : Time) (newOwner : string)
  : (Time + LeaseError) * LeaseStore :=
  match leases s !! path with
  | None => (inr ErrNotFound, s)
  | Some (expiry, owner) =>
      if (Z.eqb expiry oldExpiry && String.eqb owner oldOwner)
         || Z.ltb expiry (serverNow s)
      then (inl newExpiry,
            mkLeaseStore (serverNow s) (<[path := (newExpiry, newOwner)]> (leases s)))
      else (inr ErrLeaseUnavailable, s)
  end.

End Monitor.

(** ** The database-backed watcher (package [jimm], [watcher.go]) *)

Module Watcher.

(** Error codes of the [errors] package; [errors.E] keeps the code of the
    error it wraps, so an error is represented by its code. *)
Inductive Code :=
| CodeNotFound
| CodeDatabaseLocked
| CodeNotSupported
| CodeBadRequest
| CodeConnectionFailed
| CodePanic
| CodeOther (msg : string).

#[global] Instance Code_eq_dec : EqDecision Code.
Proof. solve_decision. Defined.

(** [sql.NullString]. *)
Record NullString := mkNullString {
  NSString : string;
  NSValid : bool
}.

(** [dbmodel.Model], with the columns the watcher reads or writes. *)
Record Model := mkModel {
  ID : N;
  UUID : NullString;
  ControllerID : N;
  Name : string;
  Life : string
}.

(** [dbmodel.Controller]. *)
Record Controller := mkController {
  CtlID : N;
  CtlName : string;
  UnavailableSince : option Z
}.

(** Modelled from the spec: the metadata store of package [db], which is
    not under the watcher's sources.  Tables are keyed by their primary
    key; the rows of applications, machines and units keep their payload
    opaque. *)
Record Database := mkDatabase {
  controllers : gmap N Controller;
  models : gmap N Model;
  applications : gmap (N * string) string;
  machines : gmap (N * string) string;
  units : gmap (N * string) string
}.

Definition setModels (db : Database) (ms : gmap N Model) : Database :=
  mkDatabase (controllers db) ms (applications db) (machines db) (units db).

(** Modelled from the spec: [Database.ForEachControllerModel] visits the
    model rows that reference the controller. *)
Definition controllerModels (db : Database) (ctlID : N) : list Model :=
  filter (fun m => ControllerID m = ctlID) (snd <$> map_to_list (models db)).

(** Modelled from the spec: [Database.GetModel] looks a model up by UUID
    (within the controller, when one is given) or else by ID, and reports
    [CodeNotFound] when there is no such row. *)
Definition GetModel (db : Database) (m : Model) : Model + Code :=
  if NSValid (UUID m) then
    match filter (fun r => NSValid (UUID r) = true /\
                           NSString (UUID r) = NSString (UUID m) /\
                           (ControllerID m = 0%N \/ ControllerID r = ControllerID m))
                 (snd <$> map_to_list (models db)) with
    | r :: _ => inl r
    | [] => inr CodeNotFound
    end
  else if N.eqb (ID m) 0 then inr CodeBadRequest
  else match models db !! ID m with
       | Some r => inl r
       | None => inr CodeNotFound
       end.

(** Modelled from the spec: [Database.DeleteModel] removes the row with
    the model's ID. *)
Definition DeleteModel (db : Database) (m : Model) : Database :=
  setModels db (delete (ID m) (models db)).

(** Modelled from the spec: [Database.UpdateModel] saves the row. *)
Definition UpdateModel (db : Database) (m : Model) : Database :=
  setModels db (<[ID m := m]> (models db)).

(** The deltas of the all-watcher, as [jujuparams] has them. *)
Record EntityId := mkEntityId {
  Kind : string;
  ModelUUID : string;
  Id : string
}.

Inductive OtherKind :=
| KRelation | KAnnotation | KBlock | KAction | KCharm | KApplicationOffer.

Definition otherKindName (k : OtherKind) : string :=
  match k with
  | KRelation => "relation"
  | KAnnotation => "annotation"
  | KBlock => "block"
  | KAction => "action"
  | KCharm => "charm"
  | KApplicationOffer => "applicationOffer"
  end.

Inductive EntityInfo :=
| ApplicationInfo (modelUUID name : string) (info : string)
| MachineInfo (modelUUID id : string) (info : string)
| ModelUpdate (modelUUID name life : string)
| UnitInfo (modelUUID name : string) (info : string)
| OtherInfo (k : OtherKind) (modelUUID id : string).

Definition entityId (e : EntityInfo) : EntityId :=
  match e with
  | ApplicationInfo u n _ => mkEntityId "application" u n
  | MachineInfo u i _ => mkEntityId "machine" u i
  | ModelUpdate u _ _ => mkEntityId "model" u u
  | UnitInfo u n _ => mkEntityId "unit" u n
  | OtherInfo k u i => mkEntityId (otherKindName k) u i
  end.

Record Delta := mkDelta {
  Removed : bool;
  Entity : EntityInfo
}.

(** The controller behind the [API] connection, as far as the watcher
    uses it: the outcome of the dial and of [WatchAllModels], the answer
    to [ModelInfo] per UUID ([None] is success), and the batches
    [AllModelWatcherNext] delivers before it fails with [nextError]. *)
Record API := mkAPI {
  dialError : option Code;
  watchAllModelsError : option Code;
  apiModelInfo : string -> option Code;
  batches : list (list Delta);
  nextError : Code
}.

(** [dialController]; [now] is [db.Now()]. *)
Definition dialController (db : Database) (api : API) (ctl : Controller) (now : Z)
  : Database * option Code :=
  match dialError api with
  | Some e =>
      match UnavailableSince ctl with
      | None =>
          (mkDatabase (<[CtlID ctl := mkController (CtlID ctl) (CtlName ctl) (Some now)]>
                         (controllers db))
             (models db) (applications db) (machines db) (units db), Some e)
      | Some _ => (db, Some e)
      end
  | None => (db, None)
  end.

(** The closure [checkDyingModel] of [watchController]. *)
Definition checkDyingModel (api : API) (m : Model) (db : Database)
  : Database * option Code :=
  if String.eqb (Life m) "dying" then
    match apiModelInfo api (NSString (UUID m)) with
    | Some e =>
        if decide (e = CodeNotFound) then (DeleteModel db m, None)
        else (db, Some e)
    | None => (db, None)
    end
  else (db, None).

(** The inner loop of [checkControllerModels] over the checks. *)
Fixpoint runChecks (checks : list (Model -> Database -> Database * option Code))
    (m : Model) (db : Database) : Database * option Code :=
  match checks with
  | [] => (db, None)
  | check :: rest =>
      match check m db with
      | (db', Some e) => (db', Some e)
      | (db', None) => runChecks rest m db'
      end
  end.

(** The callback of [checkControllerModels] over the rows visited; the
    iteration stops at the first error. *)
Fixpoint checkRows (checks : list (Model -> Database -> Database * option Code))
    (rows : list Model) (db : Database) (modelIDs : gmap string N)
  : Database * (gmap string N + Code) :=
  match rows with
  | [] => (db, inl modelIDs)
  | m :: rest =>
      if negb (NSValid (UUID m)) then checkRows checks rest db modelIDs
      else
        match runChecks checks m db with
        | (db', Some e) => (db', inr e)
        | (db', None) =>
            checkRows checks rest db' (<[NSString (UUID m) := ID m]> modelIDs)
        end
  end.

(** [checkControllerModels]. *)
Definition checkControllerModels (db : Database) (ctl : Controller)
    (checks : list (Model -> Database -> Database * option Code))
  : Database * (gmap string N + Code) :=
  checkRows checks (controllerModels db (CtlID ctl)) db ∅.

(** The closure [modelIDf] of [watchController]: the cached ID of the
    model, or a lookup that is cached when it succeeded or found nothing. *)
Definition modelIDf (db : Database) (ctl : Controller) (modelIDs : gmap string N)
    (uuid : string) : N * gmap string N :=
  match modelIDs !! uuid with
  | Some id => (id, modelIDs)
  | None =>
      match GetModel db (mkModel 0 (mkNullString uuid true) (CtlID ctl) "" "") with
      | inl m => (ID m, <[uuid := ID m]> modelIDs)
      | inr e =>
          if decide (e = CodeNotFound) then (0%N, <[uuid := 0%N]> modelIDs)
          else (0%N, modelIDs)
      end
  end.

(** [deleteModel]: inside one transaction, fetch the row and delete it
    only if it is marked as dying. *)
Definition deleteModel (db : Database) (model : Model) : Database * option Code :=
  match GetModel db model with
  | inr e =>
      if decide (e = CodeNotFound) then
        if String.eqb (Life model) "dying" then (DeleteModel db model, None)
        else (db, None)
      else (db, Some e)
  | inl row =>
      if String.eqb (Life row) "dying" then (DeleteModel db row, None)
      else (db, None)
  end.

(** [updateModel]; [FromJujuModelUpdate] copies the name and the life. *)
Definition updateModel (db : Database) (model : Model) (name life : string)
  : Database * option Code :=
  match GetModel db model with
  | inr e =>
      if decide (e = CodeNotFound) then
        (UpdateModel db (mkModel (ID model) (UUID model) (ControllerID model) name life), None)
      else (db, Some e)
  | inl row =>
      (UpdateModel db (mkModel (ID row) (UUID row) (ControllerID row) name life), None)
  end.

Definition setApplications (db : Database) (t : gmap (N * string) string) : Database :=
  mkDatabase (controllers db) (models db) t (machines db) (units db).
Definition setMachines (db : Database) (t : gmap (N * string) string) : Database :=
  mkDatabase (controllers db) (models db) (applications db) t (units db).
Definition setUnits (db : Database) (t : gmap (N * string) string) : Database :=
  mkDatabase (controllers db) (models db) (applications db) (machines db) t.

(** [handleDelta]. *)
Definition handleDelta (db : Database) (ctl : Controller) (modelIDs : gmap string N)
    (d : Delta) : Database * gmap string N * option Code :=
  let eid := entityId (Entity d) in
  let '(modelID, modelIDs) := modelIDf db ctl modelIDs (ModelUUID eid) in
  if N.eqb modelID 0 then (db, modelIDs, None)
  else if String.eqb (Kind eid) "application" then
    if Removed d then
      (setApplications db (delete (modelID, Id eid) (applications db)), modelIDs, None)
    else match Entity d with
         | ApplicationInfo _ _ info =>
             (setApplications db (<[(modelID, Id eid) := info]> (applications db)),
              modelIDs, None)
         | _ => (db, modelIDs, Some CodePanic)
         end
  else if String.eqb (Kind eid) "machine" then
    if Removed d then
      (setMachines db (delete (modelID, Id eid) (machines db)), modelIDs, None)
    else match Entity d with
         | MachineInfo _ _ info =>
             (setMachines db (<[(modelID, Id eid) := info]> (machines db)),
              modelIDs, None)
         | _ => (db, modelIDs, Some CodePanic)
         end
  else if String.eqb (Kind eid) "model" then
    let model := mkModel modelID (mkNullString "" false) 0 "" "" in
    if Removed d then
      let '(db', err) := deleteModel db model in (db', modelIDs, err)
    else match Entity d with
         | ModelUpdate _ name life =>
             let '(db', err) := updateModel db model name life in (db', modelIDs, err)
         | _ => (db, modelIDs, Some CodePanic)
         end
  else if String.eqb (Kind eid) "unit" then
    if Removed d then
      (setUnits db (delete (modelID, Id eid) (units db)), modelIDs, None)
    else match Entity d with
         | UnitInfo _ _ info =>
             (setUnits db (<[(modelID, Id eid) := info]> (units db)), modelIDs, None)
         | _ => (db, modelIDs, Some CodePanic)
         end
  else (db, modelIDs, None).

(** The deltas of one batch, in order, stopping at the first error. *)
Fixpoint handleDeltas (db : Database) (ctl : Controller) (modelIDs : gmap string N)
    (ds : list Delta) : Database * gmap string N * option Code :=
  match ds with
  | [] => (db, modelIDs, None)
  | d :: rest =>
      match handleDelta db ctl modelIDs d with
      | (db', ids', Some e) => (db', ids', Some e)
      | (db', ids', None) => handleDeltas db' ctl ids' rest
      end
  end.

(** The delta loop of [watchController]: after each batch the cached
    zero entries are dropped; the loop ends with the first error. *)
Fixpoint watchLoop (db : Database) (ctl : Controller) (modelIDs : gmap string N)
    (bs : list (list Delta)) (nextErr : Code) : Database * Code :=
  match bs with
  | [] => (db, nextErr)
  | b :: rest =>
      match handleDeltas db ctl modelIDs b with
      | (db', _, Some e) => (db', e)
      | (db', ids', None) =>
          watchLoop db' ctl (filter (fun kv => kv.2 <> 0%N) ids') rest nextErr
      end
  end.

(** [watchController]. *)
Definition watchController (db : Database) (api : API) (ctl : Controller) (now : Z)
  : Database * Code :=
  match dialController db api ctl now with
  | (db, Some e) => (db, e)
  | (db, None) =>
      match watchAllModelsError api with
      | Some e => (db, e)
      | None =>
          match checkControllerModels db ctl [checkDyingModel api] with
          | (db, inr e) => (db, e)
          | (db, inl modelIDs) =>
              watchLoop db ctl modelIDs (batches api) (nextError api)
          end
      end
  end.

End Watcher.

(** ** Errors, as [errgo] and the gateway see them *)

Module Errors.

(** [params.ErrorCode]. *)
Inductive ErrorCode :=
| ErrNotFound
| ErrUnauthorized
| ErrBadRequest
| ErrAlreadyExists
| ErrAmbiguousChoice
| ErrForbidden.

#[global] Instance ErrorCode_eq_dec : EqDecision ErrorCode.
Proof. solve_decision. Defined.

Definition codeString (c : ErrorCode) : string :=
  match c with
  | ErrNotFound => "not found"
  | ErrUnauthorized => "unauthorized"
  | ErrBadRequest => "bad request"
  | ErrAlreadyExists => "already exists"
  | ErrAmbiguousChoice => "ambiguous choice"
  | ErrForbidden => "forbidden"
  end.

(** Go error values, by dynamic type: a [params.ErrorCode] used as an
    error, a [*jujuparams.Error], an [*errgo.Err] with its message,
    underlying error and cause, or any other error. *)
Inductive error :=
| EParams (c : ErrorCode)
| EJuju (message code : string)
| EErrgo (message : string) (underlying : option error) (cause : option error)
| EPlain (message : string).

(** [err.Error()]. *)
Fixpoint errorString (e : error) : string :=
  match e with
  | EParams c => codeString c
  | EJuju m _ => m
  | EErrgo m None _ => if String.eqb m "" then "<no error>" else m
  | EErrgo m (Some u) _ =>
      if String.eqb m "" then errorString u
      else (m ++ ": " ++ errorString u)%string
  | EPlain m => m
  end.

(** [errgo.Cause]. *)
Definition Cause (e : error) : error :=
  match e with
  | EErrgo _ _ (Some c) => c
  | _ => e
  end.

(** [errgo.Cause(err) == c] for a [params.ErrorCode] [c]. *)
Definition causeIs (c : ErrorCode) (e : error) : bool :=
  match Cause e with
  | EParams c' => bool_decide (c' = c)
  | _ => false
  end.

(** [errgo.Is(c)] as a mask predicate. *)
Definition Is (c : ErrorCode) (e : error) : bool :=
  match e with
  | EParams c' => bool_decide (c' = c)
  | _ => false
  end.

(** [errgo.Mask]: hide the cause unless one of [pass] accepts it. *)
Definition Mask (err : option error) (pass : list (error -> bool)) : option error :=
  match err with
  | None => None
  | Some e =>
      Some (EErrgo "" (Some e)
              (if existsb (fun p => p (Cause e)) pass then Some (Cause e) else None))
  end.


(** [errgo.WithCausef] with an already formatted message. *)
Definition WithCausef (underlying : option error) (cause : ErrorCode) (msg : string)
  : error :=
  EErrgo (match underlying with
          | None => if String.eqb msg "" then codeString cause else msg
          | Some _ => msg
          end) underlying (Some (EParams cause)).

(** [errgo.New]. *)
Definition New (msg : string) : error := EErrgo msg None None.

(** [jujuparams.Error] on the wire. *)
Record JujuError := mkJujuError {
  Message : string;
  Code : string
}.

Definition CodeNotFound : string := "not found".
Definition CodeNotSupported : string := "not supported".

(** [mapError] of package [jujuapi]. *)
Definition mapError (err : option error) : option JujuError :=
  match err with
  | None => None
  | Some (EJuju m c) => Some (mkJujuError m c)
  | Some e =>
      Some (mkJujuError (errorString e)
              (if causeIs ErrNotFound e then CodeNotFound else ""))
  end.

(** The double-quote character, for [%q]. *)
Definition dq : string := String (Ascii.ascii_of_nat 34) EmptyString.
Definition quoted (s : string) : string := (dq ++ s ++ dq)%string.

End Errors.

(** ** The orchestrator (package [jem]) *)

(** The sources of [jem.CreateModel], [jem.GrantModel], [jem.RevokeModel]
    and [jem.DestroyModel] are not under this tree; their tests
    ([jem_test.go]) and their callers ([jujuapi]) are.  The definitions
    below follow section 4.G of the specification and are checked against
    the test cases further down. *)

Module JEM.
Import Errors.

(** [params.EntityPath]. *)
Record EntityPath := mkPath {
  User : string;
  PName : string
}.

(** [params.CredentialPath]. *)
Record CredentialPath := mkCredPath {
  CCloud : string;
  CUser : string;
  CName : string
}.

#[global] Instance EntityPath_eq_dec : EqDecision EntityPath.
Proof. solve_decision. Defined.

#[global] Instance CredentialPath_eq_dec : EqDecision CredentialPath.
Proof. solve_decision. Defined.

Definition pathString (p : EntityPath) : string :=
  (User p ++ "/" ++ PName p)%string.

Definition credPathString (p : CredentialPath) : string :=
  (CCloud p ++ "/" ++ CUser p ++ "/" ++ CName p)%string.

(** [params.ACL]. *)
Record ACL := mkACL {
  Read : list string;
  Write : list string;
  Admin : list string
}.

(** [mongodoc.Credential]. *)
Record Credential := mkCredential {
  credPath : CredentialPath;
  credType : string;
  revoked : bool;
  credControllers : list EntityPath
}.

(** [mongodoc.Controller]. *)
Record Controller := mkController {
  ctlPath : EntityPath;
  locCloud : string;
  locRegion : string;
  ctlPublic : bool;
  ctlACL : ACL
}.

(** [mongodoc.Model]. *)
Record Model := mkModel {
  path : EntityPath;
  uuid : string;
  controller : EntityPath;
  cloud : string;
  cloudRegion : string;
  credential : option CredentialPath;
  creator : string;
  creationTime : Z;
  life : string;
  acl : ACL
}.

(** The metadata store. *)
Record Store := mkStore {
  models : list Model;
  credentials : list Credential;
  controllers : list Controller
}.

(** The downstream controller: the models it hosts and the access it has
    been told to give. *)
Record Backend := mkBackend {
  hosted : list string;
  access : list (string * string * string)
}.

(** The authenticated caller. *)
Record Identity := mkIdentity {
  userName : string;
  groups : list string
}.

(** [jem.CreateModelParams]. *)
Record CreateModelParams := mkCreateModelParams {
  Path : EntityPath;
  ControllerPath : option EntityPath;
  CredentialP : option CredentialPath;
  Cloud : string;
  Region : string
}.

(** Modelled from the spec: membership of the caller in a list of ACL
    entries, with group expansion (section 4.G, Authorization). *)
Definition inACL (id : Identity) (l : list string) : bool :=
  existsb (fun g => String.eqb g "everyone" || String.eqb g (userName id)
                    || existsb (String.eqb g) (groups id)) l.

Definition isModelAdmin (id : Identity) (m : Model) : bool :=
  String.eqb (userName id) (User (path m)) || inACL id (Admin (acl m)).

Definition canReadController (id : Identity) (c : Controller) : bool :=
  ctlPublic c || String.eqb (userName id) (User (ctlPath c))
  || inACL id (Admin (ctlACL c)) || inACL id (Write (ctlACL c))
  || inACL id (Read (ctlACL c)).

(** Modelled from the spec: the caller's credentials for a cloud
    (section 4.G, CreateModel step 2). *)
Definition credentialsFor (s : Store) (user cloud_ : string) : list Credential :=
  filter (fun c => CUser (credPath c) = user /\ CCloud (credPath c) = cloud_)
         (credentials s).

(** Modelled from the spec: CreateModel step 2, the choice of credential
    when none is given. *)
Definition selectCredential (s : Store) (id : Identity) (p : CreateModelParams)
  : option CredentialPath + error :=
  match CredentialP p with
  | Some cp => inl (Some cp)
  | None =>
      match credentialsFor s (userName id) (Cloud p) with
      | [] => inl None
      | [c] => inl (Some (credPath c))
      | _ => inr (WithCausef None ErrAmbiguousChoice
                    "more than one possible credential to use")
      end
  end.

(** Modelled from the spec: SelectController (section 4.G, step 4); the
    random choice is the injected [intn]. *)
Definition SelectController (s : Store) (id : Identity) (cloud_ region : string)
    (intn : nat -> nat) : Controller + error :=
  let candidates :=
    filter (fun c => canReadController id c = true /\ locCloud c = cloud_ /\
                     (region = "" \/ locRegion c = region))
           (controllers s) in
  match candidates !! intn (length candidates) with
  | Some c => inl c
  | None =>
      inr (EErrgo "cannot select controller"
             (Some (WithCausef None ErrNotFound "no matching controllers found"))
             (Some (EParams ErrNotFound)))
  end.

(** Modelled from the spec: CreateModel steps 3 to 7, once the credential
    to use is settled. *)
Definition createModelWith (s : Store) (b : Backend) (id : Identity) (now : Z)
    (intn : nat -> nat) (newUUID : string) (p : CreateModelParams)
    (cred : option CredentialPath) : (Model + error) * Store * Backend :=
  let resolved :=
    match cred with
    | None => true
    | Some cp => bool_decide (cp ∈ credPath <$> credentials s)
    end in
  if negb resolved then
    (inr (WithCausef None ErrNotFound
            ("credential " ++ quoted (from_option credPathString "" cred)
                           ++ " not found")), s, b)
  else
    let chosen :=
      match ControllerPath p with
      | Some cp =>
          match filter (fun c => ctlPath c = cp) (controllers s) with
          | c :: _ => inl c
          | [] => inr (WithCausef None ErrNotFound
                         ("controller " ++ quoted (pathString cp) ++ " not found"))
          end
      | None => SelectController s id (Cloud p) (Region p) intn
      end in
    match chosen with
    | inr e => (inr e, s, b)
    | inl ctl =>
        if bool_decide (Path p ∈ path <$> models s) then
          (inr (WithCausef None ErrAlreadyExists ""), s, b)
        else
          let m := mkModel (Path p) newUUID (ctlPath ctl) (Cloud p)
                     (if String.eqb (Region p) "" then locRegion ctl else Region p)
                     cred (userName id) now "alive" (mkACL [] [] []) in
          let creds' :=
            (fun c => if bool_decide (Some (credPath c) = cred) then
                        mkCredential (credPath c) (credType c) (revoked c)
                          (ctlPath ctl :: credControllers c)
                      else c) <$> credentials s in
          (inl m,
           mkStore (models s ++ [m]) creds' (controllers s),
           mkBackend (hosted b ++ [newUUID]) (access b))
    end.

(** Modelled from the spec: [CreateModel] (section 4.G, steps 1 to 7). *)
Definition CreateModel (adminGroup : string) (s : Store) (b : Backend)
    (id : Identity) (now : Z) (intn : nat -> nat) (newUUID : string)
    (p : CreateModelParams) : (Model + error) * Store * Backend :=
  if negb (String.eqb (userName id) (User (Path p)) || inACL id [adminGroup]) then
    (inr (EParams ErrUnauthorized), s, b)
  else
    match selectCredential s id p with
    | inr e => (inr e, s, b)
    | inl cred => createModelWith s b id now intn newUUID p cred
    end.

(** How a caller names a model: a [mongodoc.Model] with the path or the
    UUID filled in. *)
Record ModelRef := mkModelRef {
  refPath : option EntityPath;
  refUUID : string
}.

Definition refMatches (r : ModelRef) (m : Model) : Prop :=
  match refPath r with
  | Some p => path m = p
  | None => uuid m = refUUID r
  end.

#[global] Instance refMatches_dec r m : Decision (refMatches r m).
Proof. unfold refMatches. destruct (refPath r); apply _. Defined.

Definition refString (r : ModelRef) : string :=
  match refPath r with
  | Some p => pathString p
  | None => refUUID r
  end.

Definition modelNotFound (r : ModelRef) : error :=
  WithCausef None ErrNotFound ("model " ++ quoted (refString r) ++ " not found").

Definition findModel (s : Store) (r : ModelRef) : option Model :=
  head (filter (refMatches r) (models s)).

Definition setModels (s : Store) (ms : list Model) : Store :=
  mkStore ms (credentials s) (controllers s).

Definition setACL (m : Model) (a : ACL) : Model :=
  mkModel (path m) (uuid m) (controller m) (cloud m) (cloudRegion m)
    (credential m) (creator m) (creationTime m) (life m) a.

Definition setLife (m : Model) (l : string) : Model :=
  mkModel (path m) (uuid m) (controller m) (cloud m) (cloudRegion m)
    (credential m) (creator m) (creationTime m) l (acl m).

Definition updateModel (s : Store) (r : ModelRef) (f : Model -> Model) : Store :=
  setModels s ((fun m => if decide (refMatches r m) then f m else m) <$> models s).

(** The local ACL change of a grant: the user gains read access. *)
Definition dbGrant (m : Model) (user : string) : Model :=
  setACL m (mkACL (if bool_decide (user ∈ Read (acl m)) then Read (acl m)
                   else Read (acl m) ++ [user])
                  (Write (acl m)) (Admin (acl m))).

(** The local ACL change of a revoke: the user loses read access. *)
Definition dbRevoke (m : Model) (user : string) : Model :=
  setACL m (mkACL (filter (fun u => u <> user) (Read (acl m)))
                  (Write (acl m)) (Admin (acl m))).

(** The controller's side of grant and revoke: an access level other
    than read, write or admin is refused as not valid. *)
Definition validAccess (a : string) : bool :=
  String.eqb a "read" || String.eqb a "write" || String.eqb a "admin".

Definition notValid (a : string) : error :=
  EJuju (quoted a ++ " model access not valid") "not valid".

Definition backendGrant (b : Backend) (u user a : string) : option error * Backend :=
  if validAccess a then (None, mkBackend (hosted b) (access b ++ [(u, user, a)]))
  else (Some (notValid a), b).

Definition backendRevoke (b : Backend) (u user a : string) : option error * Backend :=
  if validAccess a then
    (None, mkBackend (hosted b)
             (filter (fun t => t.1 <> (u, user)) (access b)))
  else (Some (notValid a), b).

Definition backendDestroy (b : Backend) (u : string) : option error * Backend :=
  if bool_decide (u ∈ hosted b) then
    (None, mkBackend (filter (fun v => v <> u) (hosted b)) (access b))
  else (Some (EJuju "model not found" CodeNotFound), b).

(** Modelled from the spec: [GrantModel] (section 4.G): admin only, the
    controller first, the local ACL only when the controller accepted. *)
Definition GrantModel (s : Store) (b : Backend) (id : Identity) (r : ModelRef)
    (user a : string) : option error * Store * Backend :=
  match findModel s r with
  | None => (Some (modelNotFound r), s, b)
  | Some m =>
      if negb (isModelAdmin id m) then (Some (EParams ErrUnauthorized), s, b)
      else
        match backendGrant b (uuid m) user a with
        | (Some e, b') => (Mask (Some e) [fun _ => true], s, b')
        | (None, b') => (None, updateModel s r (fun m => dbGrant m user), b')
        end
  end.

(** Modelled from the spec: [RevokeModel] in the words of section 4.G,
    the controller first. *)
Definition RevokeModel_spec (s : Store) (b : Backend) (id : Identity) (r : ModelRef)
    (user a : string) : option error * Store * Backend :=
  match findModel s r with
  | None => (Some (modelNotFound r), s, b)
  | Some m =>
      if negb (isModelAdmin id m) then (Some (EParams ErrUnauthorized), s, b)
      else
        match backendRevoke b (uuid m) user a with
        | (Some e, b') => (Mask (Some e) [fun _ => true], s, b')
        | (None, b') => (None, updateModel s r (fun m => dbRevoke m user), b')
        end
  end.

(** Modelled from the spec: [RevokeModel], with the order of its two
    steps as [TestRevokeModelControllerFailure] observes it: the access
    is withdrawn locally first and the controller is told afterwards, so
    a refusal by the controller finds the local ACL already changed. *)
Definition RevokeModel (s : Store) (b : Backend) (id : Identity) (r : ModelRef)
    (user a : string) : option error * Store * Backend :=
  match findModel s r with
  | None => (Some (modelNotFound r), s, b)
  | Some m =>
      if negb (isModelAdmin id m) then (Some (EParams ErrUnauthorized), s, b)
      else
        let s' := updateModel s r (fun m => dbRevoke m user) in
        match backendRevoke b (uuid m) user a with
        | (Some e, b') => (Mask (Some e) [fun _ => true], s', b')
        | (None, b') => (None, s', b')
        end
  end.

(** Modelled from the spec: [DestroyModel] (section 4.G): admin only;
    the remote destroy is called, a model already gone from the
    controller being no obstacle, and the local row is left at
    [life = "dying"] for the monitor to reap. *)
Definition DestroyModel (s : Store) (b : Backend) (id : Identity) (r : ModelRef)
  : option error * Store * Backend :=
  match findModel s r with
  | None => (Some (modelNotFound r), s, b)
  | Some m =>
      if negb (isModelAdmin id m) then (Some (EParams ErrUnauthorized), s, b)
      else
        match backendDestroy b (uuid m) with
        | (Some (EJuju msg code), b') =>
            if String.eqb code CodeNotFound then
              (None, updateModel s r (fun m => setLife m "dying"), b')
            else (Mask (Some (EJuju msg code)) [fun _ => true], s, b')
        | (Some e, b') => (Mask (Some e) [fun _ => true], s, b')
        | (None, b') => (None, updateModel s r (fun m => setLife m "dying"), b')
        end
  end.

(** The monitor's dying-model reconciliation, seen from this store: the
    row of a dying model that the controller no longer has is removed. *)
Definition reapModel (s : Store) (b : Backend) (u : string) : Store :=
  if bool_decide (u ∈ hosted b) then s
  else setModels s (filter (fun m => ~ (uuid m = u /\ life m = "dying")) (models s)).

(** [DB.AddModel]. *)
Definition AddModel (s : Store) (m : Model) : Store :=
  setModels s (models s ++ [m]).

End JEM.

(** ** The RPC gateway (package [jujuapi]) *)

Module JujuAPI.
Import Errors.

(** *** Facade dispatch ([websocket.go]) *)

(** [facades]: the facade versions supported, and the method of [root]
    that serves each. *)
Definition facades : gmap (string * Z) string :=
  {[ ("Admin", 3) := "Admin";
     ("Cloud", 1) := "Cloud";
     ("ModelManager", 2) := "ModelManager";
     ("Pinger", 1) := "Pinger" ]}.

(** What reflection finds on [root]: its facade methods, and for the
    object each returns, the exported methods with an RPC signature. *)
Definition rootMethods : list (string * list string) :=
  [ ("Admin", ["Login"; "RedirectInfo"]);
    ("Cloud", ["Cloud"; "CloudDefaults"; "Credentials"; "UpdateCredentials"]);
    ("ModelManager", ["ListModels"; "ModelInfo"; "CreateModel"]);
    ("Pinger", ["Ping"]) ].

(** The errors [FindMethod] returns: [*rpcreflect.CallNotImplementedError],
    [*rpc.RequestError], or an [errgo] error. *)
Inductive FindError :=
| CallNotImplementedError (rootMethod : string) (version : Z) (method : string)
| RequestError (code message : string)
| OtherError (e : error).

(** A found method: the root method and the object method. *)
Record MethodCaller := mkMethodCaller {
  callerRoot : string;
  callerMethod : string
}.

(** [rpcreflect.Value.FindMethod] on [root], as [FindMethod] calls it. *)
Definition reflectFindMethod (rootName : string) (version : Z) (methodName : string)
  : MethodCaller + FindError :=
  if negb (Z.eqb version 0) then
    inr (CallNotImplementedError rootName version methodName)
  else
    match filter (fun rm => rm.1 = rootName) rootMethods with
    | [] => inr (CallNotImplementedError rootName 0 "")
    | (_, methods) :: _ =>
        if bool_decide (methodName ∈ methods) then
          inl (mkMethodCaller rootName methodName)
        else inr (CallNotImplementedError rootName 0 methodName)
    end.

(** [mongodoc.Model] and [mongodoc.Controller], as the handler holds them. *)
Record ModelDoc := mkModelDoc {
  docId : string;
  docController : string;
  docUUID : string
}.

Record ControllerDoc := mkControllerDoc {
  ctlDocId : string;
  ctlDocUUID : string
}.

(** [wsHandler]; [username] is [h.jem.Auth.Username]. *)
Record wsHandler := mkHandler {
  modelUUID : string;
  model : option ModelDoc;
  controller : option ControllerDoc;
  username : string
}.

Section Dispatch.

(** [jem.ModelFromUUID] and [jem.Controller]. *)
Variable ModelFromUUID : string -> ModelDoc + error.
Variable ControllerOf : string -> ControllerDoc + error.

(** [resolveUUID]. *)
Definition resolveUUID (h : wsHandler) : wsHandler * option error :=
  if String.eqb (modelUUID h) "" then (h, None)
  else
    match ModelFromUUID (modelUUID h) with
    | inr e =>
        (mkHandler (modelUUID h) None (controller h) (username h),
         Mask (Some e) [Is ErrNotFound])
    | inl m =>
        match ControllerOf (docController m) with
        | inl c => (mkHandler (modelUUID h) (Some m) (Some c) (username h), None)
        | inr e =>
            (mkHandler (modelUUID h) (Some m) None (username h), Mask (Some e) [])
        end
    end.

(** [FindMethod]. *)
Definition FindMethod (h : wsHandler) (rootName : string) (version : Z)
    (methodName : string) : wsHandler * (MethodCaller + FindError) :=
  let '(h, err) :=
    match model h, controller h with
    | Some _, Some _ => (h, None)
    | _, _ => resolveUUID h
    end in
  match Mask err [] with
  | Some e => (h, inr (OtherError e))
  | None =>
      if String.eqb (username h) "" && negb (String.eqb rootName "Admin") then
        (h, inr (CallNotImplementedError rootName version ""))
      else if String.eqb rootName "Admin" && Z.ltb version 3 then
        (h, inr (RequestError CodeNotSupported
                   "JAAS does not support login from old clients"))
      else
        let rn := default "" (facades !! (rootName, version)) in
        if negb (String.eqb rn "") then (h, reflectFindMethod rn 0 methodName)
        else (h, inr (CallNotImplementedError rootName version ""))
  end.

End Dispatch.

(** A [(root, version, method)] triple of the registered tables. *)
Definition registered (rootName : string) (version : Z) (methodName : string) : Prop :=
  exists rn methods,
    facades !! (rootName, version) = Some rn /\
    (rn, methods) ∈ rootMethods /\ methodName ∈ methods.

(** *** The ModelManager facade ([modelmanager.go]) *)

(** [jujuparams.ModelInfo], with the fields the facade itself writes. *)
Record ModelInfoDoc := mkModelInfoDoc {
  miUUID : string;
  miControllerUUID : string;
  miPayload : string
}.

(** A per-entity result: the result value and the error. *)
Record Result (R : Type) := mkResult {
  resValue : R;
  resError : option JujuError
}.
Arguments mkResult {R} _ _.
Arguments resValue {R} _.
Arguments resError {R} _.

(** The loops over the request's entities that thread the [jem] state. *)
Fixpoint forEach {J A B : Type} (f : J -> A -> B * J) (j : J) (l : list A)
  : list B * J :=
  match l with
  | [] => ([], j)
  | a :: rest =>
      let '(b, j1) := f j a in
      let '(bs, j2) := forEach f j1 rest in
      (b :: bs, j2)
  end.

(** The line every model operation shares:
    [if errgo.Cause(err) == params.ErrNotFound { err = params.ErrUnauthorized }]. *)
Definition notFoundToUnauthorized (err : option error) : option error :=
  match err with
  | Some e => if causeIs ErrNotFound e then Some (EParams ErrUnauthorized) else Some e
  | None => None
  end.


(** [jujuparams.DestroyModelParams]. *)
Record DestroyModelParams := mkDestroyModelParams {
  DModelTag : string;
  DestroyStorage : option bool;
  Force : option bool;
  MaxWait : option Z
}.

Section ModelManager.

(** The state behind [r.jem], and the caller's identity. *)
Variable J : Type.
Variable identity : Type.

(** [names.ParseModelTag] and [conv.ParseUserTag]. *)
Variable ParseModelTag : string -> string + error.
Variable ParseUserTag : string -> string + error.

(** The [jem] operations the facade calls, by model UUID. *)
Variable GetModelInfo :
  J -> identity -> ModelInfoDoc -> bool -> ModelInfoDoc * option error.
Variable GrantModel : J -> identity -> string -> string -> string -> option error * J.
Variable RevokeModel : J -> identity -> string -> string -> string -> option error * J.
Variable DestroyModel :
  J -> identity -> string -> option bool -> option bool -> option Z -> option error * J.

(** [controllerRoot.modelWithConnection]: looks the model up for the
    given tag and access and, if that succeeds, runs the closure on the
    model's UUID; the result is what the closure stored, if it ran. *)
Variable modelWithConnection :
  J -> identity -> string -> string ->
  (string -> string * option error) -> option string * option error.

(** The [apiconn.Conn] calls of the dump operations. *)
Variable connDumpModel : J -> string -> string * option error.
Variable connDumpModelV3 : J -> string -> bool -> string * option error.
Variable connDumpModelDB : J -> string -> string * option error.

Variable controllerUUIDMasking : bool.
Variable ControllerUUID : string.

(** [ModelInfo] (the version of [controllerRoot]); the entities are
    handled independently of each other. *)
Definition modelInfoOne (j : J) (id : identity) (single : bool) (tag : string)
  : Result (option ModelInfoDoc) :=
  match ParseModelTag tag with
  | inr err =>
      mkResult None (mapError (Some (WithCausef (Some err) ErrBadRequest "")))
  | inl u =>
      let '(info, err) := GetModelInfo j id (mkModelInfoDoc u "" "") single in
      let jerr := mapError (notFoundToUnauthorized err) in
      let info :=
        if controllerUUIDMasking then
          mkModelInfoDoc (miUUID info) ControllerUUID (miPayload info)
        else info in
      match jerr with
      | Some _ => mkResult None jerr
      | None => mkResult (Some info) None
      end
  end.

Definition ModelInfo (j : J) (id : identity) (args : list string)
  : list (Result (option ModelInfoDoc)) :=
  map (modelInfoOne j id (Nat.eqb (length args) 1)) args.







(** [DestroyModelsV4]. *)
Definition destroyModelOne (id : identity) (j : J) (m : DestroyModelParams)
  : Result unit * J :=
  match ParseModelTag (DModelTag m) with
  | inr err =>
      (mkResult tt (mapError (Some (WithCausef (Some err) ErrBadRequest ""))), j)
  | inl u =>
      match DestroyModel j id u (DestroyStorage m) (Force m) (MaxWait m) with
      | (Some e, j') =>
          if negb (causeIs ErrNotFound e) then (mkResult tt (mapError (Some e)), j')
          else (mkResult tt None, j')
      | (None, j') => (mkResult tt None, j')
      end
  end.

Definition DestroyModelsV4 (j : J) (id : identity) (args : list DestroyModelParams)
  : list (Result unit) * J :=
  forEach (destroyModelOne id) j args.

(** [DestroyModels], the entry point up to version 3. *)
Definition DestroyModels (j : J) (id : identity) (args : list string)
  : list (Result unit) * J :=
  DestroyModelsV4 j id
    (map (fun tag => mkDestroyModelParams tag (Some true) None None) args).

End ModelManager.

(** The old [modelManager.modelInfo] of [websocket.go], up to the point
    where the model has been looked up and the caller checked. *)
Definition oldModelInfoLookup (ModelFromUUID : string -> ModelDoc + error)
    (CheckCanRead : ModelDoc -> option error)
    (ParseModelTag : string -> string + error) (tag : string)
  : ModelDoc + error :=
  match ParseModelTag tag with
  | inr err => inr (WithCausef (Some err) ErrBadRequest "")
  | inl u =>
      match ModelFromUUID u with
      | inr err =>
          if causeIs ErrNotFound err then inr (WithCausef (Some err) ErrUnauthorized "")
          else inr (EErrgo "" (Some err) None)
      | inl m =>
          match Mask (CheckCanRead m) [Is ErrUnauthorized] with
          | Some e => inr e
          | None => inl m
          end
      end
  end.

End JujuAPI.

(** ** The model-summary watcher (package [jimm], [watcher.go]) *)

Module Summaries.
Import Watcher.

(** [jujuparams.ModelAbstract], with the fields the watcher reads or
    rewrites; the rest of the summary is passed on untouched. *)
Record ModelAbstract := mkModelAbstract {
  AbsUUID : string;
  Admins : list string;
  AbsRest : string
}.

(** How the summary loop ends: the context is done, or
    [ModelSummaryWatcherNext] fails. *)
Inductive LoopEnd :=
| ContextDone
| NextFailed (e : Code).

(** The methods of the [API] connection that only the summary watcher
    uses: whether the controller supports the summary watcher, the
    outcome of [WatchAllModelSummaries], and the batches
    [ModelSummaryWatcherNext] delivers before the loop ends. *)
Record SummaryAPI := mkSummaryAPI {
  SupportsModelSummaryWatcher : bool;
  watchAllModelSummariesError : option Code;
  summaryBatches : list (list ModelAbstract);
  loopEnd : LoopEnd
}.

(** The controller value [dialController] was given, after the call:
    a failed dial stamps it, if it carried no stamp yet. *)
Definition dialedController (api : API) (ctl : Controller) (now : Z) : Controller :=
  match dialError api, UnavailableSince ctl with
  | Some _, None => mkController (CtlID ctl) (CtlName ctl) (Some now)
  | _, _ => ctl
  end.

Section Publish.

(** [names.NewUserTag(admin).IsLocal()]. *)
Variable IsLocal : string -> bool.

(** The summary as it is published: without its local admins. *)
Definition sanitize (s : ModelAbstract) : ModelAbstract :=
  mkModelAbstract (AbsUUID s) (filter (fun a => IsLocal a = false) (Admins s)) (AbsRest s).

(** The body of the summary loop for one batch: what is handed to
    [Pubsub.Publish], in order, and the cache of model IDs afterwards. *)
Fixpoint publishSummaries (db : Database) (ctl : Controller) (modelIDs : gmap string N)
    (ss : list ModelAbstract) : gmap string N * list (string * ModelAbstract) :=
  match ss with
  | [] => (modelIDs, [])
  | s :: rest =>
      let '(modelID, modelIDs) := modelIDf db ctl modelIDs (AbsUUID s) in
      if N.eqb modelID 0 then publishSummaries db ctl modelIDs rest
      else
        let '(ids, pubs) := publishSummaries db ctl modelIDs rest in
        (ids, (AbsUUID s, sanitize s) :: pubs)
  end.

(** The summary loop; unlike the delta loop it keeps the cached zero
    entries from batch to batch. *)
Fixpoint summaryLoop (db : Database) (ctl : Controller) (modelIDs : gmap string N)
    (bs : list (list ModelAbstract)) (e : LoopEnd)
  : list (string * ModelAbstract) * Code :=
  match bs with
  | [] =>
      ([], match e with
           | ContextDone => CodeOther "context cancelled"
           | NextFailed c => c
           end)
  | b :: rest =>
      let '(ids, pubs) := publishSummaries db ctl modelIDs b in
      let '(pubs', c) := summaryLoop db ctl ids rest e in
      (pubs ++ pubs', c)
  end.

(** [watchAllModelSummaries]; [now] and [now2] are the two readings of
    [db.Now()]. *)
Definition watchAllModelSummaries (db : Database) (api : API) (sw : SummaryAPI)
    (ctl : Controller) (now now2 : Z)
  : Database * list (string * ModelAbstract) * Code :=
  match dialController db api ctl now with
  | (db, Some e) =>
      let ctl := dialedController api ctl now in
      match UnavailableSince ctl with
      | None =>
          (mkDatabase
             (<[CtlID ctl := mkController (CtlID ctl) (CtlName ctl) (Some now2)]>
                (controllers db))
             (models db) (applications db) (machines db) (units db), [], e)
      | Some _ => (db, [], e)
      end
  | (db, None) =>
      if negb (SupportsModelSummaryWatcher sw) then (db, [], CodeNotSupported)
      else
        match watchAllModelSummariesError sw with
        | Some e => (db, [], e)
        | None =>
            match checkControllerModels db ctl [] with
            | (db, inr e) => (db, [], e)
            | (db, inl modelIDs) =>
                let '(pubs, c) :=
                  summaryLoop db ctl modelIDs (summaryBatches sw) (loopEnd sw) in
                (db, pubs, c)
            end
        end
  end.

End Publish.

End Summaries.

(** ** The older facades of [websocket.go] *)

Module Facade.
Import Errors JujuAPI.

(** *** The Admin facade *)

(** How [bakery.CheckAny] fails: with a [*bakery.VerificationError], or
    with another error. *)
Inductive CheckAnyError :=
| VerificationError (msg : string)
| CheckAnyFailed (e : error).

(** [jujuparams.CodeRedirect]. *)
Definition CodeRedirect : string := "redirection required".

(** [jujuparams.LoginResultV1]; [UserInfo] holds the display name and
    the identity. *)
Record LoginResultV1 := mkLoginResult {
  DischargeRequired : option string;
  DischargeRequiredReason : string;
  UserInfo : option (string * string);
  LoginModelTag : string;
  LoginControllerTag : string;
  Facades : list (string * list Z);
  ServerVersion : string
}.

(** [facadeVersions] over the keys of a facade table, in the order the
    [range] delivers them. *)
Definition facadeVersionsOf (keys : list (string * Z)) : list (string * list Z) :=
  let names := merge_sort (fun a b => String.leb a b) (remove_dups (keys.*1)) in
  (fun name =>
     (name, merge_sort Z.le ((filter (fun k => k.1 = name) keys).*2))) <$> names.

Definition facadeVersions : list (string * list Z) :=
  facadeVersionsOf ((map_to_list facades).*1).

(** [names.NewModelTag(uuid).String()]. *)
Definition modelTagString (uuid : string) : string := ("model-" ++ uuid)%string.

(** [jujuparams.RedirectInfoResult]. *)
Record RedirectInfoResult := mkRedirectInfo {
  Servers : list (list string);
  RedirectCACert : string
}.

Section Admin.

(** [jem.Bakery.CheckAny] (the attributes it returns), [jem.NewMacaroon],
    [jem.CheckCanRead] for the user logged in, and the identity
    [names.NewUserTag(u).WithDomain("external").String()]. *)
Variable CheckAny : list string -> gmap string string + CheckAnyError.
Variable NewMacaroon : string + error.
Variable CheckCanRead : string -> ModelDoc -> option error.
Variable userIdentity : string -> string.

(** The fields [HostPorts] and [CACert] of [mongodoc.Controller], and
    [network.ParseHostPorts] followed by [FromNetworkHostPorts]. *)
Variable HostPorts : ControllerDoc -> list string.
Variable CACert : ControllerDoc -> string.
Variable ParseHostPorts : list string -> list string + error.

(** [h.model.Id != h.controller.Id]; [None] is the nil dereference of a
    handler whose model or controller has not been set. *)
Definition isRedirected (h : wsHandler) : option bool :=
  match model h, controller h with
  | Some m, Some c => Some (negb (String.eqb (docId m) (ctlDocId c)))
  | _, _ => None
  end.

(** [admin.Login]; the handler is returned because [Login] records the
    user's name in it.  [None] stands for a panic. *)
Definition Login (h : wsHandler) (macaroons : list string)
  : option (wsHandler * (LoginResultV1 + error)) :=
  match (if String.eqb (modelUUID h) "" then Some false else isRedirected h) with
  | None => None
  | Some true => Some (h, inr (EJuju "redirection required" CodeRedirect))
  | Some false =>
      match CheckAny macaroons with
      | inr (VerificationError msg) =>
          match NewMacaroon with
          | inr e => Some (h, inr (EErrgo "cannot create macaroon" (Some e) None))
          | inl m => Some (h, inl (mkLoginResult (Some m) msg None "" "" [] ""))
          end
      | inr (CheckAnyFailed e) => Some (h, inr (EErrgo "" (Some e) None))
      | inl attr =>
          let name := default "" (attr !! "username") in
          let h := mkHandler (modelUUID h) (model h) (controller h) name in
          let result modelTag controllerTag :=
            mkLoginResult None "" (Some (name, userIdentity name))
              modelTag controllerTag facadeVersions "2.0.0" in
          if String.eqb (modelUUID h) "" then Some (h, inl (result "" ""))
          else
            match model h, controller h with
            | Some m, Some c =>
                match Mask (CheckCanRead name m) [Is ErrUnauthorized] with
                | Some e => Some (h, inr e)
                | None =>
                    Some (h, inl (result (modelTagString (docUUID m))
                                    (modelTagString (ctlDocUUID c))))
                end
            | _, _ => None
            end
      end
  end.

(** [admin.RedirectInfo]. *)
Definition RedirectInfo (h : wsHandler) : option (RedirectInfoResult + error) :=
  if String.eqb (modelUUID h) "" then Some (inr (New "not redirected"))
  else
    match model h, controller h with
    | Some m, Some c =>
        if String.eqb (docId m) (ctlDocId c) then Some (inr (New "not redirected"))
        else
          match ParseHostPorts (HostPorts c) with
          | inr e => Some (inr (EErrgo "" (Some e) None))
          | inl hps => Some (inl (mkRedirectInfo [hps] (CACert c)))
          end
    | _, _ => None
    end.

End Admin.

(** *** The ModelManager facade of [websocket.go] *)

(** [strings.HasSuffix]. *)
Definition HasSuffix (s suffix : string) : bool :=
  (String.length suffix <=? String.length s)%nat &&
  String.eqb
    (String.substring (String.length s - String.length suffix) (String.length suffix) s)
    suffix.

(** [jujuparams.ModelUserInfo] and [jujuparams.ModelInfo], with the
    fields the facade reads or rewrites. *)
Record ModelUserInfo := mkModelUserInfo {
  UserName : string;
  UserAccess : string
}.

Record ModelInfoV2 := mkModelInfoV2 {
  InfoUUID : string;
  InfoControllerUUID : string;
  Users : list ModelUserInfo;
  InfoRest : string
}.

(** [modelManager.massageModelInfo]; [ctlUUID] is
    [h.params.ControllerUUID]. *)
Definition massageModelInfo (ctlUUID : string) (mi : ModelInfoV2) : ModelInfoV2 :=
  mkModelInfoV2 (InfoUUID mi) ctlUUID
    (filter (fun u => HasSuffix (UserName u) "@local" = false) (Users mi))
    (InfoRest mi).

Section OldModelManager.

Variable ControllerUUID : string.
Variable ModelFromUUID : string -> ModelDoc + error.
Variable CheckCanRead : ModelDoc -> option error.
Variable ParseModelTag : string -> string + error.

(** [jem.OpenAPI] for the model's path, and the controller's answer to
    [client.ModelInfo] for one tag: the call fails, or its only result
    holds an error ([message], [code]) or the model's info. *)
Variable Conn : Type.
Variable OpenAPI : ModelDoc -> Conn + error.
Variable clientModelInfo : Conn -> string -> (ModelInfoV2 + string * string) + error.

(** [modelManager.modelInfo]. *)
Definition modelInfo (tag : string) : ModelInfoV2 + error :=
  match oldModelInfoLookup ModelFromUUID CheckCanRead ParseModelTag tag with
  | inr e => inr e
  | inl m =>
      match OpenAPI m with
      | inr e => inr (EErrgo "" (Some e) None)
      | inl conn =>
          match ParseModelTag tag with
          | inr e => inr (WithCausef (Some e) ErrBadRequest "")
          | inl u =>
              match clientModelInfo conn u with
              | inr e => inr (EErrgo "" (Some e) None)
              | inl (inr (msg, code)) => inr (EErrgo "" (Some (EJuju msg code)) None)
              | inl (inl mi) => inl (massageModelInfo ControllerUUID mi)
              end
          end
      end
  end.

(** [modelManager.ModelInfo]. *)
Definition OldModelInfo (args : list string) : list (Result (option ModelInfoV2)) :=
  map (fun tag =>
         match modelInfo tag with
         | inr e => mkResult None (mapError (Some e))
         | inl mi => mkResult (Some mi) None
         end) args.

End OldModelManager.

(** *** The Cloud facade *)

(** [mongodoc.Cloud] of a controller document, and [jujuparams.Cloud]. *)
Record CloudDoc := mkCloudDoc {
  ProviderType : string;
  AuthTypes : list string;
  Regions : list string
}.

Record CloudInfo := mkCloudInfo {
  CloudType : string;
  CloudAuthTypes : list string;
  CloudRegions : list string
}.

Section Cloud.

(** [names.ParseCloudTag] (giving the tag's id) and [jem.DoControllers]
    for a cloud and any region: the controllers the callback is called
    on, in order, and the error the iteration ends with, if any. *)
Variable ParseCloudTag : string -> string + error.
Variable DoControllers : string -> list CloudDoc * option error.

(** The callback of [cloud.cloud], on the [cloudInfo] it updates. *)
Definition cloudStep (info : CloudInfo) (cnt : CloudDoc) : CloudInfo :=
  mkCloudInfo (ProviderType cnt) (AuthTypes cnt) (CloudRegions info ++ Regions cnt).

(** [cloud.cloud]. *)
Definition cloudOf (cloudId : string) : CloudInfo + error :=
  let '(visited, err) := DoControllers cloudId in
  let cloudInfo := foldl cloudStep (mkCloudInfo "" [] []) visited in
  match err with
  | Some e => inr (EErrgo "" (Some e) None)
  | None =>
      if String.eqb (CloudType cloudInfo) "" then
        inr (WithCausef None ErrNotFound
               ("cloud " ++ quoted cloudId ++ " not available"))
      else inl cloudInfo
  end.

(** [cloud.Cloud]. *)
Definition Cloud (tags : list string) : list (Result (option CloudInfo)) :=
  map (fun tag =>
         match ParseCloudTag tag with
         | inr e => mkResult None (mapError (Some e))
         | inl cloudId =>
             match cloudOf cloudId with
             | inr e => mkResult None (mapError (Some e))
             | inl info => mkResult (Some info) None
             end
         end) tags.

End Cloud.

End Facade.

(** ** The ModelManager facade of [controllerRoot]: requests that name
    a credential *)

Module ControllerRoot.
Import Errors JujuAPI.

(** A parsed [names.CloudCredentialTag]: its cloud, owner and name. *)
Record CredentialTag := mkCredentialTag {
  tagCloud : string;
  tagOwner : string;
  tagName : string
}.

(** [params.CredentialPath]. *)
Record CredentialPath := mkCredentialPath {
  credCloud : string;
  credUser : string;
  credName : string
}.

(** [jem.CreateModelParams], as [createModel] fills it. *)
Record CreateModelParams := mkCreateModelParams {
  PathUser : string;
  PathName : string;
  Credential : CredentialPath;
  Cloud : string;
  Region : string;
  Attributes : string
}.

(** [jujuparams.ModelCreateArgs]. *)
Record ModelCreateArgs := mkModelCreateArgs {
  Name : string;
  OwnerTag : string;
  Config : string;
  CloudTag : string;
  CloudRegion : string;
  CloudCredentialTag : string
}.

(** [servermon.ModelsCreatedCount] and [servermon.ModelsCreatedFailCount]. *)
Record Counters := mkCounters {
  ModelsCreatedCount : nat;
  ModelsCreatedFailCount : nat
}.

Section CreateModel.

Variable J : Type.
Variable identity : Type.

(** [conv.ParseUserTag], [names.ParseCloudTag],
    [names.ParseCloudCredentialTag] and the mask predicate
    [errgo.Is(conv.ErrLocalUser)]. *)
Variable convParseUserTag : string -> string + error.
Variable ParseCloudTag : string -> string + error.
Variable ParseCloudCredentialTag : string -> CredentialTag + error.
Variable isErrLocalUser : error -> bool.

(** [jem.CreateModel], which fills in the [ModelInfo] it is given. *)
Variable jemCreateModel :
  J -> identity -> CreateModelParams -> ModelInfoDoc -> ModelInfoDoc * option error * J.

Variable controllerUUIDMasking : bool.
Variable ControllerUUID : string.

(** [controllerRoot.createModel]. *)
Definition createModel (j : J) (id : identity) (args : ModelCreateArgs)
    (info : ModelInfoDoc) : ModelInfoDoc * option error * J :=
  match convParseUserTag (OwnerTag args) with
  | inr e => (info, Mask (Some e) [Is ErrBadRequest; isErrLocalUser], j)
  | inl owner =>
      if String.eqb (CloudTag args) "" then
        (info, Some (New "no cloud specified for model; please specify one"), j)
      else
        match ParseCloudTag (CloudTag args) with
        | inr e => (info, Some (WithCausef (Some e) ErrBadRequest "invalid cloud tag"), j)
        | inl cloud =>
            let credPath :=
              if String.eqb (CloudCredentialTag args) "" then
                inl (mkCredentialPath "" "" "")
              else
                match ParseCloudCredentialTag (CloudCredentialTag args) with
                | inr e =>
                    inr (WithCausef (Some e) ErrBadRequest "invalid cloud credential tag")
                | inl tag => inl (mkCredentialPath (tagCloud tag) owner (tagName tag))
                end in
            match credPath with
            | inr e => (info, Some e, j)
            | inl credPath =>
                match jemCreateModel j id
                        (mkCreateModelParams owner (Name args) credPath cloud
                           (CloudRegion args) (Config args)) info with
                | (info, Some e, j) =>
                    (info,
                     Mask (Some e) [Is ErrBadRequest; Is ErrNotFound; Is ErrUnauthorized],
                     j)
                | (info, None, j) =>
                    (if controllerUUIDMasking then
                       mkModelInfoDoc (miUUID info) ControllerUUID (miPayload info)
                     else info, None, j)
                end
            end
        end
  end.

(** [controllerRoot.CreateModel]; the result starts from the zero
    [ModelInfo]. *)
Definition CreateModel (j : J) (id : identity) (args : ModelCreateArgs) (c : Counters)
  : ModelInfoDoc * option error * J * Counters :=
  let '(info, err, j) := createModel j id args (mkModelInfoDoc "" "" "") in
  let err :=
    Mask err [isErrLocalUser; Is ErrUnauthorized; Is ErrNotFound; Is ErrBadRequest] in
  match err with
  | None => (info, err, j, mkCounters (S (ModelsCreatedCount c)) (ModelsCreatedFailCount c))
  | Some _ =>
      (info, err, j, mkCounters (ModelsCreatedCount c) (S (ModelsCreatedFailCount c)))
  end.

End CreateModel.

(** [jujuparams.ChangeModelCredentialParams]. *)
Record ChangeModelCredentialParams := mkChangeModelCredentialParams {
  ChangeModelTag : string;
  ChangeCloudCredentialTag : string
}.

Section ChangeModelCredential.

Variable J : Type.
Variable identity : Type.

(** The model and credential documents, the controller of a model, and
    an open API connection. *)
Variable Model : Type.
Variable Cred : Type.
Variable Conn : Type.
Variable modelController : Model -> string.

Variable ParseModelTag : string -> string + error.
Variable ParseCloudCredentialTag : string -> CredentialTag + error.
Variable FromUserTag : string -> string + error.
Variable isErrLocalUser : error -> bool.

(** [jem.GetModel] (with the access asked for), [jem.OpenAPI],
    [jem.GetCredential] and [jem.UpdateModelCredential]. *)
Variable GetModel : J -> identity -> string -> string -> Model + error.
Variable OpenAPI : J -> string -> Conn + error.
Variable GetCredential : J -> identity -> CredentialPath -> Cred + error.
Variable UpdateModelCredential : J -> Conn -> Model -> Cred -> option error * J.

(** [controllerRoot.changeModelCredential]. *)
Definition changeModelCredential (id : identity) (j : J)
    (arg : ChangeModelCredentialParams) : option error * J :=
  match ParseModelTag (ChangeModelTag arg) with
  | inr e => (Some (WithCausef (Some e) ErrBadRequest ""), j)
  | inl u =>
      match GetModel j id "admin" u with
      | inr e =>
          (Mask (Some e) [Is ErrBadRequest; Is ErrUnauthorized; Is ErrNotFound], j)
      | inl model =>
          match OpenAPI j (modelController model) with
          | inr e => (Mask (Some e) [], j)
          | inl conn =>
              match ParseCloudCredentialTag (ChangeCloudCredentialTag arg) with
              | inr e =>
                  (Some (WithCausef (Some e) ErrBadRequest "invalid credential tag"), j)
              | inl credTag =>
                  match FromUserTag (tagOwner credTag) with
                  | inr e => (Mask (Some e) [isErrLocalUser], j)
                  | inl credUser =>
                      match GetCredential j id
                              (mkCredentialPath (tagCloud credTag) credUser
                                 (tagName credTag)) with
                      | inr e => (Mask (Some e) [Is ErrNotFound; Is ErrUnauthorized], j)
                      | inl cred =>
                          match UpdateModelCredential j conn model cred with
                          | (Some e, j) => (Mask (Some e) [], j)
                          | (None, j) => (None, j)
                          end
                      end
                  end
              end
          end
      end
  end.

(** [controllerRoot.ChangeModelCredential]. *)
Definition ChangeModelCredential (j : J) (id : identity)
    (args : list ChangeModelCredentialParams) : list (Result unit) * J :=
  forEach (fun j arg =>
             let '(err, j) := changeModelCredential id j arg in
             (mkResult tt (mapError err), j)) j args.

End ChangeModelCredential.

End ControllerRoot.

(** ** The monitor's dial-and-watch loop (package [monitor]) *)

Module MonitorLoop.
Import Monitor.

(** The causes the loop tells apart; [ErrMasked] is an error whose cause
    is none of the others, among them every error a mask has hidden the
    cause of. *)
Inductive cause :=
| ErrNotFound
| errControllerRemoved
| ErrLeaseUnavailable
| ErrAPIConnection
| ErrDying
| ErrMasked.

(** [isMonitoringStoppedError]. *)
Definition isMonitoringStoppedError (c : cause) : bool :=
  match c with
  | errControllerRemoved | ErrLeaseUnavailable => true
  | _ => false
  end.

(** [errgo.Is(jem.ErrAPIConnection)]. *)
Definition isErrAPIConnection (c : cause) : bool :=
  match c with
  | ErrAPIConnection => true
  | _ => false
  end.

(** [errgo.Mask] and [errgo.NoteMask] on causes. *)
Definition mask (pass : list (cause -> bool)) (c : cause) : cause :=
  if existsb (fun p => p c) pass then c else ErrMasked.

(** One round of the loop as the environment plays it: the clock at the
    top, what [OpenAPI] returns in the dialling goroutine (a connection
    or a cause), whether the tomb dies before the reply is taken,
    whether the three store updates fail, whether [watch] ends because
    the tomb is dying, and whether the tomb dies during the pause. *)
Record Round := mkRound {
  clockNow : Time;
  opened : nat + cause;
  dyingDuringDial : bool;
  setAvailableFails : bool;
  updateCredentialsFails : bool;
  watchDying : bool;
  setUnavailableFails : bool;
  dyingDuringSleep : bool
}.

(** What the loop and its dialling goroutine do to the world. *)
Inductive Effect :=
| Opened (conn : nat)
| SetControllerAvailable
| ControllerUpdateCredentials
| Watch (conn : nat)
| Close (conn : nat)
| Evict (conn : nat)
| SetControllerUnavailableAt (t : Time).

(** How [watcher] returns. *)
Inductive WatcherExit :=
| ReturnErrDying
| CannotSetAvailable
| CannotUpdateCredentials
| CannotSetUnavailable
| CannotDial (c : cause).

(** [dialAPI]: the connection or the cause it returns, and what the
    goroutine does: it opens the connection, and closes it again if the
    tomb is dying and nobody takes the reply. *)
Definition dialAPI (r : Round) : (nat + cause) * list Effect :=
  let openEffects :=
    match opened r with
    | inl conn => [Opened conn]
    | inr _ => []
    end in
  if dyingDuringDial r then
    (inr ErrDying,
     openEffects ++ match opened r with inl conn => [Close conn] | inr _ => [] end)
  else
    match opened r with
    | inl conn => (inl conn, openEffects)
    | inr e =>
        let e := match e with ErrNotFound => errControllerRemoved | _ => e end in
        (inr (mask [isMonitoringStoppedError; isErrAPIConnection] e), openEffects)
    end.

(** [watcher], over the rounds the environment has in store; [None]
    means the loop is still running when they are used up. *)
Fixpoint watcher (rounds : list Round) : option WatcherExit * list Effect :=
  match rounds with
  | [] => (None, [])
  | r :: rest =>
      let dialStartTime := clockNow r in
      let '(reply, dialEffects) := dialAPI r in
      let pause (effects : list Effect) :=
        if dyingDuringSleep r then (Some ReturnErrDying, effects)
        else let '(exit, later) := watcher rest in (exit, effects ++ later) in
      match reply with
      | inl conn =>
          if setAvailableFails r then
            (Some CannotSetAvailable, dialEffects ++ [SetControllerAvailable])
          else if updateCredentialsFails r then
            (Some CannotUpdateCredentials,
             dialEffects ++ [SetControllerAvailable; ControllerUpdateCredentials])
          else if watchDying r then
            (Some ReturnErrDying,
             dialEffects ++ [SetControllerAvailable; ControllerUpdateCredentials;
                             Watch conn; Close conn])
          else
            pause (dialEffects ++ [SetControllerAvailable; ControllerUpdateCredentials;
                                   Watch conn; Evict conn])
      | inr ErrDying => (Some ReturnErrDying, dialEffects)
      | inr ErrAPIConnection =>
          if setUnavailableFails r then
            (Some CannotSetUnavailable,
             dialEffects ++ [SetControllerUnavailableAt dialStartTime])
          else pause (dialEffects ++ [SetControllerUnavailableAt dialStartTime])
      | inr e => (Some (CannotDial (mask [isMonitoringStoppedError] e)), dialEffects)
      end
  end.

End MonitorLoop.

(** * Proofs *)

Module GoIntFacts.
Import GoInt.

Lemma wrap64_id x : inRange x -> wrap64 x = x.
Proof.
  unfold inRange, minInt64, maxInt64, wrap64. intros H.
  rewrite Z.mod_small; lia.
Qed.

Lemma wrap64_range x : inRange (wrap64 x).
Proof.
  unfold inRange, minInt64, maxInt64, wrap64.
  pose proof (Z.mod_pos_bound (x + 2 ^ 63) (2 ^ 64) ltac:(lia)). lia.
Qed.

Lemma wrap64_add_l x y : wrap64 (wrap64 x + y) = wrap64 (x + y).
Proof.
  unfold wrap64.
  replace ((x + 2 ^ 63) mod 2 ^ 64 - 2 ^ 63 + y + 2 ^ 63)
    with ((x + 2 ^ 63) mod 2 ^ 64 + y) by lia.
  rewrite Zplus_mod_idemp_l. f_equal. f_equal. lia.
Qed.

End GoIntFacts.

Module MonitorFacts.
Import GoInt GoIntFacts Monitor.

Definition d_model (u l : string) := mkDelta false (ModelInfo u l).
Definition d_unit (u n : string) := mkDelta false (UnitInfo u n).
Definition d_rm_unit (u n : string) := mkDelta true (UnitInfo u n).

Example reduce_small :
  stats (addDeltas newWatcherState
           [d_unit "m1" "a/0"; d_unit "m1" "a/0"; d_model "m1" "alive";
            d_unit "m1" "a/1"; d_rm_unit "m1" "a/0"; d_rm_unit "m1" "a/7"])
  = mkStats 1 1 0 0.
Proof. vm_compute. reflexivity. Qed.

Example batch_small :
  snd (watchBatch newWatcherState [d_rm_unit "m1" "a/0"]) =
    [SetModelLife "m1" ""; UpdateModelCounts "m1" (<[paramsUnitCount := 0]>
             (<[paramsMachineCount := 0]>
                (<[paramsApplicationCount := 0]> ∅)))].
Proof. vm_compute. reflexivity. Qed.

(** **** The delta reducer keeps the statistics exact *)

Definition tracked (id : EntityId) : Prop :=
  exists f, Kind id = statKind f.

Lemma statKind_inj f g : statKind f = statKind g -> f = g.
Proof. destruct f, g; simpl; intros H; try reflexivity; discriminate H. Qed.

Lemma counterOf_kind e f :
  Kind (entityId e) = statKind f <-> counterOf e = Some f.
Proof.
  destruct e as [u l|u n|u n|u i|k u i], f; simpl; split; intros H;
    try reflexivity; try discriminate H; destruct k; discriminate H.
Qed.

Lemma counterOf_None e : counterOf e = None -> ~ tracked (entityId e).
Proof.
  intros H [f Hf]. apply counterOf_kind in Hf. congruence.
Qed.

Lemma liveIn_snoc ds d id :
  liveIn (ds ++ [d]) id <->
  (entityId (Entity d) = id /\ Removed d = false) \/
  (entityId (Entity d) <> id /\ liveIn ds id).
Proof.
  split.
  - intros (i & d0 & Hi & Hid & Hrm & Hlater).
    destruct (decide (entityId (Entity d) = id)) as [Heq|Hne].
    + left. split; [exact Heq|].
      destruct (decide (i = length ds)) as [->|Hil].
      * rewrite lookup_app_r in Hi by lia.
        replace (length ds - length ds)%nat with 0%nat in Hi by lia.
        simpl in Hi. congruence.
      * assert (i < length ds)%nat as Hlt.
        { apply lookup_lt_Some in Hi. rewrite length_app in Hi. simpl in Hi. lia. }
        apply (Hlater (length ds) d); [lia| |exact Heq].
        rewrite lookup_app_r by lia.
        replace (length ds - length ds)%nat with 0%nat by lia. reflexivity.
    + right. split; [exact Hne|].
      assert (i < length ds)%nat as Hlt.
      { destruct (decide (i < length ds)%nat) as [?|Hge]; [assumption|].
        exfalso. rewrite lookup_app_r in Hi by lia.
        destruct (i - length ds)%nat eqn:E; simpl in Hi; [|discriminate Hi].
        congruence. }
      exists i, d0. rewrite lookup_app_l in Hi by exact Hlt.
      repeat split; try assumption.
      intros j d' Hij Hj Hid'. apply (Hlater j d' Hij); [|exact Hid'].
      rewrite lookup_app_l by (apply lookup_lt_Some in Hj; exact Hj). exact Hj.
  - intros [[Heq Hrm]|[Hne (i & d0 & Hi & Hid & Hrm & Hlater)]].
    + exists (length ds), d. repeat split; try assumption.
      * rewrite lookup_app_r by lia.
        replace (length ds - length ds)%nat with 0%nat by lia. reflexivity.
      * intros j d' Hij Hj _. apply lookup_lt_Some in Hj.
        rewrite length_app in Hj. simpl in Hj. lia.
    + exists i, d0. repeat split; try assumption.
      * rewrite lookup_app_l by (apply lookup_lt_Some in Hi; exact Hi). exact Hi.
      * intros j d' Hij Hj Hid'.
        destruct (decide (j < length ds)%nat) as [Hlt|Hge].
        -- rewrite lookup_app_l in Hj by exact Hlt. eauto.
        -- rewrite lookup_app_r in Hj by lia.
           destruct (j - length ds)%nat eqn:E; simpl in Hj; [|discriminate Hj].
           congruence.
Qed.

Lemma liveIn_nil id : ~ liveIn [] id.
Proof. intros (i & d & Hi & _). rewrite lookup_nil in Hi. discriminate Hi. Qed.

(** What [addDelta] does to the known-entity set and the statistics is
    what [adjustCount] does, on the counter of the entity's type. *)
Lemma addDelta_counted w d f :
  counterOf (Entity d) = Some f ->
  entities (addDelta w d) = entities (adjustCount w f d).1 /\
  stats (addDelta w d) = stats (adjustCount w f d).1.
Proof.
  intros Hf. unfold addDelta.
  destruct (Entity d) as [u l|u n|u n|u i|k u i] eqn:He; simpl in Hf;
    try discriminate Hf; injection Hf as <-;
    destruct (adjustCount w _ d) as [w1 diff] eqn:Hadj; simpl;
    unfold getModelInfo; destruct (models w1 !! u); simpl; split; reflexivity.
Qed.

Lemma addDelta_uncounted w d :
  counterOf (Entity d) = None -> addDelta w d = w.
Proof.
  intros Hf. unfold addDelta.
  destruct (Entity d); simpl in Hf; try discriminate Hf. reflexivity.
Qed.

Lemma getStat_setStat f g v s :
  getStat g (setStat f v s) = if decide (g = f) then v else getStat g s.
Proof. destruct f, g, s; reflexivity. Qed.

(** The three things [adjustCount] can do. *)
Lemma adjustCount_cases w f d :
  let id := entityId (Entity d) in
  let w' := (adjustCount w f d).1 in
  (Removed d = true /\ entitiesLookup w id = true /\
   entities w' = delete id (entities w) /\
   stats w' = setStat f (add64 (getStat f (stats w)) (-1)) (stats w)) \/
  (Removed d = false /\ entitiesLookup w id = false /\
   entities w' = <[id := true]> (entities w) /\
   stats w' = setStat f (add64 (getStat f (stats w)) 1) (stats w)) \/
  (Removed d = negb (entitiesLookup w id) /\
   entities w' = entities w /\ stats w' = stats w).
Proof.
  intros id w'. subst id w'. unfold adjustCount.
  destruct (Removed d), (entitiesLookup w (entityId (Entity d))); simpl; auto 10.
Qed.

Lemma adjustCount_lookup w f d id' :
  entitiesLookup (adjustCount w f d).1 id' =
  if decide (id' = entityId (Entity d)) then negb (Removed d)
  else entitiesLookup w id'.
Proof.
  destruct (adjustCount_cases w f d) as
    [(Hr & Hl & He & _)|[(Hr & Hl & He & _)|(Hr & He & _)]];
    unfold entitiesLookup in *; rewrite He; case_decide as Hid; subst;
    rewrite ?lookup_delete_eq, ?lookup_delete_ne, ?lookup_insert_eq,
      ?lookup_insert_ne by congruence; rewrite ?Hr; simpl; try reflexivity.
  destruct (default false _); reflexivity.
Qed.

Record Inv (ds : list Delta) (w : watcherState) : Prop := mkInv {
  inv_live : forall id,
    entitiesLookup w id = true <-> liveIn ds id /\ tracked id;
  inv_dom : forall id, id ∈ dom (entities w) -> entitiesLookup w id = true;
  inv_stat : forall f,
    getStat f (stats w) = wrap64 (Z.of_nat (size (kindSet f w)));
  inv_size : (size (dom (entities w)) <= length ds)%nat
}.

Lemma lookup_true_dom w id : entitiesLookup w id = true -> id ∈ dom (entities w).
Proof.
  unfold entitiesLookup. intros H. apply elem_of_dom.
  destruct (entities w !! id); [eauto|discriminate H].
Qed.

Lemma Inv_init : Inv [] newWatcherState.
Proof.
  split.
  - intros id. split; [discriminate|]. intros [H _]. by apply liveIn_nil in H.
  - intros id. simpl. rewrite dom_empty_L. set_solver.
  - intros f. unfold kindSet. simpl. rewrite dom_empty_L.
    replace (filter (fun id : EntityId => Kind id = statKind f) (∅ : gset EntityId))
      with (∅ : gset EntityId) by set_solver.
    rewrite size_empty. destruct f; reflexivity.
  - simpl. rewrite dom_empty_L, size_empty. lia.
Qed.

Lemma kindSet_insert f g w id (m' : gmap EntityId bool) :
  Kind id = statKind f -> id ∉ dom (entities w) ->
  dom m' = {[id]} ∪ dom (entities w) ->
  size (filter (fun i => Kind i = statKind g) (dom m')) =
  if decide (g = f) then S (size (kindSet g w)) else size (kindSet g w).
Proof.
  intros Hk Hni ->. unfold kindSet.
  set (X := dom (entities w)) in *.
  case_decide as Hg.
  - subst g.
    assert (filter (fun i => Kind i = statKind f) ({[id]} ∪ X) =
            {[id]} ∪ filter (fun i => Kind i = statKind f) X) as -> by set_solver.
    rewrite size_union by set_solver. rewrite size_singleton. reflexivity.
  - f_equal. apply set_eq. intros i. rewrite !elem_of_filter.
    rewrite elem_of_union, elem_of_singleton.
    split; [|tauto]. intros [Hi [->|Hx]]; [|tauto].
    exfalso. apply Hg, statKind_inj. congruence.
Qed.

Lemma kindSet_delete f g w id (m' : gmap EntityId bool) :
  Kind id = statKind f -> id ∈ dom (entities w) ->
  dom m' = dom (entities w) ∖ {[id]} ->
  size (filter (fun i => Kind i = statKind g) (dom m')) =
  if decide (g = f) then pred (size (kindSet g w)) else size (kindSet g w).
Proof.
  intros Hk Hin ->. unfold kindSet.
  set (X := dom (entities w)) in *.
  case_decide as Hg.
  - subst g.
    assert (filter (fun i => Kind i = statKind f) (X ∖ {[id]}) =
            filter (fun i => Kind i = statKind f) X ∖ {[id]}) as -> by set_solver.
    rewrite size_difference by set_solver. rewrite size_singleton. lia.
  - f_equal. apply set_eq. intros i. rewrite !elem_of_filter.
    rewrite elem_of_difference, elem_of_singleton.
    split; [tauto|]. intros [Hi Hx]. repeat split; try assumption.
    intros ->. apply Hg, statKind_inj. congruence.
Qed.

Lemma Inv_tracked_live ds d id :
  (if decide (id = entityId (Entity d)) then negb (Removed d) = true /\ tracked id
   else liveIn ds id /\ tracked id) <->
  liveIn (ds ++ [d]) id /\ tracked id.
Proof.
  rewrite liveIn_snoc. case_decide as Hid.
  - subst id. destruct (Removed d); simpl; split.
    + intros [? _]; discriminate.
    + intros [[[_ ?]|[? _]] _]; [discriminate|congruence].
    + intros [_ ?]. auto.
    + intros [_ ?]. auto.
  - split.
    + intros [? ?]. split; [right; split; [congruence|assumption]|assumption].
    + intros [[[? _]|[_ ?]] ?]; [congruence|auto].
Qed.

Lemma Inv_step ds w d : Inv ds w -> Inv (ds ++ [d]) (addDelta w d).
Proof.
  intros [Hlive Hdom Hstat Hsize].
  destruct (counterOf (Entity d)) as [f|] eqn:Hf.
  - (* a counted entity *)
    pose proof (proj2 (counterOf_kind _ _) Hf) as Hk.
    destruct (addDelta_counted w d f Hf) as [He Hs].
    set (id := entityId (Entity d)) in *.
    assert (forall id', entitiesLookup (addDelta w d) id' =
                        entitiesLookup (adjustCount w f d).1 id') as Hlk.
    { intros id'. unfold entitiesLookup. by rewrite He. }
    split.
    + intros id'. rewrite Hlk, adjustCount_lookup, <- Inv_tracked_live.
      fold id. case_decide as Hid.
      * subst id'. split; [|tauto]. intros ?. split; [assumption|by exists f].
      * apply Hlive.
    + intros id' Hin. rewrite Hlk, adjustCount_lookup. fold id.
      rewrite He in Hin.
      destruct (adjustCount_cases w f d) as
        [(Hr & Hl & He' & _)|[(Hr & Hl & He' & _)|(Hr & He' & _)]];
        fold id in Hl, He' || fold id in He'; rewrite He' in Hin;
        case_decide as Hid; subst.
      * rewrite dom_delete_L in Hin. set_solver.
      * apply Hdom. rewrite dom_delete_L in Hin. set_solver.
      * by rewrite Hr.
      * apply Hdom. rewrite dom_insert_L in Hin. set_solver.
      * rewrite Hr, Bool.negb_involutive. apply Hdom, Hin.
      * by apply Hdom.
    + intros g. rewrite Hs. unfold kindSet at 1. rewrite He.
      destruct (adjustCount_cases w f d) as
        [(Hr & Hl & He' & Hs')|[(Hr & Hl & He' & Hs')|(Hr & He' & Hs')]];
        fold id in Hl, He' || fold id in He'; rewrite He', Hs'.
      * apply lookup_true_dom in Hl.
        rewrite (kindSet_delete f g w id _ Hk Hl (dom_delete_L _ _)).
        rewrite getStat_setStat. case_decide; [subst g|apply Hstat].
        rewrite Hstat. unfold add64. rewrite wrap64_add_l. f_equal.
        assert (size (kindSet f w) <> 0%nat).
        { apply size_non_empty_iff. unfold kindSet. set_solver. }
        lia.
      * assert (id ∉ dom (entities w)) as Hni.
        { intros Hin. apply Hdom in Hin. congruence. }
        rewrite (kindSet_insert f g w id _ Hk Hni (dom_insert_L _ _ _)).
        rewrite getStat_setStat. case_decide; [subst g|apply Hstat].
        rewrite Hstat. unfold add64. rewrite wrap64_add_l. f_equal. lia.
      * apply Hstat.
    + rewrite He, length_app. simpl.
      destruct (adjustCount_cases w f d) as
        [(Hr & Hl & He' & _)|[(Hr & Hl & He' & _)|(Hr & He' & _)]];
        fold id in Hl, He' || fold id in He'; rewrite He'.
      * rewrite dom_delete_L.
        pose proof (subseteq_size (dom (entities w) ∖ {[id]}) (dom (entities w))
                      ltac:(set_solver)). lia.
      * rewrite dom_insert_L.
        pose proof (size_union_alt {[id]} (dom (entities w))) as Hu.
        pose proof (subseteq_size (dom (entities w) ∖ {[id]}) (dom (entities w))
                      ltac:(set_solver)).
        rewrite size_singleton in Hu. lia.
      * lia.
  - (* an entity the monitor does not count *)
    rewrite (addDelta_uncounted w d Hf).
    pose proof (counterOf_None _ Hf) as Hnt.
    split; try assumption.
    + intros id'. rewrite Hlive, <- Inv_tracked_live.
      case_decide as Hid; [subst id'; tauto|reflexivity].
    + rewrite length_app. simpl. lia.
Qed.

Lemma Inv_addDeltas ds : Inv ds (addDeltas newWatcherState ds).
Proof.
  induction ds as [|d ds IH] using rev_ind.
  - apply Inv_init.
  - unfold addDeltas. rewrite foldl_app. simpl. by apply Inv_step.
Qed.

Lemma addDelta_known_removed_noop w d :
  Removed d = negb (entitiesLookup w (entityId (Entity d))) ->
  stats (addDelta w d) = stats w /\ entities (addDelta w d) = entities w.
Proof.
  intros Hr. destruct (counterOf (Entity d)) as [f|] eqn:Hf.
  - destruct (addDelta_counted w d f Hf) as [-> ->].
    unfold adjustCount. rewrite Hr.
    destruct (entitiesLookup w _); simpl; split; reflexivity.
  - rewrite (addDelta_uncounted w d Hf). split; reflexivity.
Qed.

(** The statistics and the known-entity set after a run of batches are
    those of the reducer over the concatenated stream: the flush only
    resets the change flags. *)
Lemma addDelta_core w1 w2 d :
  entities w1 = entities w2 -> stats w1 = stats w2 ->
  entities (addDelta w1 d) = entities (addDelta w2 d) /\
  stats (addDelta w1 d) = stats (addDelta w2 d).
Proof.
  intros He Hs. destruct (counterOf (Entity d)) as [f|] eqn:Hf.
  - destruct (addDelta_counted w1 d f Hf) as [-> ->].
    destruct (addDelta_counted w2 d f Hf) as [-> ->].
    unfold adjustCount, entitiesLookup. rewrite He, Hs.
    destruct (Removed d), (default false _); simpl; split; reflexivity.
  - rewrite !(addDelta_uncounted _ d Hf). split; assumption.
Qed.

Lemma addDeltas_core ds : forall w1 w2,
  entities w1 = entities w2 -> stats w1 = stats w2 ->
  entities (addDeltas w1 ds) = entities (addDeltas w2 ds) /\
  stats (addDeltas w1 ds) = stats (addDeltas w2 ds).
Proof.
  induction ds as [|d ds IH]; intros w1 w2 He Hs; simpl; [split; assumption|].
  destruct (addDelta_core w1 w2 d He Hs) as [He' Hs']. by apply IH.
Qed.

Lemma watchBatches_reduce bs : forall w,
  entities (watchBatches w bs).1 = entities (addDeltas w (concat bs)) /\
  stats (watchBatches w bs).1 = stats (addDeltas w (concat bs)).
Proof.
  induction bs as [|b bs IH]; intros w; [split; reflexivity|].
  change (watchBatches w (b :: bs)) with
    (let '(w1, ops1) := watchBatch w b in
     let '(w2, ops2) := watchBatches w1 bs in (w2, ops1 ++ ops2)).
  assert (entities (watchBatch w b).1 = entities (addDeltas w b) /\
          stats (watchBatch w b).1 = stats (addDeltas w b)) as [He Hs].
  { unfold watchBatch. cbn [fst entities stats].
    apply addDeltas_core; reflexivity. }
  destruct (watchBatch w b) as [w1 ops1].
  specialize (IH w1). destruct (watchBatches w1 bs) as [w2 ops2].
  cbn [fst] in *. destruct IH as [-> ->].
  change (concat (b :: bs)) with (b ++ concat bs).
  unfold addDeltas at 2 4. rewrite foldl_app. fold (addDeltas w b).
  fold (addDeltas (addDeltas w b) (concat bs)).
  by apply addDeltas_core.
Qed.

(** C1. After the delta reducer has consumed any prefix of a stream
    (of fewer than 2^63 deltas, so that Go's [int] counters cannot wrap),
    each statistics counter equals the number of distinct entity IDs of
    its kind that appeared in a non-removed delta of the prefix and were
    not removed later in it.  A removed delta for an ID that is not in
    the known-entity set leaves all counters unchanged, and so does a
    repeated non-removed delta for an ID that is already known. *)
Theorem stats_count_live_entities (ds : list Delta) (n : nat) (f : StatField) :
  Z.of_nat (length ds) <= maxInt64 ->
  let w := addDeltas newWatcherState (take n ds) in
  (exists S : gset EntityId,
      (forall id, id ∈ S <-> Kind id = statKind f /\ liveIn (take n ds) id) /\
      getStat f (stats w) = Z.of_nat (size S)) /\
  (forall d, Removed d = true ->
             entitiesLookup w (entityId (Entity d)) = false ->
             stats (addDelta w d) = stats w) /\
  (forall d, Removed d = false ->
             entitiesLookup w (entityId (Entity d)) = true ->
             stats (addDelta w d) = stats w).
Proof.
  intros Hlen w. subst w.
  destruct (Inv_addDeltas (take n ds)) as [Hlive Hdom Hstat Hsize].
  set (w := addDeltas newWatcherState (take n ds)) in *.
  split; [|split].
  - exists (kindSet f w). split.
    + intros id. unfold kindSet. rewrite elem_of_filter. split.
      * intros [Hk Hin]. split; [exact Hk|].
        apply Hdom in Hin. apply Hlive in Hin. tauto.
      * intros [Hk Hl]. split; [exact Hk|].
        apply lookup_true_dom, Hlive. split; [exact Hl|by exists f].
    + rewrite Hstat. apply wrap64_id.
      assert (size (kindSet f w) <= size (dom (entities w)))%nat as Hle.
      { apply subseteq_size. unfold kindSet. set_solver. }
      rewrite length_take in Hsize.
      unfold inRange, minInt64, maxInt64 in *. lia.
  - intros d Hr Hl. apply addDelta_known_removed_noop. by rewrite Hr, Hl.
  - intros d Hr Hl. apply addDelta_known_removed_noop. by rewrite Hr, Hl.
Qed.

Definition stream0 : list Delta :=
  [d_unit "m1" "a/0"; d_unit "m1" "a/0"; d_model "m1" "alive";
   d_unit "m1" "a/1"; d_rm_unit "m1" "a/0"; d_rm_unit "m1" "a/7"].

Lemma stats_count_live_entities_witness :
  Z.of_nat (length stream0) <= maxInt64 /\
  exists S : gset EntityId,
    (forall id, id ∈ S <-> Kind id = statKind FUnitCount /\ liveIn (take 5 stream0) id) /\
    getStat FUnitCount (stats (addDeltas newWatcherState (take 5 stream0))) =
    Z.of_nat (size S).
Proof.
  assert (Z.of_nat (length stream0) <= maxInt64) as H by (vm_compute; discriminate).
  split; [exact H|].
  exact (proj1 (stats_count_live_entities stream0 5 FUnitCount H)).
Defined.

(** **** New model entries are flushed in full *)

(** The entry of [u] exists and has both change bits set. *)
Definition bothSet (w : watcherState) (u : string) : Prop :=
  exists info, models w !! u = Some info /\
               Z.land (changed info) lifeChange <> 0 /\
               Z.land (changed info) countsChange <> 0.

Lemma land_lor_keep c x b : Z.land c b <> 0 -> Z.land (Z.lor c x) b <> 0.
Proof.
  intros H. rewrite Z.land_lor_distr_l. rewrite Z.lor_eq_0_iff. tauto.
Qed.

Lemma setLife_keeps info l b :
  Z.land (changed info) b <> 0 -> Z.land (changed (setLife info l)) b <> 0.
Proof.
  unfold setLife. destruct (String.eqb l (life info)); simpl; [tauto|].
  apply land_lor_keep.
Qed.

Lemma infoAdjustCount_keeps info k n b :
  Z.land (changed info) b <> 0 -> Z.land (changed (infoAdjustCount info k n)) b <> 0.
Proof.
  unfold infoAdjustCount. destruct (Z.eqb n 0); simpl; [tauto|].
  apply land_lor_keep.
Qed.

Lemma adjustCount_models w f d : models (adjustCount w f d).1 = models w.
Proof.
  unfold adjustCount.
  destruct (Removed d), (entitiesLookup w _); reflexivity.
Qed.

(** The shape of [addDelta] on the per-model map: the entry of the
    delta's model is fetched (or created) and written back through an
    update that only ever adds change bits. *)
Definition freshModelInfo (u : string) : modelInfo := (getModelInfo newWatcherState u).2.

Lemma getModelInfo_spec w u :
  (getModelInfo w u).2 = default (freshModelInfo u) (models w !! u) /\
  models (getModelInfo w u).1 !! u = Some (getModelInfo w u).2 /\
  forall x, <[u := x]> (models (getModelInfo w u).1) = <[u := x]> (models w).
Proof.
  unfold getModelInfo. destruct (models w !! u) eqn:E; simpl.
  - auto.
  - rewrite lookup_insert_eq. repeat split; try reflexivity.
    intros x. apply insert_insert_eq.
Qed.

Lemma addDelta_models w d :
  match counterOf (Entity d) with
  | None => models (addDelta w d) = models w
  | Some _ =>
      exists upd : modelInfo -> modelInfo,
        (forall info b, Z.land (changed info) b <> 0 ->
                        Z.land (changed (upd info)) b <> 0) /\
        let u := ModelUUID (entityId (Entity d)) in
        models (addDelta w d) =
        <[u := upd (default (freshModelInfo u) (models w !! u))]> (models w)
  end.
Proof.
  unfold addDelta.
  destruct (Entity d) as [u l|u n|u n|u i|k u i] eqn:He; cbn [counterOf];
    [| | | |reflexivity].
  - exists (fun info => setLife info (if Removed d then "dead" else l)).
    split; [intros; by apply setLife_keeps|].
    pose proof (adjustCount_models w FModelCount d) as Hm.
    destruct (adjustCount w FModelCount d) as [w1 diff]. cbn [fst] in Hm.
    destruct (getModelInfo_spec w1 u) as (H1 & _ & H3).
    destruct (getModelInfo w1 u) as [w2 info]. cbn [fst snd entityId ModelUUID] in *.
    unfold putModelInfo. cbn [models]. rewrite H3, H1, Hm. reflexivity.
  - pose proof (adjustCount_models w FUnitCount d) as Hm.
    destruct (adjustCount w FUnitCount d) as [w1 diff]. cbn [fst] in Hm.
    exists (fun info => infoAdjustCount info paramsUnitCount diff).
    split; [intros; by apply infoAdjustCount_keeps|].
    destruct (getModelInfo_spec w1 u) as (H1 & _ & H3).
    destruct (getModelInfo w1 u) as [w2 info]. cbn [fst snd entityId ModelUUID] in *.
    unfold putModelInfo. cbn [models]. rewrite H3, H1, Hm. reflexivity.
  - pose proof (adjustCount_models w FServiceCount d) as Hm.
    destruct (adjustCount w FServiceCount d) as [w1 diff]. cbn [fst] in Hm.
    exists (fun info => infoAdjustCount info paramsApplicationCount diff).
    split; [intros; by apply infoAdjustCount_keeps|].
    destruct (getModelInfo_spec w1 u) as (H1 & _ & H3).
    destruct (getModelInfo w1 u) as [w2 info]. cbn [fst snd entityId ModelUUID] in *.
    unfold putModelInfo. cbn [models]. rewrite H3, H1, Hm. reflexivity.
  - pose proof (adjustCount_models w FMachineCount d) as Hm.
    destruct (adjustCount w FMachineCount d) as [w1 diff]. cbn [fst] in Hm.
    exists (fun info => infoAdjustCount info paramsMachineCount diff).
    split; [intros; by apply infoAdjustCount_keeps|].
    destruct (getModelInfo_spec w1 u) as (H1 & _ & H3).
    destruct (getModelInfo w1 u) as [w2 info]. cbn [fst snd entityId ModelUUID] in *.
    unfold runnerDo, putModelInfo. cbn [models]. rewrite H3, H1, Hm. reflexivity.
Qed.

Lemma freshModelInfo_bits u b : b <> 0 -> Z.land (changed (freshModelInfo u)) b <> 0.
Proof.
  intros Hb. unfold freshModelInfo, getModelInfo. simpl.
  change (Z.lnot 0) with (-1). by rewrite Z.land_m1_l.
Qed.

Lemma addDelta_bothSet_keep w d u : bothSet w u -> bothSet (addDelta w d) u.
Proof.
  intros (info & Hi & Hl & Hc).
  pose proof (addDelta_models w d) as Hm.
  destruct (counterOf (Entity d)) as [f|].
  - destruct Hm as (upd & Hupd & Hm). cbn zeta in Hm. unfold bothSet. rewrite Hm.
    destruct (decide (ModelUUID (entityId (Entity d)) = u)) as [Hu|Hu].
    + rewrite Hu, lookup_insert_eq, Hi. simpl. eexists. split; [reflexivity|]. split; by apply Hupd.
    + rewrite lookup_insert_ne by exact Hu. eauto.
  - unfold bothSet. rewrite Hm. eauto.
Qed.

Lemma addDelta_bothSet_new w d u :
  counterOf (Entity d) <> None -> ModelUUID (entityId (Entity d)) = u ->
  models w !! u = None -> bothSet (addDelta w d) u.
Proof.
  intros Hf Hu Hn.
  pose proof (addDelta_models w d) as Hm.
  destruct (counterOf (Entity d)) as [f|]; [|congruence].
  destruct Hm as (upd & Hupd & Hm). cbn zeta in Hm. unfold bothSet. rewrite Hm, Hu.
  rewrite lookup_insert_eq, Hn. simpl. eexists. split; [reflexivity|].
  split; apply Hupd, freshModelInfo_bits; discriminate.
Qed.

Lemma addDeltas_bothSet ds : forall w d u,
  d ∈ ds -> counterOf (Entity d) <> None -> ModelUUID (entityId (Entity d)) = u ->
  models w !! u = None \/ bothSet w u ->
  bothSet (addDeltas w ds) u.
Proof.
  assert (forall ds w u, bothSet w u -> bothSet (addDeltas w ds) u) as Hkeep.
  { clear. induction ds as [|d ds IH]; intros w u H; simpl; [exact H|].
    by apply IH, addDelta_bothSet_keep. }
  induction ds as [|d0 ds IH]; intros w d u Hin Hf Hu Hw.
  - by apply elem_of_nil in Hin.
  - simpl. destruct Hw as [Hn|Hb]; [|by apply Hkeep, addDelta_bothSet_keep].
    apply elem_of_cons in Hin as [<-|Hin].
    + by apply Hkeep, addDelta_bothSet_new.
    + apply (IH _ d u Hin Hf Hu).
      pose proof (addDelta_models w d0) as Hm.
      destruct (counterOf (Entity d0)) as [f|] eqn:Hf0.
      * destruct (decide (ModelUUID (entityId (Entity d0)) = u)) as [Hu0|Hu0].
        -- right. apply addDelta_bothSet_new; [congruence|assumption..].
        -- left. destruct Hm as (upd & _ & Hm). cbn zeta in Hm.
           rewrite Hm, lookup_insert_ne by exact Hu0. exact Hn.
      * left. by rewrite Hm.
Qed.

Lemma flushModel_bothSet u info :
  Z.land (changed info) lifeChange <> 0 ->
  Z.land (changed info) countsChange <> 0 ->
  flushModel u info = [SetModelLife u (life info); UpdateModelCounts u (counts info)].
Proof.
  intros Hl Hc. unfold flushModel.
  destruct (Z.eqb_spec (Z.land (changed info) lifeChange) 0); [contradiction|].
  destruct (Z.eqb_spec (Z.land (changed info) countsChange) 0); [contradiction|].
  reflexivity.
Qed.

Lemma watchBatch_flushes w ds u info :
  let w0 := mkWatcherState [] (entities w) false (stats w) (models w) in
  models (addDeltas w0 ds) !! u = Some info ->
  forall op, op ∈ flushModel u info -> op ∈ (watchBatch w ds).2.
Proof.
  intros w0 Hi op Hop. unfold watchBatch. fold w0. cbn [snd].
  apply elem_of_app. right. apply elem_of_app. right.
  apply list_elem_of_In, in_concat. exists (flushModel u info).
  split; [|by apply list_elem_of_In].
  apply in_map_iff. exists (u, info). split; [reflexivity|].
  by apply list_elem_of_In, elem_of_map_to_list.
Qed.

(** C10. When the reducer first meets a model UUID, through a delta of
    any counted kind, the entry it creates has every change bit set and
    all three counts zero; the flush that ends the batch therefore issues
    both a model-life and a model-counts update for that model, whatever
    the deltas of the batch did to its life and counts, and leaves the
    entry with a cleared mask. *)
Theorem new_model_entry_flushed (w : watcherState) (ds : list Delta) (d : Delta) (u : string) :
  models w !! u = None ->
  d ∈ ds ->
  counterOf (Entity d) <> None ->
  ModelUUID (entityId (Entity d)) = u ->
  (let created := getModelInfo w u in
   models created.1 !! u = Some created.2 /\
   (forall n, 0 <= n -> Z.testbit (changed created.2) n = true) /\
   counts created.2 =
     <[paramsUnitCount := 0]>
       (<[paramsMachineCount := 0]> (<[paramsApplicationCount := 0]> ∅))) /\
  exists info,
    SetModelLife u (life info) ∈ (watchBatch w ds).2 /\
    UpdateModelCounts u (counts info) ∈ (watchBatch w ds).2 /\
    models (watchBatch w ds).1 !! u = Some (clearChanged info).
Proof.
  intros Hn Hin Hf Hu. split.
  - unfold getModelInfo. rewrite Hn. cbn [fst snd models changed counts].
    rewrite lookup_insert_eq. repeat split; try reflexivity.
    intros n Hn0. change (Z.lnot 0) with (-1). by apply Z.bits_m1.
  - set (w0 := mkWatcherState [] (entities w) false (stats w) (models w)).
    destruct (addDeltas_bothSet ds w0 d u Hin Hf Hu (or_introl Hn))
      as (info & Hi & Hl & Hc).
    exists info.
    pose proof (watchBatch_flushes w ds u info Hi) as Hops.
    rewrite (flushModel_bothSet u info Hl Hc) in Hops.
    split; [apply Hops; set_solver|]. split; [apply Hops; set_solver|].
    unfold watchBatch. fold w0. cbn [fst models].
    by rewrite lookup_fmap, Hi.
Qed.

Lemma new_model_entry_flushed_witness :
  exists info,
    SetModelLife "m1" (life info) ∈ (watchBatch newWatcherState [d_rm_unit "m1" "a/0"]).2 /\
    UpdateModelCounts "m1" (counts info) ∈ (watchBatch newWatcherState [d_rm_unit "m1" "a/0"]).2 /\
    models (watchBatch newWatcherState [d_rm_unit "m1" "a/0"]).1 !! "m1" =
      Some (clearChanged info).
Proof.
  refine (proj2 (new_model_entry_flushed newWatcherState [d_rm_unit "m1" "a/0"]
                   (d_rm_unit "m1" "a/0") "m1" _ _ _ _)).
  - reflexivity.
  - apply list_elem_of_here.
  - discriminate.
  - reflexivity.
Defined.

(** The older monitor never deletes a model row: a removed model delta
    only records the life "dead". *)
Example removed_model_marked_dead :
  (watchBatches newWatcherState
     [[d_model "m1" "alive"]; [mkDelta true (ModelInfo "m1" "")]]).2
  = [SetControllerStats (mkStats 0 1 0 0);
     SetModelLife "m1" "alive";
     UpdateModelCounts "m1" (counts (freshModelInfo "m1"));
     SetControllerStats (mkStats 0 0 0 0);
     SetModelLife "m1" "dead"].
Proof. vm_compute. reflexivity. Qed.

End MonitorFacts.

Module LeaseFacts.
Import GoInt GoIntFacts Monitor.

Lemma renewTime_quarter (d : Duration) (m : controllerMonitor) :
  0 <= d <= maxInt64 ->
  renewTime d m = leaseExpiry m - Z.quot d 4.
Proof.
  intros Hd. unfold renewTime, timeAdd, quot64, neg64.
  assert (inRange (- d)) as H1 by (unfold inRange, minInt64, maxInt64 in *; lia).
  rewrite (wrap64_id _ H1), Z.quot_opp_l by lia.
  assert (0 <= Z.quot d 4 <= d) as H2.
  { split; [apply Z.quot_pos; lia|]. apply Z.quot_le_upper_bound; lia. }
  rewrite wrap64_id by (unfold inRange, minInt64, maxInt64 in *; lia). lia.
Qed.

Lemma wakeTime_max (d : Duration) (m : controllerMonitor) (now : Time) :
  0 <= d <= maxInt64 ->
  minInt64 <= leaseExpiry m - Z.quot d 4 - now <= maxInt64 ->
  wakeTime d m now = Z.max now (leaseExpiry m - Z.quot d 4).
Proof.
  intros Hd Hfit. unfold wakeTime, timeSub. rewrite (renewTime_quarter d m Hd). lia.
Qed.

(** C2 as the specification words it fails: with a lease of 60 s
    expiring at t = 100 s and the clock at 0, the timer fires at 85 s,
    a quarter of the lease before expiry, not at 55 s. *)
Lemma wake_is_not_three_quarters_before_expiry :
  let d := 60000000000 in
  let m := mkMonitor 100000000000 "bob/ctl" "jimm-0" in
  wakeTime d m 0 = 85000000000 /\
  wakeTime d m 0 <> leaseExpiry m - 3 * d / 4.
Proof. vm_compute. split; [reflexivity|discriminate]. Qed.

(** C2 (amended). The timer of the lease loop is set for a quarter of the
    lease duration before the expiry of the lease held, that is, after
    three quarters of the lease have passed; when it fires the loop asks
    the lease manager for an expiry of the clock reading plus the lease
    duration, for the same owner, and on success carries on with
    [leaseExpiry] set to the time the lease manager returned. *)
Theorem lease_renewal (d : Duration) (J : Type)
    (Acq : J -> string -> Time -> string -> Time -> string -> (Time + LeaseError) * J)
    (m : controllerMonitor) (now : Time) (j : J) (rest : list LeaseEvent) :
  0 <= d <= maxInt64 ->
  minInt64 <= leaseExpiry m - Z.quot d 4 - now <= maxInt64 ->
  let wake := Z.max now (leaseExpiry m - Z.quot d 4) in
  wakeTime d m now = wake /\
  leaseUpdater d J Acq (TimerFired :: rest) m now j =
    match Acq j (ctlPath m) (leaseExpiry m) (ownerId m) (wake + d) (ownerId m) with
    | (inl t, j') =>
        leaseUpdater d J Acq rest (mkMonitor t (ctlPath m) (ownerId m)) wake j'
    | (inr e, j') =>
        (Some (ExitCannotRenew
                 match e with ErrNotFound => errControllerRemoved | _ => e end),
         m, wake, j')
    end.
Proof.
  intros Hd Hfit wake. pose proof (wakeTime_max d m now Hd Hfit) as Hw.
  split; [exact Hw|].
  cbn [leaseUpdater]. rewrite Hw. fold wake.
  unfold renewLease, acquireLease, timeAdd.
  destruct (Acq j (ctlPath m) (leaseExpiry m) (ownerId m) (wake + d) (ownerId m))
    as [[t|e] j']; [reflexivity|].
  destruct e; reflexivity.
Qed.

Definition store0 : LeaseStore :=
  mkLeaseStore 0 {[ "bob/ctl" := (100000000000, "jimm-0") ]}.

Lemma lease_renewal_witness :
  let d := 60000000000 in
  let m := mkMonitor 100000000000 "bob/ctl" "jimm-0" in
  wakeTime d m 0 = 85000000000 /\
  (leaseUpdater d LeaseStore specAcquireMonitorLease [TimerFired] m 0 store0).1.1.2
  = mkMonitor 145000000000 "bob/ctl" "jimm-0".
Proof.
  intros d m.
  assert (0 <= d <= maxInt64) as Hd by (vm_compute; split; discriminate).
  assert (minInt64 <= leaseExpiry m - Z.quot d 4 - 0 <= maxInt64) as Hfit
    by (vm_compute; split; discriminate).
  destruct (lease_renewal d LeaseStore specAcquireMonitorLease m 0 store0 [] Hd Hfit)
    as [Hw Hl].
  split; [exact Hw|]. rewrite Hl. reflexivity.
Defined.

End LeaseFacts.

Module WatcherFacts.
Import Watcher.

(** Primary keys: every model row is stored under its own ID. *)
Definition wf (db : Database) : Prop :=
  forall id m, models db !! id = Some m -> ID m = id.

Definition sameOtherTables (db db' : Database) : Prop :=
  controllers db' = controllers db /\ applications db' = applications db /\
  machines db' = machines db /\ units db' = units db.

(** The controller reports the model gone when asked for its info. *)
Definition goneOnController (api : API) (m : Model) : Prop :=
  apiModelInfo api (NSString (UUID m)) = Some CodeNotFound.

(** A row the reconciliation examines: it has a UUID and is dying. *)
Definition examined (m : Model) : Prop :=
  NSValid (UUID m) = true /\ Life m = "dying".

Lemma elem_of_controllerModels db ctlID m :
  m ∈ controllerModels db ctlID <->
  exists id, models db !! id = Some m /\ ControllerID m = ctlID.
Proof.
  unfold controllerModels. rewrite list_elem_of_filter, list_elem_of_fmap. split.
  - intros [Hc [[id m'] [-> Hin]]]. apply elem_of_map_to_list in Hin. eauto.
  - intros (id & Hm & Hc). split; [exact Hc|].
    exists (id, m). split; [reflexivity|]. by apply elem_of_map_to_list.
Qed.

Lemma checkDyingModel_cases api m db :
  (checkDyingModel api m db = (db, None) /\
   (Life m <> "dying" \/ apiModelInfo api (NSString (UUID m)) = None)) \/
  (checkDyingModel api m db = (DeleteModel db m, None) /\
   Life m = "dying" /\ goneOnController api m) \/
  (exists e, checkDyingModel api m db = (db, Some e) /\ e <> CodeNotFound /\
             Life m = "dying" /\ apiModelInfo api (NSString (UUID m)) = Some e).
Proof.
  unfold checkDyingModel, goneOnController.
  destruct (String.eqb_spec (Life m) "dying") as [Hl|Hl]; [|left; auto].
  destruct (apiModelInfo api (NSString (UUID m))) as [e|]; [|left; auto].
  case_decide as He.
  - subst e. right. left. auto.
  - right. right. exists e. auto.
Qed.

Lemma checkRows_inv api rows : forall db ids,
  let res := checkRows [checkDyingModel api] rows db ids in
  sameOtherTables db res.1 /\
  (forall id,
      models res.1 !! id = models db !! id \/
      (models res.1 !! id = None /\
       exists m, m ∈ rows /\ ID m = id /\ examined m /\ goneOnController api m)) /\
  (forall ids', res.2 = inl ids' ->
      forall m, m ∈ rows -> examined m ->
        (goneOnController api m -> models res.1 !! ID m = None) /\
        (goneOnController api m \/ apiModelInfo api (NSString (UUID m)) = None)) /\
  (forall e, res.2 = inr e ->
      e <> CodeNotFound /\
      exists m, m ∈ rows /\ examined m /\
                apiModelInfo api (NSString (UUID m)) = Some e).
Proof.
  induction rows as [|m rows IH]; intros db ids res; subst res.
  - cbn [checkRows fst snd]. repeat split; try reflexivity.
    + intros id. by left.
    + by apply elem_of_nil in H0.
    + by apply elem_of_nil in H0.
    + discriminate.
    + discriminate.
  - cbn [checkRows runChecks].
    destruct (NSValid (UUID m)) eqn:Hv; cbn [negb].
    2:{ specialize (IH db ids). cbn zeta in IH.
        destruct IH as (Hot & Hfr & Hok & Herr).
        split; [exact Hot|]. split; [|split].
        - intros id. destruct (Hfr id) as [?|[? (m' & ? & ?)]]; [by left|].
          right. split; [assumption|]. exists m'. split; [by right|assumption].
        - intros ids' Hr m' Hin [Hv' Hl'].
          apply elem_of_cons in Hin as [->|Hin]; [congruence|].
          by apply (Hok ids' Hr).
        - intros e Hr. destruct (Herr e Hr) as [? (m' & ? & ?)].
          split; [assumption|]. exists m'. split; [by right|assumption]. }
    destruct (checkDyingModel_cases api m db) as
      [[-> Hno]|[[-> [Hl Hg]]|(e & -> & Hne & Hl & Ha)]].
    + (* nothing to do for this row *)
      specialize (IH db (<[NSString (UUID m) := ID m]> ids)). cbn zeta in IH.
      destruct IH as (Hot & Hfr & Hok & Herr).
      split; [exact Hot|]. split; [|split].
      * intros id. destruct (Hfr id) as [?|[? (m' & ? & ?)]]; [by left|].
        right. split; [assumption|]. exists m'. split; [by right|assumption].
      * intros ids' Hr m' Hin [Hv' Hl'].
        apply elem_of_cons in Hin as [->|Hin]; [|by apply (Hok ids' Hr)].
        destruct Hno as [Hno|Hno]; [contradiction|].
        split; [|by right]. unfold goneOnController. congruence.
      * intros e Hr. destruct (Herr e Hr) as [? (m' & ? & ?)].
        split; [assumption|]. exists m'. split; [by right|assumption].
    + (* the row is deleted *)
      specialize (IH (DeleteModel db m) (<[NSString (UUID m) := ID m]> ids)).
      cbn zeta in IH. destruct IH as (Hot & Hfr & Hok & Herr).
      split; [exact Hot|]. split; [|split].
      * intros id. destruct (Hfr id) as [Heq|[? (m' & ? & ?)]].
        -- cbn [DeleteModel setModels models] in Heq.
           destruct (decide (id = ID m)) as [->|Hid].
           ++ right. rewrite lookup_delete_eq in Heq. split; [exact Heq|].
              exists m. split; [left|]. repeat split; assumption.
           ++ left. by rewrite lookup_delete_ne in Heq.
        -- right. split; [assumption|]. exists m'. split; [by right|assumption].
      * intros ids' Hr m' Hin Hex.
        apply elem_of_cons in Hin as [->|Hin]; [|by apply (Hok ids' Hr)].
        split; [|by left]. intros _.
        destruct (Hfr (ID m)) as [Heq|[? _]]; [|assumption].
        cbn [DeleteModel setModels models] in Heq.
        by rewrite lookup_delete_eq in Heq.
      * intros e Hr. destruct (Herr e Hr) as [? (m' & ? & ?)].
        split; [assumption|]. exists m'. split; [by right|assumption].
    + (* the controller failed otherwise: the iteration stops *)
      cbn [fst snd]. split; [repeat split|]. split; [|split].
      * intros id. by left.
      * discriminate.
      * intros e' [= <-]. split; [exact Hne|].
        exists m. split; [left|]. repeat split; assumption.
Qed.

(** A store with one controller and a dying model row that has no UUID
    yet, and a controller that answers not-found to every [ModelInfo]. *)
Definition ctl0 : Controller := mkController 1 "ctl" None.

Definition db_uuidless : Database :=
  mkDatabase {[ 1%N := ctl0 ]}
    {[ 7%N := mkModel 7 (mkNullString "" false) 1 "m" "dying" ]} ∅ ∅ ∅.

Definition api_all_gone : API :=
  mkAPI None None (fun _ => Some CodeNotFound) [] CodeConnectionFailed.

(** C7 as worded fails: a dying row without a valid UUID is never
    put to the controller, and stays although the controller would
    report it as not found. *)
Lemma dying_model_not_always_reconciled :
  ~ (forall (db : Database) (api : API) (ctl : Controller) (id : N) (m : Model),
        models db !! id = Some m -> ControllerID m = CtlID ctl ->
        Life m = "dying" ->
        (models (checkControllerModels db ctl [checkDyingModel api]).1 !! id = None
         <-> goneOnController api m)).
Proof.
  intros H.
  specialize (H db_uuidless api_all_gone ctl0 7%N
                (mkModel 7 (mkNullString "" false) 1 "m" "dying")
                eq_refl eq_refl eq_refl).
  destruct H as [_ H]. specialize (H eq_refl).
  vm_compute in H. discriminate H.
Qed.

(** A second way the wording fails: an error other than not-found stops
    the reconciliation, so a later dying model that is gone on the
    controller is left in place for this session. *)
Definition db_two : Database :=
  mkDatabase {[ 1%N := ctl0 ]}
    {[ 1%N := mkModel 1 (mkNullString "u1" true) 1 "m1" "dying";
       2%N := mkModel 2 (mkNullString "u2" true) 1 "m2" "dying" ]} ∅ ∅ ∅.

Definition api_first_fails (first : string) : API :=
  mkAPI None None
    (fun u => if String.eqb u first then Some CodeConnectionFailed
              else Some CodeNotFound)
    [] CodeConnectionFailed.

Example reconciliation_stops_at_first_error :
  exists first id m,
    let api := api_first_fails first in
    let res := checkControllerModels db_two ctl0 [checkDyingModel api] in
    res.2 = inr CodeConnectionFailed /\
    models db_two !! id = Some m /\ ControllerID m = CtlID ctl0 /\
    examined m /\ goneOnController api m /\
    models res.1 !! id = Some m.
Proof.
  exists (match controllerModels db_two 1 with
          | m :: _ => NSString (UUID m) | [] => "" end).
  exists (match controllerModels db_two 1 with
          | _ :: m :: _ => ID m | _ => 0%N end).
  eexists. vm_compute. repeat split; reflexivity.
Qed.

(** C7 (amended). After the all-watcher has been started and before any
    delta is consumed, the watcher goes through the store's models of the
    controller.  Rows without a valid UUID are skipped.  For each other
    row whose life is "dying" the controller is asked for the model's
    info: a not-found answer deletes the row, success leaves it, and any
    other error stops the reconciliation (and the session) with every
    remaining row in place.  So a row disappears only if it belongs to
    the controller, has a UUID, is dying and is reported not found; no
    row is changed or added; and when the reconciliation completes, a
    dying row with a UUID is deleted exactly if the controller reported
    it not found. *)
Theorem reconcile_dying_models (db : Database) (api : API) (ctl : Controller) (now : Z) :
  wf db ->
  let res := checkControllerModels db ctl [checkDyingModel api] in
  sameOtherTables db res.1 /\
  (forall id m, models db !! id = Some m ->
      (models res.1 !! id = None \/ models res.1 !! id = Some m) /\
      (models res.1 !! id = None ->
         ControllerID m = CtlID ctl /\ examined m /\ goneOnController api m)) /\
  (forall id, models db !! id = None -> models res.1 !! id = None) /\
  (forall ids, res.2 = inl ids ->
      forall id m, models db !! id = Some m -> ControllerID m = CtlID ctl ->
        examined m ->
        (models res.1 !! id = None <-> goneOnController api m)) /\
  (forall e, res.2 = inr e ->
      e <> CodeNotFound /\
      exists id m, models db !! id = Some m /\ ControllerID m = CtlID ctl /\
                   examined m /\ apiModelInfo api (NSString (UUID m)) = Some e) /\
  (dialError api = None -> watchAllModelsError api = None ->
   watchController db api ctl now =
     match res with
     | (db1, inr e) => (db1, e)
     | (db1, inl ids) => watchLoop db1 ctl ids (batches api) (nextError api)
     end).
Proof.
  intros Hwf res. subst res. unfold checkControllerModels.
  destruct (checkRows_inv api (controllerModels db (CtlID ctl)) db ∅)
    as (Hot & Hfr & Hok & Herr).
  set (res := checkRows [checkDyingModel api] (controllerModels db (CtlID ctl)) db ∅) in *.
  assert (forall id m0 m', models db !! id = Some m0 ->
            m' ∈ controllerModels db (CtlID ctl) -> ID m' = id -> m' = m0) as Huniq.
  { intros id m0 m' Hm0 Hin Hid.
    apply elem_of_controllerModels in Hin as (id' & Hm' & _).
    pose proof (Hwf _ _ Hm') as Hk. congruence. }
  split; [exact Hot|]. split; [|split; [|split; [|split]]].
  - intros id m Hm. split.
    + destruct (Hfr id) as [Heq|[Hn _]]; [right; congruence|by left].
    + intros Hn. destruct (Hfr id) as [Heq|[_ (m' & Hin & Hid & Hex & Hg)]];
        [congruence|].
      pose proof (Huniq id m m' Hm Hin Hid) as ->.
      apply elem_of_controllerModels in Hin as (_ & _ & Hc). auto.
  - intros id Hn. destruct (Hfr id) as [Heq|[? _]]; congruence.
  - intros ids Hr id m Hm Hc Hex.
    assert (m ∈ controllerModels db (CtlID ctl)) as Hin
      by (apply elem_of_controllerModels; eauto).
    split.
    + intros Hn. destruct (Hfr id) as [Heq|[_ (m' & Hin' & Hid & _ & Hg)]];
        [congruence|].
      by rewrite <- (Huniq id m m' Hm Hin' Hid).
    + intros Hg. destruct (Hok ids Hr m Hin Hex) as [Hdel _].
      rewrite (Hwf _ _ Hm) in Hdel. by apply Hdel.
  - intros e Hr. destruct (Herr e Hr) as [Hne (m & Hin & Hex & Ha)].
    split; [exact Hne|].
    apply elem_of_controllerModels in Hin as (id & Hm & Hc). eauto 10.
  - intros Hd Hw. unfold watchController, dialController. rewrite Hd, Hw.
    unfold checkControllerModels. fold res. reflexivity.
Qed.

Definition db_one : Database :=
  mkDatabase {[ 1%N := ctl0 ]}
    {[ 1%N := mkModel 1 (mkNullString "u1" true) 1 "m1" "dying";
       2%N := mkModel 2 (mkNullString "u2" true) 1 "m2" "alive" ]} ∅ ∅ ∅.

Lemma wf_db_one : wf db_one.
Proof.
  intros id m H. unfold db_one in H. cbn [models] in H.
  destruct (decide (id = 1%N)) as [->|H1].
  - rewrite lookup_insert_eq in H. by injection H as <-.
  - rewrite lookup_insert_ne in H by congruence.
    destruct (decide (id = 2%N)) as [->|H2].
    + rewrite lookup_singleton_eq in H. by injection H as <-.
    + rewrite lookup_singleton_ne in H by congruence. discriminate H.
Defined.

Lemma reconcile_dying_models_witness :
  wf db_one /\
  sameOtherTables db_one
    (checkControllerModels db_one ctl0 [checkDyingModel api_all_gone]).1.
Proof.
  split; [exact wf_db_one|].
  exact (proj1 (reconcile_dying_models db_one api_all_gone ctl0 0 wf_db_one)).
Defined.

Example reconcile_db_one :
  models (checkControllerModels db_one ctl0 [checkDyingModel api_all_gone]).1 =
  {[ 2%N := mkModel 2 (mkNullString "u2" true) 1 "m2" "alive" ]}.
Proof. vm_compute. reflexivity. Qed.

(** **** Which rows the watcher removes *)

(** The row [handleDelta] hands to [deleteModel] and [updateModel]. *)
Definition byID (modelID : N) : Model := mkModel modelID (mkNullString "" false) 0 "" "".

Lemma handleDelta_models db ctl ids d :
  models (handleDelta db ctl ids d).1.1 =
  match Entity d with
  | ModelUpdate u name life =>
      let modelID := (modelIDf db ctl ids u).1 in
      if N.eqb modelID 0 then models db
      else if Removed d then models (deleteModel db (byID modelID)).1
           else models (updateModel db (byID modelID) name life).1
  | _ => models db
  end.
Proof.
  unfold handleDelta, byID.
  destruct (Entity d) as [u n i|u n i|u n l|u n i|k u i]; cbn [entityId ModelUUID Kind Id];
    destruct (modelIDf db ctl ids u) as [modelID ids']; cbn [fst];
    destruct (N.eqb modelID 0); try reflexivity;
    try (destruct k); cbn [otherKindName String.eqb Ascii.eqb Bool.eqb];
    destruct (Removed d); try reflexivity.
  - by destruct (deleteModel _ _).
  - by destruct (updateModel _ _ _ _).
Qed.

Lemma GetModel_byID db modelID :
  modelID <> 0%N ->
  GetModel db (byID modelID) =
  match models db !! modelID with Some r => inl r | None => inr CodeNotFound end.
Proof.
  intros Hz. unfold GetModel, byID. cbn [UUID NSValid ID].
  destruct (N.eqb_spec modelID 0); [contradiction|reflexivity].
Qed.

Lemma deleteModel_byID db modelID :
  modelID <> 0%N ->
  deleteModel db (byID modelID) =
  match models db !! modelID with
  | Some r => if String.eqb (Life r) "dying" then (DeleteModel db r, None)
              else (db, None)
  | None => (db, None)
  end.
Proof.
  intros Hz. unfold deleteModel. rewrite (GetModel_byID db modelID Hz).
  destruct (models db !! modelID); [reflexivity|].
  rewrite decide_True by reflexivity. reflexivity.
Qed.

Lemma updateModel_byID_keeps db modelID name life id m :
  modelID <> 0%N -> wf db ->
  models db !! id = Some m ->
  models (updateModel db (byID modelID) name life).1 !! id <> None.
Proof.
  intros Hz Hwf Hm. unfold updateModel. rewrite (GetModel_byID db modelID Hz).
  destruct (models db !! modelID) as [r|] eqn:Hr.
  - cbn [fst UpdateModel setModels models ID].
    destruct (decide (id = ID r)) as [->|Hid].
    + by rewrite lookup_insert_eq.
    + rewrite lookup_insert_ne by congruence. congruence.
  - rewrite decide_True by reflexivity.
    cbn [fst UpdateModel setModels models ID byID].
    destruct (decide (id = modelID)) as [->|Hid].
    + by rewrite lookup_insert_eq.
    + rewrite lookup_insert_ne by congruence. congruence.
Qed.

(** A removed model delta deletes at most the row it names, and only if
    that row is dying. *)
Lemma removed_model_delta_rows db ctl ids d :
  wf db ->
  forall u n l id m,
    Entity d = ModelUpdate u n l -> Removed d = true ->
    models db !! id = Some m ->
    models (handleDelta db ctl ids d).1.1 !! id = Some m \/
    (models (handleDelta db ctl ids d).1.1 !! id = None /\ Life m = "dying").
Proof.
  intros Hwf u n l id m He Hr Hm. rewrite handleDelta_models, He, Hr. cbn zeta.
  destruct (N.eqb_spec (modelIDf db ctl ids u).1 0) as [Hz|Hz]; [by left|].
  rewrite (deleteModel_byID db _ Hz).
  destruct (models db !! (modelIDf db ctl ids u).1) as [r|] eqn:Hrow; [|by left].
  destruct (String.eqb_spec (Life r) "dying") as [Hl|Hl]; [|by left].
  cbn [fst DeleteModel setModels models].
  pose proof (Hwf _ _ Hrow) as Hk.
  destruct (decide (id = ID r)) as [->|Hid].
  - right. rewrite lookup_delete_eq. split; [reflexivity|]. congruence.
  - left. rewrite lookup_delete_ne by congruence. exact Hm.
Qed.

Lemma handleDelta_removes db ctl ids d :
  wf db ->
  forall id m,
    models db !! id = Some m ->
    models (handleDelta db ctl ids d).1.1 !! id = None ->
    Removed d = true /\ Kind (entityId (Entity d)) = "model" /\ Life m = "dying".
Proof.
  intros Hwf id m Hm Hn.
  pose proof (removed_model_delta_rows db ctl ids d Hwf) as Hrm.
  destruct (Entity d) as [u n i|u n i|u n l|u n i|k u i] eqn:He;
    try (rewrite handleDelta_models, He in Hn; congruence).
  destruct (Removed d) eqn:Hr.
  - destruct (Hrm u n l id m eq_refl eq_refl Hm) as [Hs|[_ Hl]]; [congruence|].
    auto.
  - exfalso. rewrite handleDelta_models, He, Hr in Hn. cbn zeta in Hn.
    destruct (N.eqb_spec (modelIDf db ctl ids u).1 0) as [Hz|Hz]; [congruence|].
    by apply (updateModel_byID_keeps db _ n l id m Hz Hwf Hm).
Qed.

Lemma reconcile_removes db ctl api :
  wf db ->
  forall id m,
    models db !! id = Some m ->
    models (checkControllerModels db ctl [checkDyingModel api]).1 !! id = None ->
    Life m = "dying" /\ goneOnController api m.
Proof.
  intros Hwf id m Hm Hn. unfold checkControllerModels in Hn.
  destruct (checkRows_inv api (controllerModels db (CtlID ctl)) db ∅)
    as (_ & Hfr & _).
  destruct (Hfr id) as [Heq|[_ (m' & Hin & Hid & [_ Hl] & Hg)]]; [congruence|].
  apply elem_of_controllerModels in Hin as (id' & Hm' & _).
  pose proof (Hwf _ _ Hm') as Hk. assert (m' = m) as -> by congruence. auto.
Qed.

Lemma wf_delete db k : wf db -> wf (setModels db (delete k (models db))).
Proof.
  intros Hwf id m. cbn [setModels models].
  intros [_ H]%lookup_delete_Some. by apply Hwf.
Qed.

Lemma wf_insert db r : wf db -> wf (setModels db (<[ID r := r]> (models db))).
Proof.
  intros Hwf id m. cbn [setModels models].
  intros [[<- <-]|[_ H]]%lookup_insert_Some; [reflexivity|by apply Hwf].
Qed.

Lemma handleDelta_wf db ctl ids d : wf db -> wf (handleDelta db ctl ids d).1.1.
Proof.
  intros Hwf id m. rewrite handleDelta_models.
  destruct (Entity d) as [u n i|u n i|u n l|u n i|k u i]; try apply Hwf.
  cbn zeta.
  destruct (N.eqb_spec (modelIDf db ctl ids u).1 0) as [Hz|Hz]; [apply Hwf|].
  destruct (Removed d).
  - rewrite (deleteModel_byID db _ Hz).
    destruct (models db !! (modelIDf db ctl ids u).1) as [r|]; [|apply Hwf].
    destruct (String.eqb (Life r) "dying"); [|apply Hwf].
    apply (wf_delete db (ID r) Hwf).
  - unfold updateModel. rewrite (GetModel_byID db _ Hz).
    destruct (models db !! (modelIDf db ctl ids u).1) as [r|].
    + apply (wf_insert db (mkModel (ID r) (UUID r) (ControllerID r) n l) Hwf).
    + rewrite decide_True by reflexivity.
      apply (wf_insert db (mkModel (ID (byID (modelIDf db ctl ids u).1))
                             (UUID (byID (modelIDf db ctl ids u).1))
                             (ControllerID (byID (modelIDf db ctl ids u).1)) n l) Hwf).
Qed.

Lemma reconcile_wf db ctl api :
  wf db -> wf (checkControllerModels db ctl [checkDyingModel api]).1.
Proof.
  intros Hwf id m Hm. unfold checkControllerModels in Hm.
  destruct (checkRows_inv api (controllerModels db (CtlID ctl)) db ∅)
    as (_ & Hfr & _).
  destruct (Hfr id) as [Heq|[Hn _]]; [|congruence].
  apply Hwf. congruence.
Qed.

Lemma dialController_models db api ctl now :
  models (dialController db api ctl now).1 = models db.
Proof.
  unfold dialController.
  destruct (dialError api); [|reflexivity].
  destruct (UnavailableSince ctl); reflexivity.
Qed.

(** One change of the store in a watcher session. *)
Inductive watcherStep (ctl : Controller) (api : API) : Database -> Database -> Prop :=
| step_dial db now :
    watcherStep ctl api db (dialController db api ctl now).1
| step_reconcile db :
    watcherStep ctl api db (checkControllerModels db ctl [checkDyingModel api]).1
| step_delta db ids d :
    watcherStep ctl api db (handleDelta db ctl ids d).1.1.

(** Every model row that is in [db] and not in [db'] was dying in [db]. *)
Definition removesOnlyDying (db db' : Database) : Prop :=
  forall id m, models db !! id = Some m -> models db' !! id = None ->
               Life m = "dying".

Lemma watcherStep_sound ctl api db db' :
  wf db -> watcherStep ctl api db db' -> wf db' /\ removesOnlyDying db db'.
Proof.
  intros Hwf Hs. revert Hwf. destruct Hs as [db0 now|db0|db0 ids d]; intros Hwf.
  - split.
    + intros id m. rewrite dialController_models. apply Hwf.
    + intros id m Hm Hn. rewrite dialController_models in Hn. congruence.
  - split; [by apply reconcile_wf|].
    intros id m Hm Hn. by destruct (reconcile_removes db0 ctl api Hwf id m Hm Hn).
  - split; [by apply handleDelta_wf|].
    intros id m Hm Hn.
    by destruct (handleDelta_removes db0 ctl ids d Hwf id m Hm Hn) as (_ & _ & ?).
Qed.

Lemma handleDeltas_steps ctl api ds : forall db ids,
  rtc (watcherStep ctl api) db (handleDeltas db ctl ids ds).1.1.
Proof.
  induction ds as [|d ds IH]; intros db ids; cbn [handleDeltas]; [apply rtc_refl|].
  pose proof (step_delta ctl api db ids d) as Hstep.
  destruct (handleDelta db ctl ids d) as [[db1 ids1] [e|]]; cbn [fst] in *.
  - by apply rtc_once.
  - eapply rtc_l; [exact Hstep|apply IH].
Qed.

Lemma watchLoop_steps ctl api bs e : forall db ids,
  rtc (watcherStep ctl api) db (watchLoop db ctl ids bs e).1.
Proof.
  induction bs as [|b bs IH]; intros db ids; cbn [watchLoop]; [apply rtc_refl|].
  pose proof (handleDeltas_steps ctl api b db ids) as Hb.
  destruct (handleDeltas db ctl ids b) as [[db1 ids1] [e1|]]; cbn [fst] in *.
  - exact Hb.
  - etrans; [exact Hb|apply IH].
Qed.

Lemma watchController_steps db api ctl now :
  rtc (watcherStep ctl api) db (watchController db api ctl now).1.
Proof.
  unfold watchController.
  pose proof (step_dial ctl api db now) as Hd.
  destruct (dialController db api ctl now) as [db1 [e|]]; cbn [fst] in *;
    [by apply rtc_once|].
  eapply rtc_l; [exact Hd|].
  destruct (watchAllModelsError api); [apply rtc_refl|].
  pose proof (step_reconcile ctl api db1) as Hr.
  destruct (checkControllerModels db1 ctl [checkDyingModel api]) as [db2 [ids|e]];
    cbn [fst] in *; [|by apply rtc_once].
  eapply rtc_l; [exact Hr|]. apply watchLoop_steps.
Qed.

Lemma steps_sound ctl api db db' :
  rtc (watcherStep ctl api) db db' -> wf db ->
  wf db' /\
  rtc (fun a b => watcherStep ctl api a b /\ wf a /\ removesOnlyDying a b) db db'.
Proof.
  induction 1 as [db|db db1 db2 Hstep Hrest IH]; intros Hwf.
  - split; [exact Hwf|apply rtc_refl].
  - destruct (watcherStep_sound ctl api db db1 Hwf Hstep) as [Hwf1 Hrm].
    destruct (IH Hwf1) as [Hwf2 Hchain].
    split; [exact Hwf2|]. eapply rtc_l; [|exact Hchain]. auto.
Qed.

(** C8. The watcher removes a model row in two places only, and in both
    the row's recorded life is "dying" and the controller has reported
    the model gone: through a removed model delta in [handleDelta], and
    through a not-found answer during the reconciliation of a new
    session.  A removed model delta leaves every row whose life is not
    "dying" exactly as it was.  A whole session of [watchController] is
    a chain of such changes, each of which removes dying rows only. *)
Theorem watcher_removes_only_dying_models (db : Database) (ctl : Controller)
    (ids : gmap string N) (d : Delta) (api : API) (now : Z) :
  wf db ->
  (forall id m,
      models db !! id = Some m ->
      models (handleDelta db ctl ids d).1.1 !! id = None ->
      Removed d = true /\ Kind (entityId (Entity d)) = "model" /\ Life m = "dying") /\
  (Removed d = true -> Kind (entityId (Entity d)) = "model" ->
   forall id m,
      models db !! id = Some m -> Life m <> "dying" ->
      models (handleDelta db ctl ids d).1.1 !! id = Some m) /\
  (forall id m,
      models db !! id = Some m ->
      models (checkControllerModels db ctl [checkDyingModel api]).1 !! id = None ->
      Life m = "dying" /\ goneOnController api m) /\
  rtc (fun a b => watcherStep ctl api a b /\ wf a /\ removesOnlyDying a b)
      db (watchController db api ctl now).1.
Proof.
  intros Hwf. pose proof (removed_model_delta_rows db ctl ids d Hwf) as Hrm.
  split; [|split; [|split]].
  - by apply handleDelta_removes.
  - intros Hr Hk id m Hm Hl.
    destruct (Entity d) as [u n i|u n i|u n l|u n i|k u i] eqn:He;
      try (rewrite handleDelta_models, He; exact Hm).
    destruct (Hrm u n l id m eq_refl Hr Hm) as [Hs|[_ Hl']]; [exact Hs|contradiction].
  - by apply reconcile_removes.
  - by apply (steps_sound ctl api db _ (watchController_steps db api ctl now)).
Qed.

Definition d_model_removed (u : string) : Delta := mkDelta true (ModelUpdate u "" "").

Lemma watcher_removes_only_dying_models_witness :
  wf db_one /\
  forall id m,
    models db_one !! id = Some m ->
    models (handleDelta db_one ctl0 ∅ (d_model_removed "u2")).1.1 !! id = None ->
    Removed (d_model_removed "u2") = true /\
    Kind (entityId (Entity (d_model_removed "u2"))) = "model" /\ Life m = "dying".
Proof.
  split; [exact wf_db_one|].
  exact (proj1 (watcher_removes_only_dying_models db_one ctl0 ∅
                  (d_model_removed "u2") api_all_gone 0 wf_db_one)).
Defined.

Example removed_delta_alive_model_stays :
  (handleDelta db_one ctl0 ∅ (d_model_removed "u2")).1.1 = db_one.
Proof. vm_compute. reflexivity. Qed.

Example removed_delta_dying_model_goes :
  models (handleDelta db_one ctl0 ∅ (d_model_removed "u1")).1.1 =
  {[ 2%N := mkModel 2 (mkNullString "u2" true) 1 "m2" "alive" ]}.
Proof. vm_compute. reflexivity. Qed.

End WatcherFacts.

Module JEMFacts.
Import Errors JEM.

(** **** The fixtures of [jem_test.go] *)

Definition bob : Identity := mkIdentity "bob" [].
Definition alice : Identity := mkIdentity "alice" [].
Definition charlie : Identity := mkIdentity "charlie" [].

Definition testController : Controller :=
  mkController (mkPath "bob" "controller") "dummy" "dummy-region" true
    (mkACL ["everyone"] [] []).

Definition emptyCred (user name : string) : Credential :=
  mkCredential (mkCredPath "dummy" user name) "empty" false [].

(** The store of [TestCreateModel] before the table is run. *)
Definition createStore0 : Store :=
  mkStore []
    [emptyCred "bob" "cred1"; emptyCred "alice" "cred1"; emptyCred "alice" "cred2"]
    [testController].

Definition backend0 : Backend := mkBackend [] [].

Definition create (s : Store) (b : Backend) (id : Identity) (u : string)
    (p : CreateModelParams) : (Model + error) * Store * Backend :=
  CreateModel "controller-admin" s b id 0 (fun _ => 0%nat) u p.

Definition createStore1 : Store :=
  (create createStore0 backend0 bob "uuid-0"
     (mkCreateModelParams (mkPath "bob" "oldmodel") (Some (mkPath "bob" "controller"))
        (Some (mkCredPath "dummy" "bob" "cred1")) "dummy" "")).1.2.

Definition backend1 : Backend :=
  (create createStore0 backend0 bob "uuid-0"
     (mkCreateModelParams (mkPath "bob" "oldmodel") (Some (mkPath "bob" "controller"))
        (Some (mkCredPath "dummy" "bob" "cred1")) "dummy" "")).2.

Definition outcome (r : (Model + error) * Store * Backend)
  : (option CredentialPath * string) + (string * error) :=
  match r.1.1 with
  | inl m => inl (credential m, cloudRegion m)
  | inr e => inr (errorString e, Cause e)
  end.

Definition ambiguousParams : CreateModelParams :=
  mkCreateModelParams (mkPath "alice" "test-7") None None "dummy" "".

Example test_unknown_credential :
  outcome (create createStore1 backend1 bob "uuid-1"
             (mkCreateModelParams (mkPath "bob" "test-3") None
                (Some (mkCredPath "dummy" "bob" "cred2")) "dummy" ""))
  = inr ("credential " ++ quoted "dummy/bob/cred2" ++ " not found", EParams ErrNotFound)%string.
Proof. vm_compute. reflexivity. Qed.

Example test_model_exists :
  outcome (create createStore1 backend1 bob "uuid-1"
             (mkCreateModelParams (mkPath "bob" "oldmodel") None
                (Some (mkCredPath "dummy" "bob" "cred1")) "dummy" ""))
  = inr ("already exists", EParams ErrAlreadyExists).
Proof. vm_compute. reflexivity. Qed.

Example test_unrecognised_region :
  outcome (create createStore1 backend1 bob "uuid-1"
             (mkCreateModelParams (mkPath "bob" "test-5") None
                (Some (mkCredPath "dummy" "bob" "cred1")) "dummy" "not-a-region"))
  = inr ("cannot select controller: no matching controllers found", EParams ErrNotFound).
Proof. vm_compute. reflexivity. Qed.

Example test_single_credential_selected :
  outcome (create createStore1 backend1 bob "uuid-1"
             (mkCreateModelParams (mkPath "bob" "test-6") None None "dummy" ""))
  = inl (Some (mkCredPath "dummy" "bob" "cred1"), "dummy-region").
Proof. vm_compute. reflexivity. Qed.

Example test_more_than_one_credential :
  outcome (create createStore1 backend1 alice "uuid-1" ambiguousParams)
  = inr ("more than one possible credential to use", EParams ErrAmbiguousChoice)
  /\ (create createStore1 backend1 alice "uuid-1" ambiguousParams).1.2 = createStore1.
Proof. vm_compute. split; reflexivity. Qed.

Example test_no_credentials_passed_through :
  outcome (create createStore1 backend1 charlie "uuid-1"
             (mkCreateModelParams (mkPath "charlie" "test-8") None None "dummy" ""))
  = inl (None, "dummy-region").
Proof. vm_compute. reflexivity. Qed.

(** **** Credential selection in CreateModel *)

Definition withCredential (p : CreateModelParams) (cp : CredentialPath) : CreateModelParams :=
  mkCreateModelParams (Path p) (ControllerPath p) (Some cp) (Cloud p) (Region p).

Lemma createModelWith_credential s b id now intn u p cred m :
  (createModelWith s b id now intn u p cred).1.1 = inl m -> credential m = cred.
Proof.
  unfold createModelWith.
  destruct (negb _); [discriminate|].
  destruct (match ControllerPath p with Some _ => _ | None => _ end) as [ctl|e];
    [|discriminate].
  destruct (bool_decide _); [discriminate|].
  cbn [fst]. intros [= <-]. reflexivity.
Qed.

Lemma createModelWith_error_keeps s b id now intn u p cred e :
  (createModelWith s b id now intn u p cred).1.1 = inr e ->
  (createModelWith s b id now intn u p cred).1.2 = s /\
  (createModelWith s b id now intn u p cred).2 = b.
Proof.
  unfold createModelWith.
  destruct (negb _); [auto|].
  destruct (match ControllerPath p with Some _ => _ | None => _ end) as [ctl|e'];
    [|auto].
  destruct (bool_decide _); [auto|]. discriminate.
Qed.

(** C3. CreateModel called without a credential path by a caller allowed
    to create at that path: with exactly one credential of the caller for
    the cloud, the model is created with that credential, exactly as if
    it had been named; with more than one, the call fails with
    ErrAmbiguousChoice and neither the store nor the controller is
    touched; with none, creation goes ahead without a credential. *)
Theorem create_model_without_credential (adminGroup : string) (s : Store)
    (b : Backend) (id : Identity) (now : Z) (intn : nat -> nat) (u : string)
    (p : CreateModelParams) :
  CredentialP p = None ->
  String.eqb (userName id) (User (Path p)) || inACL id [adminGroup] = true ->
  let creds := credentialsFor s (userName id) (Cloud p) in
  let res := CreateModel adminGroup s b id now intn u p in
  (forall c, creds = [c] ->
     res = CreateModel adminGroup s b id now intn u (withCredential p (credPath c)) /\
     (forall m, res.1.1 = inl m -> credential m = Some (credPath c))) /\
  ((1 < length creds)%nat ->
     exists e, res.1.1 = inr e /\ Cause e = EParams ErrAmbiguousChoice /\
               models res.1.2 = models s /\ res.1.2 = s /\ res.2 = b) /\
  (creds = [] ->
     res = createModelWith s b id now intn u p None /\
     (forall m, res.1.1 = inl m -> credential m = None)).
Proof.
  intros Hnone Hauth creds res. subst creds res.
  unfold CreateModel, selectCredential. rewrite Hauth, Hnone. cbn [negb].
  split; [|split].
  - intros c Hc. rewrite Hc. unfold withCredential at 1. cbn [Path CredentialP].
    rewrite Hauth. cbn [negb]. split; [reflexivity|].
    intros m Hm. by apply createModelWith_credential in Hm.
  - intros Hlen.
    destruct (credentialsFor s (userName id) (Cloud p)) as [|c1 [|c2 rest]];
      [simpl in Hlen; lia..|].
    eexists. cbn [fst snd]. repeat split; reflexivity.
  - intros Hc. rewrite Hc. split; [reflexivity|].
    intros m Hm. by apply createModelWith_credential in Hm.
Qed.

Lemma create_model_without_credential_witness :
  exists e,
    (create createStore1 backend1 alice "uuid-1" ambiguousParams).1.1 = inr e /\
    Cause e = EParams ErrAmbiguousChoice /\
    models (create createStore1 backend1 alice "uuid-1" ambiguousParams).1.2
      = models createStore1 /\
    (create createStore1 backend1 alice "uuid-1" ambiguousParams).1.2 = createStore1 /\
    (create createStore1 backend1 alice "uuid-1" ambiguousParams).2 = backend1.
Proof.
  refine (proj1 (proj2 (create_model_without_credential "controller-admin"
            createStore1 backend1 alice 0 (fun _ => 0%nat) "uuid-1" ambiguousParams
            eq_refl eq_refl)) _).
  vm_compute. lia.
Defined.

(** **** Grant and revoke when the controller refuses *)

(** The model of [bootstrapModel]: bob/model on bob/controller. *)
Definition bootStore0 : Store :=
  mkStore [] [emptyCred "bob" "cred"] [testController].

Definition bootParams : CreateModelParams :=
  mkCreateModelParams (mkPath "bob" "model") (Some (mkPath "bob" "controller"))
    (Some (mkCredPath "dummy" "bob" "cred")) "dummy" "".

Definition bootStore : Store := (create bootStore0 backend0 bob "uuid-m" bootParams).1.2.
Definition bootBackend : Backend := (create bootStore0 backend0 bob "uuid-m" bootParams).2.

Definition bobModel : ModelRef := mkModelRef (Some (mkPath "bob" "model")) "uuid-m".

Definition aclOf (s : Store) (r : ModelRef) : option ACL := acl <$> findModel s r.

Definition grantedStore : Store :=
  (GrantModel bootStore bootBackend bob bobModel "alice" "write").1.2.
Definition grantedBackend : Backend :=
  (GrantModel bootStore bootBackend bob bobModel "alice" "write").2.

(** [TestGrantModel]. *)
Example test_grant_model :
  (GrantModel bootStore bootBackend bob bobModel "alice" "write").1.1 = None /\
  aclOf grantedStore bobModel = Some (mkACL ["alice"] [] []).
Proof. vm_compute. split; reflexivity. Qed.

(** [TestGrantModelControllerFailure]. *)
Example test_grant_model_controller_failure :
  errorString <$> (GrantModel bootStore bootBackend bob bobModel "alice" "superpowers").1.1
    = Some (quoted "superpowers" ++ " model access not valid")%string /\
  aclOf (GrantModel bootStore bootBackend bob bobModel "alice" "superpowers").1.2 bobModel
    = Some (mkACL [] [] []).
Proof. vm_compute. split; reflexivity. Qed.

(** [TestRevokeModel]. *)
Example test_revoke_model :
  (RevokeModel grantedStore grantedBackend bob bobModel "alice" "write").1.1 = None /\
  aclOf (RevokeModel grantedStore grantedBackend bob bobModel "alice" "write").1.2 bobModel
    = Some (mkACL [] [] []).
Proof. vm_compute. split; reflexivity. Qed.

(** [TestRevokeModelControllerFailure] holds of [RevokeModel] and fails
    of the order the specification describes, which would leave alice in
    the ACL. *)
Example test_revoke_model_controller_failure :
  errorString <$> (RevokeModel grantedStore grantedBackend bob bobModel
                     "alice" "superpowers").1.1
    = Some (quoted "superpowers" ++ " model access not valid")%string /\
  aclOf (RevokeModel grantedStore grantedBackend bob bobModel
           "alice" "superpowers").1.2 bobModel
    = Some (mkACL [] [] []) /\
  aclOf (RevokeModel_spec grantedStore grantedBackend bob bobModel
           "alice" "superpowers").1.2 bobModel
    = Some (mkACL ["alice"] [] []).
Proof. vm_compute. repeat split; reflexivity. Qed.

(** C5 as worded fails for RevokeModel: the controller rejects the
    unknown access level, the error comes back verbatim, and yet the
    local ACL has lost alice. *)
Lemma revoke_failure_changes_local_acl :
  let res := RevokeModel grantedStore grantedBackend bob bobModel "alice" "superpowers" in
  errorString <$> res.1.1
    = Some (quoted "superpowers" ++ " model access not valid")%string /\
  aclOf grantedStore bobModel = Some (mkACL ["alice"] [] []) /\
  aclOf res.1.2 bobModel = Some (mkACL [] [] []) /\
  aclOf res.1.2 bobModel <> aclOf grantedStore bobModel.
Proof. vm_compute. repeat split; try reflexivity. discriminate. Qed.

Lemma errorString_Mask_all e :
  errorString <$> Mask (Some e) [fun _ => true] = Some (errorString e) /\
  Cause <$> Mask (Some e) [fun _ => true] = Some (Cause e).
Proof. split; reflexivity. Qed.

(** C5 (amended). For an administrator of the model: GrantModel tells the
    controller first and changes the local ACL only if the controller
    accepted, so a refusal leaves the store exactly as it was;
    RevokeModel withdraws the user's access from the local ACL first and
    tells the controller afterwards, so a refusal leaves the local ACL
    without the user.  In both cases the controller's error comes back
    with its message unchanged, and an access level other than read,
    write or admin is refused with a message ending in "not valid". *)
Theorem grant_revoke_controller_refusal (s : Store) (b : Backend) (id : Identity)
    (r : ModelRef) (user a : string) (m : Model) :
  findModel s r = Some m ->
  isModelAdmin id m = true ->
  (forall e b', backendGrant b (uuid m) user a = (Some e, b') ->
     let res := GrantModel s b id r user a in
     errorString <$> res.1.1 = Some (errorString e) /\
     Cause <$> res.1.1 = Some (Cause e) /\
     res.1.2 = s) /\
  (forall b', backendGrant b (uuid m) user a = (None, b') ->
     GrantModel s b id r user a =
       (None, updateModel s r (fun m => dbGrant m user), b')) /\
  (forall e b', backendRevoke b (uuid m) user a = (Some e, b') ->
     let res := RevokeModel s b id r user a in
     errorString <$> res.1.1 = Some (errorString e) /\
     Cause <$> res.1.1 = Some (Cause e) /\
     res.1.2 = updateModel s r (fun m => dbRevoke m user)) /\
  (validAccess a = false ->
     backendGrant b (uuid m) user a = (Some (notValid a), b) /\
     backendRevoke b (uuid m) user a = (Some (notValid a), b) /\
     errorString (notValid a) = (quoted a ++ " model access not valid")%string).
Proof.
  intros Hm Hadm. split; [|split; [|split]].
  - intros e b' Hb res. subst res. unfold GrantModel.
    rewrite Hm, Hadm, Hb. cbn [negb fst snd]. repeat split; reflexivity.
  - intros b' Hb. unfold GrantModel. rewrite Hm, Hadm, Hb. reflexivity.
  - intros e b' Hb res. subst res. unfold RevokeModel.
    rewrite Hm, Hadm, Hb. cbn [negb fst snd]. repeat split; reflexivity.
  - intros Hv. unfold backendGrant, backendRevoke. rewrite Hv.
    repeat split; reflexivity.
Qed.

Lemma grant_revoke_controller_refusal_witness :
  let res := GrantModel bootStore bootBackend bob bobModel "alice" "superpowers" in
  errorString <$> res.1.1 = Some (errorString (notValid "superpowers")) /\
  Cause <$> res.1.1 = Some (Cause (notValid "superpowers")) /\
  res.1.2 = bootStore.
Proof.
  assert (exists m, findModel bootStore bobModel = Some m /\ isModelAdmin bob m = true)
    as (m & Hm & Hadm) by (eexists; split; vm_compute; reflexivity).
  refine (proj1 (grant_revoke_controller_refusal bootStore bootBackend bob bobModel
                   "alice" "superpowers" m Hm Hadm)
                (notValid "superpowers") bootBackend _).
  reflexivity.
Defined.

End JEMFacts.

Module JujuAPIFacts.
Import Errors JujuAPI.

(** **** Facade dispatch *)

Definition noModels : string -> ModelDoc + error :=
  fun u => inr (WithCausef None ErrNotFound ("model " ++ quoted u ++ " not found")).
Definition noControllers : string -> ControllerDoc + error :=
  fun p => inr (WithCausef None ErrNotFound ("controller " ++ quoted p ++ " not found")).

(** A connection to the controller endpoint, and one to the endpoint of
    a model UUID that the store does not know. *)
Definition plainHandler : wsHandler := mkHandler "" None None "".
Definition strayHandler : wsHandler :=
  mkHandler "00000000-0000-0000-0000-000000000001" None None "".

Example find_login :
  (FindMethod noModels noControllers plainHandler "Admin" 3 "Login").2
  = inl (mkMethodCaller "Admin" "Login").
Proof. vm_compute. reflexivity. Qed.

Example find_unauthenticated :
  (FindMethod noModels noControllers plainHandler "ModelManager" 2 "ListModels").2
  = inr (CallNotImplementedError "ModelManager" 2 "").
Proof. vm_compute. reflexivity. Qed.

Example find_old_admin :
  (FindMethod noModels noControllers plainHandler "Admin" 2 "Login").2
  = inr (RequestError "not supported" "JAAS does not support login from old clients").
Proof. vm_compute. reflexivity. Qed.

Example find_unknown_method :
  (FindMethod noModels noControllers (mkHandler "" None None "bob")
     "ModelManager" 2 "DestroyModels").2
  = inr (CallNotImplementedError "ModelManager" 0 "DestroyModels").
Proof. vm_compute. reflexivity. Qed.

Example find_stray :
  exists e, (FindMethod noModels noControllers strayHandler "Admin" 2 "Login").2
            = inr (OtherError e).
Proof. vm_compute. eexists. reflexivity. Qed.

Definition oldClientsMessage : string := "JAAS does not support login from old clients".

(** C9 as worded fails on a connection whose model UUID does not
    resolve: the lookup error comes back before the facade is looked at. *)
Lemma dispatch_fails_when_uuid_does_not_resolve :
  ~ (forall (MF : string -> ModelDoc + error) (CO : string -> ControllerDoc + error)
            (h : wsHandler) (r : string) (v : Z) (m : string),
        (~ registered r v m ->
         exists a b c, (FindMethod MF CO h r v m).2 = inr (CallNotImplementedError a b c)) /\
        (r = "Admin" -> v < 3 ->
         (FindMethod MF CO h r v m).2 = inr (RequestError CodeNotSupported oldClientsMessage))).
Proof.
  intros H.
  destruct (H noModels noControllers strayHandler "Admin" 2 "Login") as [_ H2].
  specialize (H2 eq_refl ltac:(lia)). vm_compute in H2. discriminate H2.
Qed.

Lemma facades_lookup r v rn :
  facades !! (r, v) = Some rn ->
  (r, v, rn) ∈ [("Admin", 3, "Admin"); ("Cloud", 1, "Cloud");
                ("ModelManager", 2, "ModelManager"); ("Pinger", 1, "Pinger")].
Proof.
  unfold facades. intros H.
  repeat (apply lookup_insert_Some in H as [[[= <- <-] <-]|[_ H]];
          [set_solver|]).
  apply lookup_singleton_Some in H as [[= <- <-] <-]. set_solver.
Qed.

Lemma reflect_registered rn methods m :
  (rn, methods) ∈ rootMethods ->
  reflectFindMethod rn 0 m =
  if bool_decide (m ∈ methods) then inl (mkMethodCaller rn m)
  else inr (CallNotImplementedError rn 0 m).
Proof.
  unfold rootMethods. intros H.
  repeat (apply elem_of_cons in H as [[= -> ->]|H]; [reflexivity|]).
  by apply elem_of_nil in H.
Qed.

(** The handler's model UUID, if any, resolves (or was resolved before). *)
Definition resolves (MF : string -> ModelDoc + error) (CO : string -> ControllerDoc + error)
    (h : wsHandler) : Prop :=
  (is_Some (model h) /\ is_Some (controller h)) \/ (resolveUUID MF CO h).2 = None.

Lemma resolveUUID_username MF CO h : username (resolveUUID MF CO h).1 = username h.
Proof.
  unfold resolveUUID. destruct (String.eqb _ _); [reflexivity|].
  destruct (MF _) as [md|e]; [|reflexivity].
  destruct (CO _); reflexivity.
Qed.

(** What [FindMethod] answers once the model UUID is out of the way. *)
Definition dispatch (uname r : string) (v : Z) (m : string) : MethodCaller + FindError :=
  if String.eqb uname "" && negb (String.eqb r "Admin") then
    inr (CallNotImplementedError r v "")
  else if String.eqb r "Admin" && Z.ltb v 3 then
    inr (RequestError CodeNotSupported oldClientsMessage)
  else
    let rn := default "" (facades !! (r, v)) in
    if negb (String.eqb rn "") then reflectFindMethod rn 0 m
    else inr (CallNotImplementedError r v "").

Lemma FindMethod_resolved MF CO h r v m :
  resolves MF CO h ->
  (FindMethod MF CO h r v m).2 = dispatch (username h) r v m.
Proof.
  intros Hres. unfold FindMethod, dispatch.
  assert (exists h', username h' = username h /\
            match model h, controller h with
            | Some _, Some _ => (h, None)
            | _, _ => resolveUUID MF CO h
            end = (h', None)) as (h' & Hu & ->).
  { destruct (model h) as [md|] eqn:Hm, (controller h) as [cd|] eqn:Hc;
      [exists h; split; reflexivity|..];
      (destruct Hres as [[[? ?] [? ?]]|Hr]; [congruence|]);
      exists (resolveUUID MF CO h).1; (split; [apply resolveUUID_username|]);
      destruct (resolveUUID MF CO h) as [h1 e1]; cbn [fst snd] in *; subst e1;
      reflexivity. }
  cbn [Mask]. rewrite Hu.
  destruct (_ && _); [reflexivity|].
  destruct (_ && _); [reflexivity|].
  destruct (negb _); reflexivity.
Qed.

(** C9 (amended). On a connection whose model UUID, if it has one,
    resolves: every call to the Admin facade with a version below 3 is
    answered with code CodeNotSupported and the message "JAAS does not
    support login from old clients"; every other call whose
    (root, version, method) is not in the registered tables is answered
    with a CallNotImplemented error; and a registered call, once the
    caller has logged in or when it goes to Admin, finds its method. *)
Theorem find_method_dispatch (MF : string -> ModelDoc + error)
    (CO : string -> ControllerDoc + error) (h : wsHandler) (r : string) (v : Z)
    (m : string) :
  resolves MF CO h ->
  let res := (FindMethod MF CO h r v m).2 in
  (r = "Admin" -> v < 3 ->
     res = inr (RequestError CodeNotSupported oldClientsMessage)) /\
  (~ (r = "Admin" /\ v < 3) -> ~ registered r v m ->
     exists a b c, res = inr (CallNotImplementedError a b c)) /\
  (registered r v m -> username h <> "" \/ r = "Admin" ->
     exists rn, res = inl (mkMethodCaller rn m)).
Proof.
  intros Hres res. subst res. rewrite (FindMethod_resolved MF CO h r v m Hres).
  unfold dispatch. split; [|split].
  - intros -> Hv. rewrite String.eqb_refl, Bool.andb_false_r.
    cbn [negb andb]. destruct (Z.ltb_spec v 3); [reflexivity|lia].
  - intros Hold Hnr.
    destruct (String.eqb (username h) "" && negb (String.eqb r "Admin")); [eauto|].
    assert (String.eqb r "Admin" && Z.ltb v 3 = false) as ->.
    { destruct (String.eqb_spec r "Admin") as [->|Hra]; [|reflexivity].
      destruct (Z.ltb_spec v 3); [exfalso; auto|reflexivity]. }
    destruct (facades !! (r, v)) as [rn|] eqn:Hf; cbn [default from_option id]; [|eauto].
    pose proof (facades_lookup _ _ _ Hf) as Hin.
    destruct (String.eqb rn ""); cbn [negb]; [eauto|].
    assert (exists methods, (rn, methods) ∈ rootMethods) as [methods Hrm].
    { unfold rootMethods.
      repeat (apply elem_of_cons in Hin as [[= ? ? ?]|Hin];
              [subst; eexists;
               repeat first [apply list_elem_of_here | apply list_elem_of_further]|]).
      by apply elem_of_nil in Hin. }
    rewrite (reflect_registered rn methods m Hrm).
    destruct (bool_decide (m ∈ methods)) eqn:Hm; [|eauto].
    exfalso. apply Hnr. exists rn, methods. apply bool_decide_eq_true in Hm. auto.
  - intros (rn & methods & Hf & Hrm & Hm) Hlog.
    assert (String.eqb (username h) "" && negb (String.eqb r "Admin") = false) as ->.
    { destruct Hlog as [Hu| ->].
      - destruct (String.eqb_spec (username h) ""); [contradiction|reflexivity].
      - rewrite String.eqb_refl. apply Bool.andb_false_r. }
    pose proof (facades_lookup _ _ _ Hf) as Hin.
    assert (String.eqb r "Admin" && Z.ltb v 3 = false) as ->.
    { repeat (apply elem_of_cons in Hin as [[= ? ? ?]|Hin]; [subst; reflexivity|]).
      by apply elem_of_nil in Hin. }
    rewrite Hf. cbn [default from_option id].
    assert (String.eqb rn "" = false) as ->.
    { repeat (apply elem_of_cons in Hin as [[= ? ? ?]|Hin]; [subst; reflexivity|]).
      by apply elem_of_nil in Hin. }
    cbn [negb]. rewrite (reflect_registered rn methods m Hrm).
    rewrite bool_decide_eq_true_2 by exact Hm. eauto.
Qed.

Lemma find_method_dispatch_witness :
  (FindMethod noModels noControllers plainHandler "Admin" 2 "Login").2
  = inr (RequestError CodeNotSupported oldClientsMessage).
Proof.
  refine (proj1 (find_method_dispatch noModels noControllers plainHandler
                   "Admin" 2 "Login" _) eq_refl _).
  - right. reflexivity.
  - lia.
Defined.

(** **** Not-found is reported as unauthorized *)




Section NotFound.

Variable J : Type.
Variable identity : Type.
Variable ParseModelTag : string -> string + error.
Variable ParseUserTag : string -> string + error.
Variable GetModelInfo :
  J -> identity -> ModelInfoDoc -> bool -> ModelInfoDoc * option error.
Variable GrantModel : J -> identity -> string -> string -> string -> option error * J.
Variable RevokeModel : J -> identity -> string -> string -> string -> option error * J.
Variable modelWithConnection :
  J -> identity -> string -> string ->
  (string -> string * option error) -> option string * option error.
Variable connDumpModel : J -> string -> string * option error.
Variable connDumpModelV3 : J -> string -> bool -> string * option error.
Variable connDumpModelDB : J -> string -> string * option error.
Variable controllerUUIDMasking : bool.
Variable ControllerUUID : string.
Variable ModelFromUUID : string -> ModelDoc + error.
Variable CheckCanRead : ModelDoc -> option error.





End NotFound.

(** A gateway over a store that knows no model at all. *)
Definition parseModelTag (tag : string) : string + error :=
  if String.prefix "model-" tag then inl (String.substring 6 (String.length tag - 6) tag)
  else inr (EPlain (quoted tag ++ " is not a valid model tag")).




(** **** Destroying a model twice *)

(** [DestroyModelsV4] over the orchestrator's [DestroyModel]. *)
Definition jemDestroyModel (j : JEM.Store * JEM.Backend) (id : JEM.Identity)
    (u : string) (destroyStorage force : option bool) (maxWait : option Z)
  : option error * (JEM.Store * JEM.Backend) :=
  let '(e, s, b) := JEM.DestroyModel j.1 j.2 id (JEM.mkModelRef None u) in (e, (s, b)).

Definition destroyModels (j : JEM.Store * JEM.Backend) (id : JEM.Identity)
    (tags : list string) : list (Result unit) * (JEM.Store * JEM.Backend) :=
  DestroyModels (JEM.Store * JEM.Backend) JEM.Identity parseModelTag jemDestroyModel
    j id tags.

Lemma destroyModelOne_tolerant {J identity : Type}
    (PMT : string -> string + error)
    (DM : J -> identity -> string -> option bool -> option bool -> option Z ->
          option error * J)
    (id : identity) (j : J) (m : DestroyModelParams) (u : string) :
  PMT (DModelTag m) = inl u ->
  match (DM j id u (DestroyStorage m) (Force m) (MaxWait m)).1 with
  | None => True
  | Some e => causeIs ErrNotFound e = true
  end ->
  (destroyModelOne J identity PMT DM id j m).1 = mkResult tt None.
Proof.
  intros Hp Hd. unfold destroyModelOne. rewrite Hp.
  destruct (DM j id u _ _ _) as [[e|] j']; cbn [fst] in Hd; [|reflexivity].
  by rewrite Hd.
Qed.

End JujuAPIFacts.

Module DestroyFacts.
Import Errors JEM JEMFacts.

Definition destroyed1 : option error * Store * Backend :=
  DestroyModel bootStore bootBackend bob bobModel.

(** The store once the monitor has reaped the dying row. *)
Definition reapedStore : Store := reapModel destroyed1.1.2 destroyed1.2 "uuid-m".

Definition notFoundMessage : string := ("model " ++ quoted "bob/model" ++ " not found")%string.

(** [TestDestroyModel]: destroy, see the row go, fail to destroy again,
    put the row back, destroy once more although the controller no
    longer has the model. *)
Example test_destroy_model :
  destroyed1.1.1 = None /\
  findModel reapedStore bobModel = None /\
  errorString <$> (DestroyModel reapedStore destroyed1.2 bob bobModel).1.1
    = Some notFoundMessage /\
  (exists m, findModel bootStore bobModel = Some m /\
     let again := DestroyModel (AddModel reapedStore m) destroyed1.2 bob bobModel in
     again.1.1 = None /\
     findModel (reapModel again.1.2 again.2 "uuid-m") bobModel = None).
Proof.
  vm_compute. repeat split; try reflexivity.
  eexists. split; [reflexivity|]. split; reflexivity.
Qed.

(** C4 as worded has the two cases the wrong way round: with the
    local row gone a second DestroyModel fails with not-found, and with
    the row still there it succeeds; and at the API neither case is
    reported as not-found. *)
Lemma second_destroy_not_as_claimed :
  (findModel reapedStore bobModel = None /\
   Cause <$> (DestroyModel reapedStore destroyed1.2 bob bobModel).1.1
     = Some (EParams ErrNotFound)) /\
  (is_Some (findModel destroyed1.1.2 bobModel) /\
   (DestroyModel destroyed1.1.2 destroyed1.2 bob bobModel).1.1 = None /\
   (JujuAPIFacts.destroyModels (destroyed1.1.2, destroyed1.2) bob ["model-uuid-m"]).1
     = [JujuAPI.mkResult tt None]).
Proof.
  vm_compute. repeat split; try reflexivity. eexists. reflexivity.
Qed.

Lemma backendDestroy_tolerated b u :
  (exists b', backendDestroy b u = (None, b')) \/
  backendDestroy b u = (Some (EJuju "model not found" CodeNotFound), b).
Proof.
  unfold backendDestroy. destruct (bool_decide _); eauto.
Qed.

(** C4 (amended). A further DestroyModel on a model whose local row is
    gone fails with the cause ErrNotFound and leaves store and controller
    alone; while the row is still there it succeeds for an administrator
    of the model, even when the controller no longer has the model, and
    leaves the row at life "dying".  At the API ([DestroyModelsV4])
    the not-found is not an error: the entry reports success in both
    cases. *)
Theorem second_destroy (s : Store) (b : Backend) (id : Identity) (r : ModelRef)
    (u : string) :
  (findModel s r = None ->
     DestroyModel s b id r = (Some (modelNotFound r), s, b) /\
     Cause (modelNotFound r) = EParams ErrNotFound) /\
  (forall m, findModel s r = Some m -> isModelAdmin id m = true ->
     (DestroyModel s b id r).1.1 = None /\
     (DestroyModel s b id r).1.2 = updateModel s r (fun m => setLife m "dying")) /\
  (findModel s (mkModelRef None u) = None \/
   (exists m, findModel s (mkModelRef None u) = Some m /\ isModelAdmin id m = true) ->
   forall tag ds f mw,
     JujuAPIFacts.parseModelTag tag = inl u ->
     (JujuAPI.DestroyModelsV4 (Store * Backend) Identity JujuAPIFacts.parseModelTag
        JujuAPIFacts.jemDestroyModel (s, b) id
        [JujuAPI.mkDestroyModelParams tag ds f mw]).1
     = [JujuAPI.mkResult tt None]).
Proof.
  assert (forall r', findModel s r' = None ->
            DestroyModel s b id r' = (Some (modelNotFound r'), s, b)) as Hgone.
  { intros r' Hn. unfold DestroyModel. by rewrite Hn. }
  assert (forall r' m, findModel s r' = Some m -> isModelAdmin id m = true ->
            (DestroyModel s b id r').1.1 = None /\
            (DestroyModel s b id r').1.2 = updateModel s r' (fun m => setLife m "dying"))
    as Hthere.
  { intros r' m Hm Hadm. unfold DestroyModel. rewrite Hm, Hadm. cbn [negb].
    destruct (backendDestroy_tolerated b (uuid m)) as [[b' ->]| ->]; split; reflexivity. }
  split; [|split].
  - intros Hn. split; [by apply Hgone|reflexivity].
  - exact (Hthere r).
  - intros Hcase tag ds f mw Hp.
    unfold JujuAPI.DestroyModelsV4. cbn [JujuAPI.forEach].
    pose proof (JujuAPIFacts.destroyModelOne_tolerant JujuAPIFacts.parseModelTag
                  JujuAPIFacts.jemDestroyModel id (s, b)
                  (JujuAPI.mkDestroyModelParams tag ds f mw) u Hp) as Hone.
    destruct (JujuAPI.destroyModelOne _ _ _ _ id (s, b) _) as [res j']. cbn [fst] in *.
    rewrite Hone; [reflexivity|].
    unfold JujuAPIFacts.jemDestroyModel. cbn [fst snd JujuAPI.DestroyStorage
      JujuAPI.Force JujuAPI.MaxWait].
    destruct Hcase as [Hn|(m & Hm & Hadm)].
    + rewrite (Hgone _ Hn). reflexivity.
    + destruct (Hthere _ m Hm Hadm) as [He _].
      destruct (DestroyModel s b id (mkModelRef None u)) as [[e s'] b'].
      cbn [fst] in He. by rewrite He.
Qed.

Lemma second_destroy_witness :
  DestroyModel reapedStore destroyed1.2 bob bobModel
    = (Some (modelNotFound bobModel), reapedStore, destroyed1.2) /\
  Cause (modelNotFound bobModel) = EParams ErrNotFound.
Proof.
  refine (proj1 (second_destroy reapedStore destroyed1.2 bob bobModel "uuid-m") _).
  reflexivity.
Defined.

End DestroyFacts.

(** * Further properties of the monitor's delta reducer *)

Module ReducerFacts.
Import GoInt GoIntFacts Monitor MonitorFacts.

(** The [params.EntityCount] key a counter's deltas are added under in
    the per-model counts; model deltas are not counted per model. *)
Definition countKey (f : StatField) : option string :=
  match f with
  | FModelCount => None
  | FUnitCount => Some paramsUnitCount
  | FServiceCount => Some paramsApplicationCount
  | FMachineCount => Some paramsMachineCount
  end.

(** [w.models[u].counts[key]], reading a missing model or key as 0. *)
Definition perModel (w : watcherState) (u key : string) : Z :=
  match models w !! u with
  | Some info => default 0 (counts info !! key)
  | None => 0
  end.

(** The known entities of kind [statKind f] in model [u]. *)
Definition modelKindSet (f : StatField) (u : string) (w : watcherState) : gset EntityId :=
  filter (fun id => Kind id = statKind f /\ ModelUUID id = u) (dom (entities w)).

Lemma countKey_inj f g k : countKey f = Some k -> countKey g = Some k -> f = g.
Proof. destruct f, g; cbv; intros H1 H2; try reflexivity; congruence. Qed.

Lemma adjustCount_diff w f d :
  (adjustCount w f d).2 =
  if Removed d then (if entitiesLookup w (entityId (Entity d)) then -1 else 0)
  else (if entitiesLookup w (entityId (Entity d)) then 0 else 1).
Proof.
  unfold adjustCount.
  destruct (Removed d), (entitiesLookup w (entityId (Entity d))); reflexivity.
Qed.

Lemma perModel_insert w u info u' key :
  perModel (putModelInfo w u info) u' key =
  if decide (u' = u) then default 0 (counts info !! key) else perModel w u' key.
Proof.
  unfold perModel, putModelInfo. cbn [models]. case_decide as Hu.
  - subst. by rewrite lookup_insert_eq.
  - by rewrite lookup_insert_ne.
Qed.

Lemma perModel_fresh u key : default 0 (counts (freshModelInfo u) !! key) = 0.
Proof.
  unfold freshModelInfo, getModelInfo. cbn [models newWatcherState].
  rewrite lookup_empty. cbn [snd counts].
  destruct (decide (key = paramsUnitCount)) as [->|H1]; [by rewrite lookup_insert_eq|].
  rewrite lookup_insert_ne by congruence.
  destruct (decide (key = paramsMachineCount)) as [->|H2]; [by rewrite lookup_insert_eq|].
  rewrite lookup_insert_ne by congruence.
  destruct (decide (key = paramsApplicationCount)) as [->|H3]; [by rewrite lookup_insert_eq|].
  rewrite lookup_insert_ne by congruence. by rewrite lookup_empty.
Qed.

Lemma infoAdjustCount_counts info kf n key :
  default 0 (counts (infoAdjustCount info kf n) !! key) =
  if decide (key = kf /\ n <> 0) then add64 (default 0 (counts info !! key)) n
  else default 0 (counts info !! key).
Proof.
  unfold infoAdjustCount. destruct (Z.eqb_spec n 0) as [->|Hn].
  - rewrite decide_False by tauto. reflexivity.
  - cbn [counts]. case_decide as Hk.
    + destruct Hk as [-> _]. by rewrite lookup_insert_eq.
    + rewrite lookup_insert_ne; [reflexivity|]. intros ->. tauto.
Qed.

Lemma setLife_counts info l : counts (setLife info l) = counts info.
Proof. unfold setLife. destruct (String.eqb _ _); reflexivity. Qed.

(** What [addDelta] does to the per-model counts. *)
Lemma addDelta_perModel w d u' key :
  perModel (addDelta w d) u' key =
  match counterOf (Entity d) with
  | Some f =>
      let diff := (adjustCount w f d).2 in
      if decide (u' = ModelUUID (entityId (Entity d)) /\
                 countKey f = Some key /\ diff <> 0)
      then add64 (perModel w u' key) diff
      else perModel w u' key
  | None => perModel w u' key
  end.
Proof.
  assert (forall w1 u, models w1 = models w ->
            default 0 (counts (getModelInfo w1 u).2 !! key) = perModel w u key) as Hget.
  { intros w1 u Hm. destruct (getModelInfo_spec w1 u) as (-> & _ & _).
    unfold perModel. rewrite Hm. destruct (models w !! u); [reflexivity|].
    apply perModel_fresh. }
  assert (forall w1 u, models w1 = models w -> u' <> u ->
            perModel (getModelInfo w1 u).1 u' key = perModel w u' key) as Hother.
  { intros w1 u Hm Hu. unfold perModel, getModelInfo. rewrite Hm.
    destruct (models w !! u); cbn [fst models]; rewrite ?Hm; [reflexivity|].
    by rewrite lookup_insert_ne. }
  unfold addDelta.
  destruct (Entity d) as [u l|u n|u n|u i|k u i] eqn:He;
    cbn [counterOf entityId ModelUUID]; [| | | |reflexivity].
  - pose proof (adjustCount_models w FModelCount d) as Hm. cbn zeta.
    destruct (adjustCount w FModelCount d) as [w1 diff]. cbn [fst snd] in *.
    pose proof (Hget w1 u Hm) as Hg. pose proof (Hother w1 u Hm) as Ho.
    destruct (getModelInfo w1 u) as [w2 info]. cbn [fst snd] in *.
    rewrite perModel_insert, setLife_counts.
    destruct (decide (u' = u)) as [->|Hu]; [rewrite Hg|rewrite Ho by done];
      (case_decide as H; [destruct H as (_ & Hk & _); discriminate Hk|reflexivity]).
  - pose proof (adjustCount_models w FUnitCount d) as Hm. cbn zeta.
    destruct (adjustCount w FUnitCount d) as [w1 diff]. cbn [fst snd] in *.
    pose proof (Hget w1 u Hm) as Hg. pose proof (Hother w1 u Hm) as Ho.
    destruct (getModelInfo w1 u) as [w2 info]. cbn [fst snd] in *.
    rewrite perModel_insert, infoAdjustCount_counts. cbn [countKey].
    destruct (decide (u' = u)) as [->|Hu].
    + rewrite Hg. repeat case_decide; try reflexivity; exfalso; naive_solver.
    + rewrite decide_False by tauto. by apply Ho.
  - pose proof (adjustCount_models w FServiceCount d) as Hm. cbn zeta.
    destruct (adjustCount w FServiceCount d) as [w1 diff]. cbn [fst snd] in *.
    pose proof (Hget w1 u Hm) as Hg. pose proof (Hother w1 u Hm) as Ho.
    destruct (getModelInfo w1 u) as [w2 info]. cbn [fst snd] in *.
    rewrite perModel_insert, infoAdjustCount_counts. cbn [countKey].
    destruct (decide (u' = u)) as [->|Hu].
    + rewrite Hg. repeat case_decide; try reflexivity; exfalso; naive_solver.
    + rewrite decide_False by tauto. by apply Ho.
  - pose proof (adjustCount_models w FMachineCount d) as Hm. cbn zeta.
    destruct (adjustCount w FMachineCount d) as [w1 diff]. cbn [fst snd] in *.
    pose proof (Hget w1 u Hm) as Hg. pose proof (Hother w1 u Hm) as Ho.
    destruct (getModelInfo w1 u) as [w2 info]. cbn [fst snd] in *.
    unfold runnerDo, perModel. cbn [models].
    fold (perModel (putModelInfo w2 u (infoAdjustCount info paramsMachineCount diff)) u' key).
    rewrite perModel_insert, infoAdjustCount_counts. cbn [countKey].
    destruct (decide (u' = u)) as [->|Hu].
    + rewrite Hg. repeat case_decide; try reflexivity; exfalso; naive_solver.
    + rewrite decide_False by tauto. by apply Ho.
Qed.

Lemma size_filter_insert (P : EntityId -> Prop) `{!forall x, Decision (P x)}
    (X : gset EntityId) (id : EntityId) :
  id ∉ X ->
  size (filter P ({[id]} ∪ X)) =
  if decide (P id) then S (size (filter P X)) else size (filter P X).
Proof.
  intros Hni. case_decide as Hp.
  - assert (filter P ({[id]} ∪ X) = {[id]} ∪ filter P X) as -> by set_solver.
    rewrite size_union by set_solver. by rewrite size_singleton.
  - f_equal. set_solver.
Qed.

Lemma size_filter_delete (P : EntityId -> Prop) `{!forall x, Decision (P x)}
    (X : gset EntityId) (id : EntityId) :
  id ∈ X ->
  size (filter P (X ∖ {[id]})) =
  if decide (P id) then pred (size (filter P X)) else size (filter P X).
Proof.
  intros Hin. case_decide as Hp.
  - assert (filter P (X ∖ {[id]}) = filter P X ∖ {[id]}) as -> by set_solver.
    rewrite size_difference by set_solver. rewrite size_singleton. lia.
  - f_equal. set_solver.
Qed.

(** The per-model counts agree with the known-entity set. *)
Definition PInv (w : watcherState) : Prop :=
  forall f key u, countKey f = Some key ->
    perModel w u key = wrap64 (Z.of_nat (size (modelKindSet f u w))).

Lemma PInv_init : PInv newWatcherState.
Proof.
  intros f key u _. unfold perModel, modelKindSet. cbn [models entities newWatcherState].
  rewrite lookup_empty, dom_empty_L.
  replace (filter (fun id : EntityId => Kind id = statKind f /\ ModelUUID id = u)
             (∅ : gset EntityId)) with (∅ : gset EntityId) by set_solver.
  reflexivity.
Qed.

Lemma PInv_step ds w d : Inv ds w -> PInv w -> PInv (addDelta w d).
Proof.
  intros [_ Hdom _ _] HP f key u Hkey.
  rewrite addDelta_perModel.
  destruct (counterOf (Entity d)) as [f0|] eqn:Hf0;
    [|rewrite (addDelta_uncounted w d Hf0); by apply HP].
  pose proof (proj2 (counterOf_kind _ _) Hf0) as Hk.
  destruct (addDelta_counted w d f0 Hf0) as [He _].
  unfold modelKindSet. rewrite He. cbn zeta. rewrite adjustCount_diff.
  set (id := entityId (Entity d)) in *.
  set (P := fun i : EntityId => Kind i = statKind f /\ ModelUUID i = u).
  assert (P id <-> u = ModelUUID id /\ countKey f0 = Some key) as HPid.
  { unfold P. split.
    - intros [Hkf <-]. split; [reflexivity|].
      assert (f = f0) as -> by (apply statKind_inj; congruence). exact Hkey.
    - intros [-> Hk0]. split; [|reflexivity].
      rewrite (countKey_inj f f0 key Hkey Hk0). exact Hk. }
  destruct (adjustCount_cases w f0 d) as
    [(Hr & Hl & He' & _)|[(Hr & Hl & He' & _)|(Hr & He' & _)]];
    fold id in Hl, He' || fold id in He'; rewrite He'.
  - rewrite Hr, Hl. apply lookup_true_dom in Hl.
    rewrite dom_delete_L, (size_filter_delete P _ id Hl).
    change (filter P (dom (entities w))) with (modelKindSet f u w).
    destruct (decide (P id)) as [Hp|Hp].
    + rewrite decide_True by (split; [|split]; [apply HPid, Hp..|lia]).
      rewrite (HP f key u Hkey). unfold add64. rewrite wrap64_add_l. f_equal.
      assert (size (modelKindSet f u w) <> 0%nat).
      { apply size_non_empty_iff. unfold modelKindSet. set_solver. }
      lia.
    + rewrite decide_False by (intros (? & ? & _); apply Hp, HPid; auto).
      by apply HP.
  - rewrite Hr, Hl.
    assert (id ∉ dom (entities w)) as Hni.
    { intros Hin. apply Hdom in Hin. congruence. }
    rewrite dom_insert_L, (size_filter_insert P _ id Hni).
    change (filter P (dom (entities w))) with (modelKindSet f u w).
    destruct (decide (P id)) as [Hp|Hp].
    + rewrite decide_True by (split; [|split]; [apply HPid, Hp..|lia]).
      rewrite (HP f key u Hkey). unfold add64. rewrite wrap64_add_l. f_equal. lia.
    + rewrite decide_False by (intros (? & ? & _); apply Hp, HPid; auto).
      by apply HP.
  - rewrite Hr.
    rewrite decide_False; [by apply HP|].
    intros (_ & _ & Hd). subst id. destruct (entitiesLookup w _); simpl in Hd; lia.
Qed.

Lemma PInv_addDeltas ds : PInv (addDeltas newWatcherState ds).
Proof.
  induction ds as [|d ds IH] using rev_ind; [apply PInv_init|].
  unfold addDeltas. rewrite foldl_app. simpl.
  apply (PInv_step ds); [apply Inv_addDeltas|exact IH].
Qed.

(** Two states with the same known entities, statistics and per-model
    counts stay so under the reducer: the change masks, the runner and the
    [changed] flag do not feed back into them. *)
Definition sameCore (w1 w2 : watcherState) : Prop :=
  entities w1 = entities w2 /\ stats w1 = stats w2 /\
  forall u key, perModel w1 u key = perModel w2 u key.

Lemma addDelta_sameCore w1 w2 d : sameCore w1 w2 -> sameCore (addDelta w1 d) (addDelta w2 d).
Proof.
  intros (He & Hs & Hp). destruct (addDelta_core w1 w2 d He Hs) as [He' Hs'].
  split; [exact He'|]. split; [exact Hs'|].
  intros u key. rewrite !addDelta_perModel.
  destruct (counterOf (Entity d)) as [f|]; [|apply Hp].
  cbn zeta. rewrite !adjustCount_diff. unfold entitiesLookup. rewrite He, Hp.
  reflexivity.
Qed.

Lemma addDeltas_sameCore ds : forall w1 w2,
  sameCore w1 w2 -> sameCore (addDeltas w1 ds) (addDeltas w2 ds).
Proof.
  induction ds as [|d ds IH]; intros w1 w2 H; [exact H|].
  apply IH, addDelta_sameCore, H.
Qed.

Lemma watchBatch_sameCore w b : sameCore (watchBatch w b).1 (addDeltas w b).
Proof.
  unfold watchBatch. cbn [fst].
  set (w0 := mkWatcherState [] (entities w) false (stats w) (models w)).
  assert (sameCore (addDeltas w0 b) (addDeltas w b)) as (He & Hs & Hp).
  { apply addDeltas_sameCore. repeat split. }
  split; [exact He|]. split; [exact Hs|].
  intros u key. rewrite <- Hp. unfold perModel. cbn [models].
  rewrite lookup_fmap. destruct (models (addDeltas w0 b) !! u); reflexivity.
Qed.

Lemma watchBatches_sameCore bs : forall w,
  sameCore (watchBatches w bs).1 (addDeltas w (concat bs)).
Proof.
  induction bs as [|b bs IH]; intros w; [repeat split|].
  change (watchBatches w (b :: bs)) with
    (let '(w1, ops1) := watchBatch w b in
     let '(w2, ops2) := watchBatches w1 bs in (w2, ops1 ++ ops2)).
  pose proof (watchBatch_sameCore w b) as Hb.
  destruct (watchBatch w b) as [w1 ops1]. cbn [fst] in Hb.
  specialize (IH w1). destruct (watchBatches w1 bs) as [w2 ops2]. cbn [fst] in *.
  change (concat (b :: bs)) with (b ++ concat bs).
  unfold addDeltas at 1. rewrite foldl_app.
  fold (addDeltas w b). fold (addDeltas (addDeltas w b) (concat bs)).
  pose proof (addDeltas_sameCore (concat bs) w1 (addDeltas w b) Hb) as Hc.
  destruct IH as (E1 & S1 & P1), Hc as (E2 & S2 & P2).
  repeat split; [congruence..|]. intros u key. by rewrite P1, P2.
Qed.

(** X1. While the monitor works through the batches of a session (of
    fewer than 2^63 deltas in all), the count it keeps for a model under
    the key of units, machines or applications equals the number of
    distinct entities of that kind and model that appeared in a
    non-removed delta and were not removed afterwards; a model without
    an entry counts as 0. *)
Theorem per_model_counts_exact (bs : list (list Delta)) (f : StatField)
    (key u : string) :
  Z.of_nat (length (concat bs)) <= maxInt64 ->
  countKey f = Some key ->
  exists S : gset EntityId,
    (forall id, id ∈ S <->
                Kind id = statKind f /\ ModelUUID id = u /\ liveIn (concat bs) id) /\
    perModel (watchBatches newWatcherState bs).1 u key = Z.of_nat (size S).
Proof.
  intros Hlen Hkey.
  destruct (watchBatches_sameCore bs newWatcherState) as (_ & _ & Hp).
  rewrite Hp. set (ds := concat bs) in *.
  destruct (Inv_addDeltas ds) as [Hlive Hdom _ Hsize].
  pose proof (PInv_addDeltas ds f key u Hkey) as Hc.
  set (w := addDeltas newWatcherState ds) in *.
  exists (modelKindSet f u w). split.
  - intros id. unfold modelKindSet. rewrite elem_of_filter. split.
    + intros [[Hk Hu] Hin]. apply Hdom in Hin. apply Hlive in Hin. tauto.
    + intros (Hk & Hu & Hl). split; [tauto|].
      apply lookup_true_dom, Hlive. split; [exact Hl|by exists f].
  - rewrite Hc. apply wrap64_id.
    assert (size (modelKindSet f u w) <= size (dom (entities w)))%nat.
    { apply subseteq_size. unfold modelKindSet. set_solver. }
    unfold inRange, minInt64, maxInt64 in *. lia.
Qed.

Definition session0 : list (list Delta) :=
  [[d_unit "m1" "a/0"; d_unit "m2" "b/0"]; [d_unit "m1" "a/1"; d_rm_unit "m1" "a/0"]].

Lemma per_model_counts_exact_witness :
  exists S : gset EntityId,
    (forall id, id ∈ S <->
                Kind id = statKind FUnitCount /\ ModelUUID id = "m1" /\
                liveIn (concat session0) id) /\
    perModel (watchBatches newWatcherState session0).1 "m1" paramsUnitCount
      = Z.of_nat (size S).
Proof.
  refine (per_model_counts_exact session0 FUnitCount paramsUnitCount "m1" _ eq_refl).
  vm_compute. discriminate.
Defined.

Example session0_counts :
  perModel (watchBatches newWatcherState session0).1 "m1" paramsUnitCount = 1 /\
  perModel (watchBatches newWatcherState session0).1 "m2" paramsUnitCount = 1 /\
  perModel (watchBatches newWatcherState session0).1 "m3" paramsUnitCount = 0.
Proof. vm_compute. repeat split. Qed.

(** *** What a batch hands to the runner *)

(** The deltas [addDelta] passes on to [UpdateMachineInfo]. *)
Definition isMachine (d : Delta) : bool :=
  match Entity d with
  | MachineInfo _ _ => true
  | _ => false
  end.

Definition machineOps (ds : list Delta) : list DBOp :=
  (fun d => UpdateMachineInfo (Entity d)) <$> filter (fun d => isMachine d = true) ds.

(** The model a flush operation is about. *)
Definition opModel (op : DBOp) : option string :=
  match op with
  | SetModelLife u _ => Some u
  | UpdateModelCounts u _ => Some u
  | _ => None
  end.

Definition modelOps (u : string) (ops : list DBOp) : list DBOp :=
  filter (fun op => opModel op = Some u) ops.

Lemma adjustCount_runner w f d : runner (adjustCount w f d).1 = runner w.
Proof. unfold adjustCount. destruct (Removed d), (entitiesLookup w _); reflexivity. Qed.

Lemma getModelInfo_frame w u :
  runner (getModelInfo w u).1 = runner w /\
  wchanged (getModelInfo w u).1 = wchanged w.
Proof. unfold getModelInfo. destruct (models w !! u); split; reflexivity. Qed.

Lemma addDelta_frame w d :
  runner (addDelta w d) =
    runner w ++ (if isMachine d then [UpdateMachineInfo (Entity d)] else []) /\
  wchanged (addDelta w d) =
    match counterOf (Entity d) with
    | Some f => wchanged (adjustCount w f d).1
    | None => wchanged w
    end.
Proof.
  unfold addDelta, isMachine.
  destruct (Entity d) as [u l|u n|u n|u i|k u i] eqn:He; cbn [counterOf];
    [| | | |by rewrite app_nil_r];
    (match goal with
     | |- context [adjustCount w ?f d] =>
         pose proof (adjustCount_runner w f d) as Hr;
         destruct (adjustCount w f d) as [w1 diff]
     end);
    cbn [fst] in *;
    destruct (getModelInfo_frame w1 u) as [Hr2 Hc2];
    destruct (getModelInfo w1 u) as [w2 info]; cbn [fst] in *;
    unfold runnerDo, putModelInfo; cbn [runner wchanged];
    rewrite ?app_nil_r; split; congruence.
Qed.

Lemma addDeltas_runner ds : forall w,
  runner (addDeltas w ds) = runner w ++ machineOps ds.
Proof.
  induction ds as [|d ds IH]; intros w; [by rewrite app_nil_r|].
  change (addDeltas w (d :: ds)) with (addDeltas (addDelta w d) ds).
  rewrite IH. destruct (addDelta_frame w d) as [-> _]. unfold machineOps.
  rewrite filter_cons. destruct (isMachine d) eqn:E.
  - rewrite decide_True by done. rewrite fmap_cons, <- app_assoc. reflexivity.
  - rewrite decide_False by done. by rewrite app_nil_r.
Qed.

Lemma flushModel_opModel u info op : op ∈ flushModel u info -> opModel op = Some u.
Proof.
  unfold flushModel. intros H. apply elem_of_app in H as [H|H].
  - destruct (Z.eqb _ 0); [by apply elem_of_nil in H|].
    apply list_elem_of_singleton in H. by subst.
  - destruct (Z.eqb _ 0); [by apply elem_of_nil in H|].
    apply list_elem_of_singleton in H. by subst.
Qed.

(** The operations of the flush are about models of the map. *)
Lemma flush_elem (m : gmap string modelInfo) op :
  op ∈ concat (map (fun '(u, info) => flushModel u info) (map_to_list m)) ->
  exists u info, m !! u = Some info /\ op ∈ flushModel u info.
Proof.
  intros H. apply list_elem_of_In, in_concat in H as (l & Hl & Hop).
  apply in_map_iff in Hl as ([u info] & <- & Hin).
  exists u, info. split; [|by apply list_elem_of_In].
  by apply elem_of_map_to_list, list_elem_of_In.
Qed.

(** X3. The operations a batch gives to the runner begin with one
    [UpdateMachineInfo] for every machine delta of the batch, in the order
    of the deltas, whether the delta is a removal or a change and whether
    the machine was known or not; no other operation of the batch is a
    machine update. *)
Theorem machine_updates_follow_deltas (w : watcherState) (b : list Delta) :
  exists rest,
    (watchBatch w b).2 = machineOps b ++ rest /\
    forall e, UpdateMachineInfo e ∉ rest.
Proof.
  unfold watchBatch. cbn [snd]. rewrite addDeltas_runner. cbn [runner app].
  eexists. split; [reflexivity|].
  intros e Hin. apply elem_of_app in Hin as [Hin|Hin].
  - destruct (wchanged _); [|by apply elem_of_nil in Hin].
    apply list_elem_of_singleton in Hin. discriminate Hin.
  - apply flush_elem in Hin as (u & info & _ & Hin).
    apply flushModel_opModel in Hin. discriminate Hin.
Qed.

Lemma adjustCount_quiet w f d :
  wchanged (adjustCount w f d).1 = false ->
  wchanged w = false /\
  entities (adjustCount w f d).1 = entities w /\
  stats (adjustCount w f d).1 = stats w.
Proof.
  unfold adjustCount.
  destruct (Removed d), (entitiesLookup w _); cbn; intros H;
    try discriminate H; auto.
Qed.

Lemma addDelta_quiet w d :
  wchanged (addDelta w d) = false ->
  wchanged w = false /\
  entities (addDelta w d) = entities w /\ stats (addDelta w d) = stats w.
Proof.
  destruct (addDelta_frame w d) as [_ Hc].
  destruct (counterOf (Entity d)) as [f|] eqn:Hf.
  - destruct (addDelta_counted w d f Hf) as [-> ->]. rewrite Hc.
    apply adjustCount_quiet.
  - rewrite (addDelta_uncounted w d Hf). auto.
Qed.

Lemma addDeltas_quiet ds : forall w,
  wchanged (addDeltas w ds) = false ->
  wchanged w = false /\
  entities (addDeltas w ds) = entities w /\ stats (addDeltas w ds) = stats w.
Proof.
  induction ds as [|d ds IH]; intros w H; [auto|].
  change (addDeltas w (d :: ds)) with (addDeltas (addDelta w d) ds) in *.
  destruct (IH _ H) as (H1 & -> & ->).
  apply addDelta_quiet, H1.
Qed.

(** X4. A batch writes the controller statistics at most in the form
    they have at the end of the batch, and it writes them whenever a
    delta of the batch changed the known entities: if no
    [SetControllerStats] is among the operations, the statistics and the
    known-entity set are what they were before the batch. *)
Theorem stats_written_when_changed (w : watcherState) (b : list Delta) :
  (forall s, SetControllerStats s ∈ (watchBatch w b).2 ->
             s = stats (watchBatch w b).1) /\
  (SetControllerStats (stats (watchBatch w b).1) ∈ (watchBatch w b).2 \/
   (stats (watchBatch w b).1 = stats w /\
    entities (watchBatch w b).1 = entities w)).
Proof.
  unfold watchBatch. cbn [fst snd stats entities].
  set (w0 := mkWatcherState [] (entities w) false (stats w) (models w)).
  split.
  - intros s Hin. rewrite addDeltas_runner in Hin. cbn [runner app] in Hin.
    apply elem_of_app in Hin as [Hin|Hin].
    { unfold machineOps in Hin. apply list_elem_of_fmap in Hin as (d & Hd & _).
      discriminate Hd. }
    apply elem_of_app in Hin as [Hin|Hin].
    + destruct (wchanged _); [|by apply elem_of_nil in Hin].
      apply list_elem_of_singleton in Hin. by injection Hin.
    + apply flush_elem in Hin as (u & info & _ & Hin).
      apply flushModel_opModel in Hin. discriminate Hin.
  - destruct (wchanged (addDeltas w0 b)) eqn:Hc.
    + left. apply elem_of_app. right. apply elem_of_app. left.
      apply list_elem_of_here.
    + right. destruct (addDeltas_quiet b w0 Hc) as (_ & He & Hs).
      split; [exact Hs|exact He].
Qed.

Lemma addDelta_models_other w d u :
  (counterOf (Entity d) <> None -> ModelUUID (entityId (Entity d)) <> u) ->
  models (addDelta w d) !! u = models w !! u.
Proof.
  intros H. pose proof (addDelta_models w d) as Hm.
  destruct (counterOf (Entity d)); [|by rewrite Hm].
  destruct Hm as (upd & _ & Hm). cbn zeta in Hm. rewrite Hm.
  apply lookup_insert_ne. by apply H.
Qed.

Lemma addDeltas_models_other ds : forall w u,
  (forall d, d ∈ ds -> counterOf (Entity d) <> None ->
             ModelUUID (entityId (Entity d)) <> u) ->
  models (addDeltas w ds) !! u = models w !! u.
Proof.
  induction ds as [|d ds IH]; intros w u H; [reflexivity|].
  change (addDeltas w (d :: ds)) with (addDeltas (addDelta w d) ds).
  rewrite IH by (intros d' Hd'; apply H; by apply list_elem_of_further).
  apply addDelta_models_other, H, list_elem_of_here.
Qed.

(** X5. Once a batch has been flushed, a later batch issues no
    [SetModelLife] and no [UpdateModelCounts] for a model that none of
    its model, unit, application or machine deltas belongs to. *)
Theorem untouched_model_not_flushed (w0 : watcherState) (b0 b : list Delta)
    (u : string) :
  (forall d, d ∈ b -> counterOf (Entity d) <> None ->
             ModelUUID (entityId (Entity d)) <> u) ->
  modelOps u (watchBatch (watchBatch w0 b0).1 b).2 = [].
Proof.
  intros Hb. set (w1 := (watchBatch w0 b0).1).
  assert (forall info, models w1 !! u = Some info -> changed info = 0) as Hclean.
  { intros info. unfold w1, watchBatch. cbn [fst models]. rewrite lookup_fmap.
    destruct (models _ !! u); [|discriminate]. cbn. by intros [= <-]. }
  apply elem_of_nil_inv. intros op Hop.
  unfold modelOps in Hop. apply list_elem_of_filter in Hop as [Hu Hop].
  unfold watchBatch in Hop. cbn [snd] in Hop.
  set (w2 := mkWatcherState [] (entities w1) false (stats w1) (models w1)) in Hop.
  rewrite addDeltas_runner in Hop. cbn [runner app] in Hop.
  apply elem_of_app in Hop as [Hop|Hop].
  { unfold machineOps in Hop. apply list_elem_of_fmap in Hop as (d & -> & _).
    discriminate Hu. }
  apply elem_of_app in Hop as [Hop|Hop].
  { destruct (wchanged _); [|by apply elem_of_nil in Hop].
    apply list_elem_of_singleton in Hop. subst op. discriminate Hu. }
  apply flush_elem in Hop as (u' & info & Hi & Hop).
  pose proof (flushModel_opModel _ _ _ Hop) as Hu'.
  rewrite Hu in Hu'. injection Hu' as <-.
  rewrite (addDeltas_models_other b w2 u Hb) in Hi. cbn [models w2] in Hi.
  apply Hclean in Hi. unfold flushModel in Hop. rewrite Hi in Hop.
  cbn in Hop. by apply elem_of_nil in Hop.
Qed.

Lemma untouched_model_not_flushed_witness :
  modelOps "m1"
    (watchBatch (watchBatch newWatcherState [d_unit "m1" "a/0"]).1
       [d_unit "m2" "b/0"]).2 = [].
Proof.
  apply (untouched_model_not_flushed newWatcherState [d_unit "m1" "a/0"]
           [d_unit "m2" "b/0"] "m1").
  intros d Hd _. apply list_elem_of_singleton in Hd. subst d. discriminate.
Defined.

(** *** The life recorded for a model *)

Definition lifeOf (w : watcherState) (u : string) : option string :=
  life <$> models w !! u.

(** The model deltas of model [u]. *)
Definition isModelOf (u : string) (d : Delta) : bool :=
  match Entity d with
  | ModelInfo u' _ => String.eqb u' u
  | _ => false
  end.

Lemma setLife_life info l : life (setLife info l) = l.
Proof.
  unfold setLife. destruct (String.eqb_spec l (life info)); [by subst|reflexivity].
Qed.

Lemma infoAdjustCount_life info k n : life (infoAdjustCount info k n) = life info.
Proof. unfold infoAdjustCount. destruct (Z.eqb n 0); reflexivity. Qed.

Lemma addDelta_lifeOf w d u :
  lifeOf (addDelta w d) u =
  match Entity d with
  | ModelInfo u' l =>
      if decide (u' = u) then Some (if Removed d then "dead" else l) else lifeOf w u
  | UnitInfo u' _ | ApplicationInfo u' _ | MachineInfo u' _ =>
      if decide (u' = u) then Some (default "" (lifeOf w u)) else lifeOf w u
  | OtherInfo _ _ _ => lifeOf w u
  end.
Proof.
  unfold addDelta.
  destruct (Entity d) as [u' l|u' n|u' n|u' i|k u' i] eqn:He; [| | | |reflexivity];
    (match goal with
     | |- context [adjustCount w ?f d] =>
         pose proof (adjustCount_models w f d) as Hm;
         destruct (adjustCount w f d) as [w1 diff]
     end);
    cbn [fst] in Hm;
    destruct (getModelInfo_spec w1 u') as (H1 & _ & H3);
    destruct (getModelInfo w1 u') as [w2 info]; cbn [fst snd] in *;
    unfold lifeOf, runnerDo, putModelInfo; cbn [models]; rewrite H3, Hm;
    (case_decide as Hu;
     [subst u'; rewrite lookup_insert_eq; cbn [fmap option_fmap option_map];
      rewrite ?setLife_life, ?infoAdjustCount_life, ?H1, ?Hm;
      destruct (models w !! u); reflexivity
     |by rewrite lookup_insert_ne]).
Qed.

Lemma addDelta_sameLife w1 w2 d u :
  lifeOf w1 u = lifeOf w2 u -> lifeOf (addDelta w1 d) u = lifeOf (addDelta w2 d) u.
Proof. intros H. rewrite !addDelta_lifeOf, H. reflexivity. Qed.

Lemma addDeltas_sameLife ds u : forall w1 w2,
  lifeOf w1 u = lifeOf w2 u -> lifeOf (addDeltas w1 ds) u = lifeOf (addDeltas w2 ds) u.
Proof.
  induction ds as [|d ds IH]; intros w1 w2 H; [exact H|].
  apply IH, addDelta_sameLife, H.
Qed.

Lemma watchBatch_lifeOf w b u : lifeOf (watchBatch w b).1 u = lifeOf (addDeltas w b) u.
Proof.
  unfold watchBatch. cbn [fst].
  set (w0 := mkWatcherState [] (entities w) false (stats w) (models w)).
  rewrite <- (addDeltas_sameLife b u w0 w eq_refl).
  unfold lifeOf. cbn [models]. rewrite lookup_fmap.
  destruct (models (addDeltas w0 b) !! u); reflexivity.
Qed.

Lemma watchBatches_lifeOf bs u : forall w,
  lifeOf (watchBatches w bs).1 u = lifeOf (addDeltas w (concat bs)) u.
Proof.
  induction bs as [|b bs IH]; intros w; [reflexivity|].
  change (watchBatches w (b :: bs)) with
    (let '(w1, ops1) := watchBatch w b in
     let '(w2, ops2) := watchBatches w1 bs in (w2, ops1 ++ ops2)).
  pose proof (watchBatch_lifeOf w b u) as Hb.
  destruct (watchBatch w b) as [w1 ops1]. cbn [fst] in Hb.
  specialize (IH w1). destruct (watchBatches w1 bs) as [w2 ops2]. cbn [fst] in *.
  change (concat (b :: bs)) with (b ++ concat bs).
  unfold addDeltas at 1. rewrite foldl_app.
  fold (addDeltas w b). fold (addDeltas (addDeltas w b) (concat bs)).
  rewrite IH. by apply addDeltas_sameLife.
Qed.

Lemma addDeltas_life_kept ds u x : forall w,
  (forall d, d ∈ ds -> isModelOf u d = false) ->
  lifeOf w u = Some x -> lifeOf (addDeltas w ds) u = Some x.
Proof.
  induction ds as [|d ds IH]; intros w Hno Hw; [exact Hw|].
  change (addDeltas w (d :: ds)) with (addDeltas (addDelta w d) ds).
  apply IH; [intros d' Hd'; apply Hno; by apply list_elem_of_further|].
  rewrite addDelta_lifeOf.
  pose proof (Hno d (list_elem_of_here _ _)) as Hd. unfold isModelOf in Hd.
  destruct (Entity d) as [u' l|u' n|u' n|u' i|k u' i]; try exact Hw;
    case_decide as Hu; try exact Hw; try (by rewrite Hw).
  subst u'. by rewrite String.eqb_refl in Hd.
Qed.

(** X2. The life the monitor holds for a model is the one the last model
    delta for that model carried, or "dead" if that delta was a removal,
    whatever deltas of other kinds or other models came after it and
    however the deltas were split into batches. *)
Theorem model_life_follows_last_model_delta (w : watcherState)
    (bs : list (list Delta)) (ds1 ds2 : list Delta) (r : bool) (u l : string) :
  concat bs = ds1 ++ mkDelta r (ModelInfo u l) :: ds2 ->
  (forall d, d ∈ ds2 -> isModelOf u d = false) ->
  lifeOf (watchBatches w bs).1 u = Some (if r then "dead" else l).
Proof.
  intros Hbs Hno. rewrite watchBatches_lifeOf, Hbs.
  unfold addDeltas. rewrite foldl_app. cbn [foldl].
  apply (addDeltas_life_kept ds2 u _ _ Hno).
  rewrite addDelta_lifeOf. cbn [Entity Removed]. by rewrite decide_True.
Qed.

Lemma model_life_follows_last_model_delta_witness :
  lifeOf (watchBatches newWatcherState
            [[d_model "m1" "alive"; d_unit "m1" "a/0"];
             [mkDelta true (ModelInfo "m1" "dying"); d_unit "m1" "a/1"]]).1 "m1"
  = Some "dead".
Proof.
  refine (model_life_follows_last_model_delta newWatcherState
            [[d_model "m1" "alive"; d_unit "m1" "a/0"];
             [mkDelta true (ModelInfo "m1" "dying"); d_unit "m1" "a/1"]]
            [d_model "m1" "alive"; d_unit "m1" "a/0"] [d_unit "m1" "a/1"]
            true "m1" "dying" eq_refl _).
  intros d Hd. apply list_elem_of_singleton in Hd. by subst d.
Defined.

End ReducerFacts.

Module LeaseLoopFacts.
Import GoInt Monitor.

(** A call of [AcquireMonitorLease] as the lease manager sees it, with
    the answer it gave. *)
Record Call := mkCall {
  cPath : string;
  cOldExpiry : Time;
  cOldOwner : string;
  cNewExpiry : Time;
  cNewOwner : string;
  cResult : Time + LeaseError
}.

Section Logged.

Variable d : Duration.
Variable J : Type.
Variable Acq : J -> string -> Time -> string -> Time -> string -> (Time + LeaseError) * J.

(** The lease manager [Acq], recording the calls made to it. *)
Definition logged (jl : J * list Call) (path : string) (oldExpiry : Time)
    (oldOwner : string) (newExpiry : Time) (newOwner : string)
  : (Time + LeaseError) * (J * list Call) :=
  let '(r, j') := Acq jl.1 path oldExpiry oldOwner newExpiry newOwner in
  (r, (j', jl.2 ++ [mkCall path oldExpiry oldOwner newExpiry newOwner r])).

(** A well-formed sequence of calls for the monitor of [path] owned by
    [owner], starting from the expiry [e]: every call presents the expiry
    the previous call returned and the monitor's own name as the old
    owner; it asks for the lease under the same name, or under no name,
    and then it is the last call; after a refusal there is no further
    call. *)
Fixpoint chain (path owner : string) (e : Time) (log : list Call) : Prop :=
  match log with
  | [] => True
  | c :: rest =>
      cPath c = path /\ cOldExpiry c = e /\ cOldOwner c = owner /\
      (cNewOwner c = owner \/ (cNewOwner c = "" /\ rest = [])) /\
      match cResult c with
      | inl t => chain path owner t rest
      | inr _ => rest = []
      end
  end.

Lemma logged_eq j log path oe oo ne no :
  logged (j, log) path oe oo ne no =
  ((Acq j path oe oo ne no).1,
   ((Acq j path oe oo ne no).2,
    log ++ [mkCall path oe oo ne no (Acq j path oe oo ne no).1])).
Proof. unfold logged. cbn [fst snd]. by destruct (Acq j path oe oo ne no). Qed.

Lemma leaseUpdater_log events : forall m now j log,
  exists log',
    (leaseUpdater d (J * list Call) logged events m now (j, log)).2.2 = log ++ log' /\
    chain (ctlPath m) (ownerId m) (leaseExpiry m) log'.
Proof.
  induction events as [|ev events IH]; intros m now j log.
  - exists []. cbn. by rewrite app_nil_r.
  - destruct ev as [|t]; cbn [leaseUpdater]; unfold renewLease, acquireLease;
      rewrite logged_eq.
    + destruct (Acq j (ctlPath m) (leaseExpiry m) (ownerId m)
                  (timeAdd (wakeTime d m now) d) (ownerId m)) as [[t|e] j'] eqn:Ha;
        cbn [fst snd].
      * destruct (IH (mkMonitor t (ctlPath m) (ownerId m)) (wakeTime d m now) j'
                    (log ++ [mkCall (ctlPath m) (leaseExpiry m) (ownerId m)
                               (timeAdd (wakeTime d m now) d) (ownerId m) (inl t)]))
          as (log' & Hl & Hc).
        eexists (_ :: log'). rewrite Hl, <- app_assoc. split; [reflexivity|].
        cbn. auto 10.
      * eexists [_]. split; [destruct e; reflexivity|]. cbn. auto 10.
    + destruct (Acq j (ctlPath m) (leaseExpiry m) (ownerId m) (timeAdd t d) "")
        as [[t'|e] j'] eqn:Ha; cbn [fst snd].
      * eexists [_]. split; [reflexivity|]. cbn. auto 10.
      * eexists [_]. split; [destruct e; reflexivity|]. cbn. auto 10.
Qed.

End Logged.

(** X6. Whatever the lease manager answers, the calls the lease loop
    makes to it form a chain: each call is for the monitor's controller,
    names the monitor as the old owner and presents as the old expiry the
    time the previous call returned (the initial expiry for the first);
    a call either renews under the monitor's name or, when the monitor is
    dying, drops the lease by asking for it under no name, and the drop
    is the last call; after a refusal the loop makes no further call. *)
Theorem lease_calls_form_a_chain (d : Duration) (J : Type)
    (Acq : J -> string -> Time -> string -> Time -> string -> (Time + LeaseError) * J)
    (events : list LeaseEvent) (m : controllerMonitor) (now : Time) (j : J) :
  chain (ctlPath m) (ownerId m) (leaseExpiry m)
    (leaseUpdater d (J * list Call) (logged J Acq) events m now (j, [])).2.2.
Proof.
  destruct (leaseUpdater_log d J Acq events m now j []) as (log' & -> & Hc).
  exact Hc.
Qed.

(** X7. The lease loop keeps the monitor's controller path and owner
    name; it ends only when the tomb is dying or a renewal is refused;
    and the error it ends with never has the cause [params.ErrNotFound]:
    a controller that is gone is reported as [errControllerRemoved], the
    cause [isMonitoringStoppedError] looks for. *)
Theorem lease_loop_exit (d : Duration) (J : Type)
    (Acq : J -> string -> Time -> string -> Time -> string -> (Time + LeaseError) * J)
    (events : list LeaseEvent) (m : controllerMonitor) (now : Time) (j : J) :
  ctlPath (leaseUpdater d J Acq events m now j).1.1.2 = ctlPath m /\
  ownerId (leaseUpdater d J Acq events m now j).1.1.2 = ownerId m /\
  match (leaseUpdater d J Acq events m now j).1.1.1 with
  | Some ExitDying => exists t, TombDying t ∈ events
  | Some (ExitCannotDrop e) => e <> ErrNotFound /\ exists t, TombDying t ∈ events
  | Some (ExitCannotRenew e) => e <> ErrNotFound
  | None => forall t, TombDying t ∉ events
  end.
Proof.
  revert m now j. induction events as [|ev events IH]; intros m now j.
  - cbn. repeat split. intros t H. by apply elem_of_nil in H.
  - destruct ev as [|t]; cbn [leaseUpdater]; unfold renewLease, acquireLease.
    + (* the timer fired: a renewal *)
      destruct (Acq j (ctlPath m) (leaseExpiry m) (ownerId m)
                  (timeAdd (wakeTime d m now) d) (ownerId m)) as [[t|e] j'].
      * specialize (IH (mkMonitor t (ctlPath m) (ownerId m)) (wakeTime d m now) j').
        destruct IH as (Hp & Ho & Hx).
        split; [exact Hp|]. split; [exact Ho|].
        destruct (leaseUpdater _ _ _ _ _ _ _).1.1.1 as [[|e|e]|].
        -- destruct Hx as [t' Ht']. exists t'. by apply list_elem_of_further.
        -- destruct Hx as [He [t' Ht']]. split; [exact He|].
           exists t'. by apply list_elem_of_further.
        -- exact Hx.
        -- intros t' Ht'. apply elem_of_cons in Ht' as [Ht'|Ht'];
             [discriminate Ht'|]. by apply (Hx t').
      * destruct e; cbn; repeat split; discriminate.
    + (* the tomb is dying: the lease is dropped *)
      destruct (Acq j (ctlPath m) (leaseExpiry m) (ownerId m) (timeAdd t d) "")
        as [[t'|e] j'].
      * cbn. repeat split. exists t. apply list_elem_of_here.
      * destruct e; cbn; repeat split; try discriminate;
          exists t; apply list_elem_of_here.
Qed.

End LeaseLoopFacts.

Module WatcherMoreFacts.
Import Watcher WatcherFacts.

(** [handleDelta] by the dynamic type of the entity, once the model's ID
    has been looked up. *)
Lemma handleDelta_shape db ctl ids d :
  let mid := (modelIDf db ctl ids (ModelUUID (entityId (Entity d)))).1 in
  let ids' := (modelIDf db ctl ids (ModelUUID (entityId (Entity d)))).2 in
  handleDelta db ctl ids d =
  if N.eqb mid 0 then (db, ids', None)
  else
    match Entity d with
    | ApplicationInfo _ n info =>
        (setApplications db
           (if Removed d then delete (mid, n) (applications db)
            else <[(mid, n) := info]> (applications db)), ids', None)
    | MachineInfo _ i info =>
        (setMachines db
           (if Removed d then delete (mid, i) (machines db)
            else <[(mid, i) := info]> (machines db)), ids', None)
    | UnitInfo _ n info =>
        (setUnits db
           (if Removed d then delete (mid, n) (units db)
            else <[(mid, n) := info]> (units db)), ids', None)
    | ModelUpdate _ name life =>
        let r := if Removed d then deleteModel db (byID mid)
                 else updateModel db (byID mid) name life in
        (r.1, ids', r.2)
    | OtherInfo _ _ _ => (db, ids', None)
    end.
Proof.
  unfold handleDelta, byID.
  destruct (Entity d) as [u n i|u n i|u n l|u n i|k u i]; cbn [entityId ModelUUID Kind Id];
    destruct (modelIDf db ctl ids u) as [modelID ids']; cbn [fst snd];
    destruct (N.eqb modelID 0); try reflexivity;
    try (destruct k); cbn [otherKindName String.eqb Ascii.eqb Bool.eqb];
    destruct (Removed d); try reflexivity.
  - by destruct (deleteModel _ _).
  - by destruct (updateModel _ _ _ _).
Qed.

Lemma deleteModel_frame db m :
  sameOtherTables db (deleteModel db m).1.
Proof.
  unfold deleteModel, sameOtherTables.
  destruct (GetModel db m) as [r|e].
  - destruct (String.eqb (Life r) "dying"); cbn; auto.
  - destruct (decide (e = CodeNotFound)); [|cbn; auto].
    destruct (String.eqb (Life m) "dying"); cbn; auto.
Qed.

Lemma updateModel_frame db m name life :
  sameOtherTables db (updateModel db m name life).1.
Proof.
  unfold updateModel, sameOtherTables.
  destruct (GetModel db m) as [r|e]; [cbn; auto|].
  destruct (decide (e = CodeNotFound)); cbn; auto.
Qed.

Lemma handleDelta_controllers db ctl ids d :
  controllers (handleDelta db ctl ids d).1.1 = controllers db.
Proof.
  rewrite handleDelta_shape. cbn zeta.
  destruct (N.eqb _ 0); [reflexivity|].
  destruct (Entity d) as [u n i|u n i|u n l|u n i|k u i]; try reflexivity.
  cbn [fst]. destruct (Removed d).
  - apply (deleteModel_frame db _).
  - apply (updateModel_frame db _ n l).
Qed.

Lemma handleDeltas_controllers ctl ds : forall db ids,
  controllers (handleDeltas db ctl ids ds).1.1 = controllers db.
Proof.
  induction ds as [|d ds IH]; intros db ids; cbn [handleDeltas]; [reflexivity|].
  pose proof (handleDelta_controllers db ctl ids d) as Hd.
  destruct (handleDelta db ctl ids d) as [[db1 ids1] [e|]]; cbn [fst] in *;
    [exact Hd|]. by rewrite IH.
Qed.

Lemma watchLoop_controllers ctl bs e : forall db ids,
  controllers (watchLoop db ctl ids bs e).1 = controllers db.
Proof.
  induction bs as [|b bs IH]; intros db ids; cbn [watchLoop]; [reflexivity|].
  pose proof (handleDeltas_controllers ctl b db ids) as Hb.
  destruct (handleDeltas db ctl ids b) as [[db1 ids1] [e1|]]; cbn [fst] in *;
    [exact Hb|]. by rewrite IH.
Qed.

(** X8. A whole session of [watchController], from the dial to the
    error that ends it, writes the controllers table in one case only:
    when the dial fails and the controller is not yet marked
    unavailable, its row is saved with [UnavailableSince] set to the
    time of the failure.  A failed dial of a controller already marked
    keeps the earlier time, and a successful dial does not clear the
    mark. *)
Theorem session_writes_controller_only_on_first_failed_dial (db : Database) (api : API)
    (ctl : Controller) (now : Z) :
  controllers (watchController db api ctl now).1 =
  match dialError api, UnavailableSince ctl with
  | Some _, None =>
      <[CtlID ctl := mkController (CtlID ctl) (CtlName ctl) (Some now)]> (controllers db)
  | _, _ => controllers db
  end.
Proof.
  unfold watchController, dialController.
  destruct (dialError api) as [e|].
  - destruct (UnavailableSince ctl); reflexivity.
  - replace (match UnavailableSince ctl with Some _ | _ => controllers db end)
      with (controllers db) by (by destruct (UnavailableSince ctl)).
    destruct (watchAllModelsError api); [reflexivity|].
    unfold checkControllerModels.
    destruct (checkRows_inv api (controllerModels db (CtlID ctl)) db ∅)
      as ((Hc & _) & _).
    destruct (checkRows _ _ _ _) as [db1 [ids|e]]; cbn [fst] in *; [|exact Hc].
    by rewrite watchLoop_controllers.
Qed.

(** The ID [modelIDf] answers with: the cached one, or the one of the
    row found. *)
Lemma modelIDf_fst db ctl ids u :
  (modelIDf db ctl ids u).1 =
  match ids !! u with
  | Some id => id
  | None =>
      match GetModel db (mkModel 0 (mkNullString u true) (CtlID ctl) "" "") with
      | inl m => ID m
      | inr _ => 0%N
      end
  end.
Proof.
  unfold modelIDf. destruct (ids !! u); [reflexivity|].
  destruct (GetModel db _) as [m|e]; [reflexivity|].
  by destruct (decide (e = CodeNotFound)).
Qed.

(** The cache after a lookup: the entry of [u] holds the answer, unless
    the lookup failed; the other entries are as before. *)
Lemma modelIDf_snd db ctl ids u u' :
  (modelIDf db ctl ids u).2 !! u' =
  if decide (u' = u) then
    match ids !! u with
    | Some id => Some id
    | None =>
        match GetModel db (mkModel 0 (mkNullString u true) (CtlID ctl) "" "") with
        | inl m => Some (ID m)
        | inr e => if decide (e = CodeNotFound) then Some 0%N else None
        end
    end
  else ids !! u'.
Proof.
  unfold modelIDf. destruct (ids !! u) as [id|] eqn:Hl; cbn [snd].
  - case_decide; [by subst|reflexivity].
  - destruct (GetModel db _) as [m|e]; cbn [snd].
    + case_decide; [subst; by rewrite lookup_insert_eq|by rewrite lookup_insert_ne].
    + destruct (decide (e = CodeNotFound)); cbn [snd];
        case_decide; subst; rewrite ?lookup_insert_eq; try done;
        by rewrite lookup_insert_ne.
Qed.

(** What a lookup leaves in the cache does not turn an unknown model
    into a known one. *)
Lemma modelIDf_zero_after db ctl ids u u' :
  (modelIDf db ctl ids u).1 = 0%N ->
  (modelIDf db ctl ids u').1 = 0%N ->
  (modelIDf db ctl (modelIDf db ctl ids u).2 u').1 = 0%N.
Proof.
  rewrite !modelIDf_fst, modelIDf_snd. intros Hu Hu'.
  case_decide as Hd; [subst u'|exact Hu'].
  destruct (ids !! u); [exact Hu|].
  destruct (GetModel db _) as [m|e]; [exact Hu|].
  destruct (decide (e = CodeNotFound)); [reflexivity|].
  reflexivity.
Qed.

(** X9. Deltas of models the watcher has no row for are dropped: when
    the lookup of each delta's model gives no ID, the batch ends without
    an error and the database is exactly as it was. *)
Theorem untracked_models_ignored (db : Database) (ctl : Controller)
    (ids : gmap string N) (ds : list Delta) :
  (forall d, d ∈ ds ->
     (modelIDf db ctl ids (ModelUUID (entityId (Entity d)))).1 = 0%N) ->
  (handleDeltas db ctl ids ds).1.1 = db /\ (handleDeltas db ctl ids ds).2 = None.
Proof.
  revert ids. induction ds as [|d ds IH]; intros ids H; [split; reflexivity|].
  cbn [handleDeltas].
  pose proof (H d (list_elem_of_here _ _)) as Hd.
  pose proof (handleDelta_shape db ctl ids d) as Hs. cbn zeta in Hs.
  rewrite Hd in Hs. cbn [N.eqb] in Hs. rewrite Hs.
  apply IH. intros d' Hd'.
  apply modelIDf_zero_after; [exact Hd|]. apply H. by apply list_elem_of_further.
Qed.

Lemma untracked_models_ignored_witness :
  (handleDeltas db_one ctl0 ∅
     [mkDelta false (UnitInfo "u9" "a/0" "idle");
      mkDelta true (ModelUpdate "u9" "" "")]).1.1 = db_one /\
  (handleDeltas db_one ctl0 ∅
     [mkDelta false (UnitInfo "u9" "a/0" "idle");
      mkDelta true (ModelUpdate "u9" "" "")]).2 = None.
Proof.
  apply (untracked_models_ignored db_one ctl0 ∅).
  intros d Hd. apply elem_of_cons in Hd as [->|Hd];
    [vm_compute; reflexivity|].
  apply list_elem_of_singleton in Hd. subst d. vm_compute. reflexivity.
Defined.

Lemma updateModel_byID db modelID name life :
  modelID <> 0%N ->
  updateModel db (byID modelID) name life =
  match models db !! modelID with
  | Some r => (UpdateModel db (mkModel (ID r) (UUID r) (ControllerID r) name life), None)
  | None =>
      (UpdateModel db (mkModel modelID (mkNullString "" false) 0 name life), None)
  end.
Proof.
  intros Hz. unfold updateModel. rewrite (GetModel_byID db modelID Hz).
  destruct (models db !! modelID); [reflexivity|].
  rewrite decide_True by reflexivity. reflexivity.
Qed.

(** X10. A delta changes at most one row: the row of its own kind that
    is keyed by the ID of its model and, for applications, machines and
    units, the entity's name.  Every other row of every table, and the
    whole controllers table, is as it was. *)
Theorem delta_changes_one_row (db : Database) (ctl : Controller)
    (ids : gmap string N) (d : Delta) :
  wf db ->
  let eid := entityId (Entity d) in
  let key := ((modelIDf db ctl ids (ModelUUID eid)).1, Id eid) in
  let db' := (handleDelta db ctl ids d).1.1 in
  controllers db' = controllers db /\
  (forall id, (Kind eid = "model" -> id <> key.1) ->
              models db' !! id = models db !! id) /\
  (forall k, (Kind eid = "application" -> k <> key) ->
             applications db' !! k = applications db !! k) /\
  (forall k, (Kind eid = "machine" -> k <> key) ->
             machines db' !! k = machines db !! k) /\
  (forall k, (Kind eid = "unit" -> k <> key) ->
             units db' !! k = units db !! k).
Proof.
  intros Hwf eid key db'. split; [apply handleDelta_controllers|].
  subst db' key eid. rewrite handleDelta_shape. cbn zeta.
  destruct (N.eqb_spec (modelIDf db ctl ids (ModelUUID (entityId (Entity d)))).1 0)
    as [Hz|Hz]; [cbn [fst]; repeat split; reflexivity|].
  destruct (Entity d) as [u n i|u n i|u n l|u n i|k u i];
    cbn [entityId ModelUUID Kind Id fst snd] in *.
  - repeat split; try reflexivity. intros k Hk. cbn [setApplications applications].
    destruct (Removed d);
      [apply lookup_delete_ne|apply lookup_insert_ne]; intros <-; by apply Hk.
  - repeat split; try reflexivity. intros k Hk. cbn [setMachines machines].
    destruct (Removed d);
      [apply lookup_delete_ne|apply lookup_insert_ne]; intros <-; by apply Hk.
  - destruct (Removed d).
    + rewrite (deleteModel_byID db _ Hz).
      destruct (models db !! (modelIDf db ctl ids u).1) as [r|] eqn:Hr;
        [|repeat split; reflexivity].
      destruct (String.eqb (Life r) "dying"); [|repeat split; reflexivity].
      repeat split; try reflexivity. intros id Hid.
      cbn [fst DeleteModel setModels models]. apply lookup_delete_ne.
      rewrite (Hwf _ _ Hr). intros <-. by apply Hid.
    + rewrite (updateModel_byID db _ n l Hz).
      destruct (models db !! (modelIDf db ctl ids u).1) as [r|] eqn:Hr;
        (repeat split; try reflexivity; intros id Hid;
         cbn [fst UpdateModel setModels models ID]; apply lookup_insert_ne;
         rewrite ?(Hwf _ _ Hr); intros <-; by apply Hid).
  - repeat split; try reflexivity. intros k Hk. cbn [setUnits units].
    destruct (Removed d);
      [apply lookup_delete_ne|apply lookup_insert_ne]; intros <-; by apply Hk.
  - repeat split; reflexivity.
Qed.

Lemma delta_changes_one_row_witness :
  wf db_one /\
  controllers (handleDelta db_one ctl0 ∅ (mkDelta false (UnitInfo "u1" "a/0" "idle"))).1.1
  = controllers db_one.
Proof.
  split; [exact wf_db_one|].
  exact (proj1 (delta_changes_one_row db_one ctl0 ∅
                  (mkDelta false (UnitInfo "u1" "a/0" "idle")) wf_db_one)).
Defined.

(** X11. A delta never changes the identity of a model row it leaves
    in the table: the ID, the UUID and the controller of the row are the
    same afterwards, and the row is either untouched or carries the name
    and life of a model update that was not a removal. *)
Theorem delta_keeps_row_identity (db : Database) (ctl : Controller)
    (ids : gmap string N) (d : Delta) (id : N) (r r' : Model) :
  wf db ->
  models db !! id = Some r ->
  models (handleDelta db ctl ids d).1.1 !! id = Some r' ->
  ID r' = ID r /\ UUID r' = UUID r /\ ControllerID r' = ControllerID r /\
  (r' = r \/
   (Removed d = false /\ exists u, Entity d = ModelUpdate u (Name r') (Life r'))).
Proof.
  intros Hwf Hr. rewrite handleDelta_models.
  assert (models db !! id = Some r' ->
          ID r' = ID r /\ UUID r' = UUID r /\ ControllerID r' = ControllerID r /\
          (r' = r \/
           (Removed d = false /\ exists u, Entity d = ModelUpdate u (Name r') (Life r'))))
    as Hsame.
  { intros H. rewrite Hr in H. injection H as <-. auto. }
  destruct (Entity d) as [u n i|u n i|u n l|u n i|k u i] eqn:He; try exact Hsame.
  cbn zeta. destruct (N.eqb_spec (modelIDf db ctl ids u).1 0) as [Hz|Hz];
    [exact Hsame|].
  destruct (Removed d).
  - rewrite (deleteModel_byID db _ Hz).
    destruct (models db !! (modelIDf db ctl ids u).1) as [r0|]; [|exact Hsame].
    destruct (String.eqb (Life r0) "dying"); [|exact Hsame].
    cbn [fst DeleteModel setModels models].
    intros [_ H]%lookup_delete_Some. by apply Hsame.
  - rewrite (updateModel_byID db _ n l Hz).
    destruct (models db !! (modelIDf db ctl ids u).1) as [r0|] eqn:Hr0;
      cbn [fst UpdateModel setModels models ID].
    + intros [[Hid <-]|[_ H]]%lookup_insert_Some; [|by apply Hsame].
      rewrite (Hwf _ _ Hr0) in Hid. subst id. rewrite Hr in Hr0. injection Hr0 as <-.
      cbn. repeat split. right. split; [reflexivity|]. by exists u.
    + intros [[Hid <-]|[_ H]]%lookup_insert_Some; [|by apply Hsame].
      subst id. congruence.
Qed.

Definition renamed_u2 : Delta := mkDelta false (ModelUpdate "u2" "renamed" "dying").

Lemma delta_keeps_row_identity_witness :
  wf db_one /\
  models db_one !! 2%N = Some (mkModel 2 (mkNullString "u2" true) 1 "m2" "alive") /\
  models (handleDelta db_one ctl0 ∅ renamed_u2).1.1 !! 2%N =
    Some (mkModel 2 (mkNullString "u2" true) 1 "renamed" "dying") /\
  (mkModel 2 (mkNullString "u2" true) 1 "renamed" "dying" =
   mkModel 2 (mkNullString "u2" true) 1 "m2" "alive" \/
   (Removed renamed_u2 = false /\
    exists u, Entity renamed_u2 = ModelUpdate u "renamed" "dying")).
Proof.
  assert (models db_one !! 2%N = Some (mkModel 2 (mkNullString "u2" true) 1 "m2" "alive"))
    as H1 by (vm_compute; reflexivity).
  assert (models (handleDelta db_one ctl0 ∅ renamed_u2).1.1 !! 2%N =
          Some (mkModel 2 (mkNullString "u2" true) 1 "renamed" "dying"))
    as H2 by (vm_compute; reflexivity).
  split; [exact wf_db_one|]. split; [exact H1|]. split; [exact H2|].
  exact (proj2 (proj2 (proj2 (delta_keeps_row_identity db_one ctl0 ∅ renamed_u2 2%N
                                _ _ wf_db_one H1 H2)))).
Defined.

End WatcherMoreFacts.

Module SummaryFacts.
Import Watcher WatcherFacts Summaries.

(** A cached ID other than 0 is the ID of a row with that UUID. *)
Definition hasRow (db : Database) (u : string) (id : N) : Prop :=
  exists k m, models db !! k = Some m /\ NSValid (UUID m) = true /\
              NSString (UUID m) = u /\ ID m = id.

Definition cacheSound (db : Database) (ids : gmap string N) : Prop :=
  forall u id, ids !! u = Some id -> id <> 0%N -> hasRow db u id.

Lemma GetModel_by_uuid db u cid r :
  GetModel db (mkModel 0 (mkNullString u true) cid "" "") = inl r ->
  hasRow db u (ID r).
Proof.
  unfold GetModel. cbn [UUID NSValid NSString ControllerID].
  destruct (filter _ _) as [|r0 l] eqn:Hf; [discriminate|].
  intros [= <-].
  assert (r0 ∈ r0 :: l) as Hin by apply list_elem_of_here.
  rewrite <- Hf in Hin. apply list_elem_of_filter in Hin as [(Hv & Hu & _) Hin].
  apply list_elem_of_fmap in Hin as ([k m] & -> & Hin).
  apply elem_of_map_to_list in Hin. exists k, m. auto.
Qed.

Lemma modelIDf_sound db ctl ids u :
  cacheSound db ids ->
  cacheSound db (modelIDf db ctl ids u).2 /\
  ((modelIDf db ctl ids u).1 <> 0%N -> hasRow db u (modelIDf db ctl ids u).1).
Proof.
  intros Hc. unfold modelIDf. destruct (ids !! u) as [id|] eqn:Hl; cbn [fst snd].
  - split; [exact Hc|]. by apply Hc.
  - destruct (GetModel db _) as [r|e] eqn:Hg; cbn [fst snd].
    + pose proof (GetModel_by_uuid db u _ r Hg) as Hr. split; [|by intros _].
      intros u' id'. destruct (decide (u' = u)) as [->|Hne].
      * rewrite lookup_insert_eq. by intros [= <-] _.
      * rewrite lookup_insert_ne by done. apply Hc.
    + destruct (decide (e = CodeNotFound)); cbn [fst snd]; (split; [|done]);
        [|exact Hc].
      intros u' id'. destruct (decide (u' = u)) as [->|Hne].
      * rewrite lookup_insert_eq. by intros [= <-] ?.
      * rewrite lookup_insert_ne by done. apply Hc.
Qed.

(** Without checks, [checkControllerModels] reads the store only. *)
Lemma checkRows_nil db rows : forall ids,
  (forall m, m ∈ rows -> exists k, models db !! k = Some m) ->
  cacheSound db ids ->
  exists ids', checkRows [] rows db ids = (db, inl ids') /\ cacheSound db ids'.
Proof.
  induction rows as [|m rows IH]; intros ids Hrows Hc; cbn [checkRows].
  - by exists ids.
  - assert (forall m', m' ∈ rows -> exists k, models db !! k = Some m') as Hrest
      by (intros m' Hm'; apply Hrows; by apply list_elem_of_further).
    destruct (NSValid (UUID m)) eqn:Hv; cbn [negb runChecks]; [|by apply IH].
    apply IH; [exact Hrest|].
    intros u id. destruct (decide (u = NSString (UUID m))) as [->|Hne].
    + rewrite lookup_insert_eq. intros [= <-] _.
      destruct (Hrows m (list_elem_of_here _ _)) as [k Hk]. exists k, m. auto.
    + rewrite lookup_insert_ne by done. apply Hc.
Qed.

Definition publishedOK (IsLocal : string -> bool) (db : Database)
    (ss : list ModelAbstract) (p : string * ModelAbstract) : Prop :=
  (exists id, id <> 0%N /\ hasRow db p.1 id) /\
  exists s0, s0 ∈ ss /\ AbsUUID s0 = p.1 /\ AbsUUID p.2 = p.1 /\
             Admins p.2 = filter (fun a => IsLocal a = false) (Admins s0) /\
             AbsRest p.2 = AbsRest s0.

Lemma publishSummaries_sound IsLocal db ctl ss : forall ids,
  cacheSound db ids ->
  cacheSound db (publishSummaries IsLocal db ctl ids ss).1 /\
  forall p, p ∈ (publishSummaries IsLocal db ctl ids ss).2 ->
            publishedOK IsLocal db ss p.
Proof.
  induction ss as [|s ss IH]; intros ids Hc; cbn [publishSummaries].
  - split; [exact Hc|]. intros p Hp. by apply elem_of_nil in Hp.
  - destruct (modelIDf_sound db ctl ids (AbsUUID s) Hc) as [Hc1 Hrow].
    destruct (modelIDf db ctl ids (AbsUUID s)) as [mid ids1]. cbn [fst snd] in *.
    destruct (IH ids1 Hc1) as [Hc2 Hp2].
    assert (forall p, publishedOK IsLocal db ss p -> publishedOK IsLocal db (s :: ss) p)
      as Hmono.
    { intros p [H1 (s0 & Hin & H2)]. split; [exact H1|].
      exists s0. split; [by apply list_elem_of_further|exact H2]. }
    destruct (N.eqb_spec mid 0) as [Hz|Hz].
    + split; [exact Hc2|]. intros p Hp. by apply Hmono, Hp2.
    + destruct (publishSummaries IsLocal db ctl ids1 ss) as [ids2 pubs].
      cbn [fst snd] in *. split; [exact Hc2|].
      intros p Hp. apply elem_of_cons in Hp as [->|Hp]; [|by apply Hmono, Hp2].
      split; [exists mid; split; [exact Hz|by apply Hrow]|].
      exists s. split; [apply list_elem_of_here|]. cbn. auto.
Qed.

Lemma summaryLoop_sound IsLocal db ctl bs e : forall ids,
  cacheSound db ids ->
  forall p, p ∈ (summaryLoop IsLocal db ctl ids bs e).1 ->
            publishedOK IsLocal db (concat bs) p.
Proof.
  induction bs as [|b bs IH]; intros ids Hc p; cbn [summaryLoop].
  - intros Hp. by apply elem_of_nil in Hp.
  - destruct (publishSummaries_sound IsLocal db ctl b ids Hc) as [Hc1 Hb].
    destruct (publishSummaries IsLocal db ctl ids b) as [ids1 pubs]. cbn [fst snd] in *.
    specialize (IH ids1 Hc1 p).
    destruct (summaryLoop IsLocal db ctl ids1 bs e) as [pubs' c]. cbn [fst] in *.
    change (concat (b :: bs)) with (b ++ concat bs).
    intros [Hp|Hp]%elem_of_app.
    + destruct (Hb p Hp) as [H1 (s0 & Hin & H2)]. split; [exact H1|].
      exists s0. split; [apply elem_of_app; by left|exact H2].
    + destruct (IH Hp) as [H1 (s0 & Hin & H2)]. split; [exact H1|].
      exists s0. split; [apply elem_of_app; by right|exact H2].
Qed.

(** X12. The summary watcher never writes the store beyond what
    [dialController] does (its own stamping of an unavailable controller
    can never fire, because [dialController] has stamped the controller
    value already); it publishes nothing when the controller lacks the
    summary watcher; and everything it publishes is a summary it
    received, for a model that has a row with that UUID and a non-zero
    ID, published under the model's UUID with the local admins filtered
    out and the rest of the summary untouched. *)
Theorem summaries_published_for_tracked_models (IsLocal : string -> bool)
    (db : Database) (api : API) (sw : SummaryAPI) (ctl : Controller) (now now2 : Z) :
  (watchAllModelSummaries IsLocal db api sw ctl now now2).1.1 =
    (dialController db api ctl now).1 /\
  (SupportsModelSummaryWatcher sw = false ->
   (watchAllModelSummaries IsLocal db api sw ctl now now2).1.2 = []) /\
  forall u s,
    (u, s) ∈ (watchAllModelSummaries IsLocal db api sw ctl now now2).1.2 ->
    (exists id, id <> 0%N /\ hasRow db u id) /\
    exists s0, s0 ∈ concat (summaryBatches sw) /\ AbsUUID s0 = u /\ AbsUUID s = u /\
               Admins s = filter (fun a => IsLocal a = false) (Admins s0) /\
               AbsRest s = AbsRest s0.
Proof.
  unfold watchAllModelSummaries, dialController, dialedController.
  destruct (dialError api) as [e|].
  { destruct (UnavailableSince ctl) eqn:Hu; cbn; rewrite ?Hu; cbn;
      (split; [reflexivity|]; split; [reflexivity|]);
      intros u s H; by apply elem_of_nil in H. }
  cbn [fst snd].
  destruct (SupportsModelSummaryWatcher sw); cbn [negb].
  2:{ split; [reflexivity|]. split; [reflexivity|].
      intros u s H. by apply elem_of_nil in H. }
  destruct (watchAllModelSummariesError sw) as [e|].
  { split; [reflexivity|]. split; [reflexivity|].
    intros u s H. by apply elem_of_nil in H. }
  unfold checkControllerModels.
  destruct (checkRows_nil db (controllerModels db (CtlID ctl)) ∅) as (ids & -> & Hc).
  { intros m Hm. apply elem_of_controllerModels in Hm as (k & Hk & _). eauto. }
  { intros u id H. by rewrite lookup_empty in H. }
  pose proof (summaryLoop_sound IsLocal db ctl (summaryBatches sw) (loopEnd sw) ids Hc)
    as Hs.
  destruct (summaryLoop IsLocal db ctl ids (summaryBatches sw) (loopEnd sw))
    as [pubs c]. cbn [fst snd] in *.
  split; [reflexivity|]. split; [discriminate|].
  intros u s H. exact (Hs (u, s) H).
Qed.

End SummaryFacts.

Module FacadeFacts.
Import Errors JujuAPI JujuAPIFacts Facade.

(** **** The Admin facade behind the dispatcher *)

(** A handler [FindMethod] has let a call through for. *)
Definition ready (h : wsHandler) : Prop :=
  modelUUID h = "" \/ (is_Some (model h) /\ is_Some (controller h)).

Lemma FindMethod_found MF CO h r v m h' c :
  FindMethod MF CO h r v m = (h', inl c) ->
  ready h' /\ username h' = username h /\ modelUUID h' = modelUUID h.
Proof.
  unfold FindMethod.
  set (res := match model h, controller h with
              | Some _, Some _ => (h, None)
              | _, _ => resolveUUID MF CO h
              end).
  assert ((res = (h, None) /\ is_Some (model h) /\ is_Some (controller h)) \/
          res = resolveUUID MF CO h) as Hcase.
  { subst res. destruct (model h), (controller h); eauto. }
  assert (forall h1, resolveUUID MF CO h = (h1, None) ->
            ready h1 /\ username h1 = username h /\ modelUUID h1 = modelUUID h) as Hr.
  { unfold resolveUUID. intros h1.
    destruct (String.eqb_spec (modelUUID h) "") as [Hu|Hu].
    - intros [= <-]. repeat split. by left.
    - destruct (MF (modelUUID h)) as [md|e]; cbn [Mask]; [|discriminate].
      destruct (CO (docController md)) as [cd|e]; cbn [Mask]; [|discriminate].
      intros [= <-]. repeat split. right. split; eauto. }
  destruct res as [h1 e1].
  destruct e1 as [e|]; cbn [Mask]; [intros [= _ H]; discriminate H|].
  assert (ready h1 /\ username h1 = username h /\ modelUUID h1 = modelUUID h) as Hh1.
  { destruct Hcase as [(H & Hm & Hc)|H]; [|by apply Hr].
    injection H as ->. repeat split. by right. }
  destruct (_ && _); [intros [= _ H]; discriminate H|].
  destruct (_ && _); [intros [= _ H]; discriminate H|].
  destruct (negb _); intros [= <- _]; exact Hh1.
Qed.

Section AdminFacts.

Variable MF : string -> ModelDoc + error.
Variable CO : string -> ControllerDoc + error.
Variable CheckAny : list string -> gmap string string + CheckAnyError.
Variable NewMacaroon : string + error.
Variable CheckCanRead : string -> ModelDoc -> option error.
Variable userIdentity : string -> string.
Variable HostPorts : ControllerDoc -> list string.
Variable CACert : ControllerDoc -> string.
Variable ParseHostPorts : list string -> list string + error.

Definition redirectError : error := EJuju "redirection required" CodeRedirect.
Definition notRedirected : error := New "not redirected".

(** X13. A call that [FindMethod] has dispatched finds the handler
    ready: [Login] and [RedirectInfo] never dereference a missing model
    or controller.  On such a handler [Login] answers with the
    redirection error, leaving the handler as it was, exactly when
    [RedirectInfo] has an answer other than "not redirected". *)
Theorem admin_calls_after_dispatch (h h' : wsHandler) (r : string) (v : Z)
    (m : string) (c : MethodCaller) (macaroons : list string) :
  FindMethod MF CO h r v m = (h', inl c) ->
  is_Some (Login CheckAny NewMacaroon CheckCanRead userIdentity h' macaroons) /\
  is_Some (RedirectInfo HostPorts CACert ParseHostPorts h') /\
  (Login CheckAny NewMacaroon CheckCanRead userIdentity h' macaroons
     = Some (h', inr redirectError) <->
   RedirectInfo HostPorts CACert ParseHostPorts h' <> Some (inr notRedirected)).
Proof.
  intros Hf. destruct (FindMethod_found MF CO h r v m h' c Hf) as (Hready & _ & _).
  clear Hf. unfold Login, RedirectInfo, isRedirected, redirectError, notRedirected.
  destruct (String.eqb_spec (modelUUID h') "") as [Hu|Hu].
  - (* the controller endpoint *)
    split; [|split; [eauto|]].
    + destruct (CheckAny macaroons) as [attr|[msg|e]]; cbn [modelUUID]; rewrite ?Hu;
        cbn; eauto. destruct NewMacaroon; eauto.
    + split; [|intros H; by destruct H].
      destruct (CheckAny macaroons) as [attr|[msg|e]]; cbn [modelUUID]; rewrite ?Hu;
        cbn; try discriminate. destruct NewMacaroon; discriminate.
  - (* a model endpoint *)
    destruct Hready as [Hready|[[md Hm] [cd Hc]]]; [contradiction|].
    rewrite Hm, Hc.
    destruct (String.eqb_spec (docId md) (ctlDocId cd)) as [Hid|Hid]; cbn [negb].
    + split; [|split; [eauto|]].
      * destruct (CheckAny macaroons) as [attr|[msg|e]]; cbn [modelUUID model controller];
          [|destruct NewMacaroon; eauto|eauto].
        destruct (String.eqb (modelUUID h') ""); [eauto|].
        destruct (Mask _ _); eauto.
      * split; [|intros H; by destruct H].
        destruct (CheckAny macaroons) as [attr|[msg|e]]; cbn [modelUUID model controller];
          [|destruct NewMacaroon; discriminate|discriminate].
        destruct (String.eqb (modelUUID h') ""); [discriminate|].
        destruct (CheckCanRead _ md); cbn [Mask]; discriminate.
    + split; [eauto|]. split; [destruct (ParseHostPorts _); eauto|].
      split; [|reflexivity]. intros _.
      destruct (ParseHostPorts _); discriminate.
Qed.

(** X14. [Login] records the user's name before it checks the user's
    access to the model of the endpoint: when the macaroons verify for a
    user who may not read that model, [Login] fails with the access
    error, yet the handler it leaves behind carries the user's name, and
    [FindMethod] dispatches the facades that are closed to a connection
    that has not logged in. *)
Theorem refused_login_keeps_user (h : wsHandler) (md : ModelDoc) (cd : ControllerDoc)
    (macaroons : list string) (attr : gmap string string) (name : string) (e : error) :
  modelUUID h <> "" ->
  model h = Some md -> controller h = Some cd -> docId md = ctlDocId cd ->
  CheckAny macaroons = inl attr -> attr !! "username" = Some name -> name <> "" ->
  CheckCanRead name md = Some e ->
  exists h' err,
    Login CheckAny NewMacaroon CheckCanRead userIdentity h macaroons
      = Some (h', inr err) /\
    errorString err = errorString e /\
    username h' = name /\
    (FindMethod MF CO h' "ModelManager" 2 "ListModels").2
      = inl (mkMethodCaller "ModelManager" "ListModels").
Proof.
  intros Hu Hm Hc Hid Hany Hattr Hname Hread.
  unfold Login, isRedirected. rewrite Hm, Hc, Hid, String.eqb_refl.
  destruct (String.eqb_spec (modelUUID h) ""); [contradiction|]. cbn [negb].
  rewrite Hany, Hattr. cbn [default from_option id modelUUID model controller].
  destruct (String.eqb_spec (modelUUID h) ""); [contradiction|].
  rewrite Hread. cbn [Mask]. eexists _, _. split; [reflexivity|].
  split; [reflexivity|]. split; [reflexivity|].
  rewrite FindMethod_resolved by (left; cbn; eauto).
  unfold dispatch. cbn [username].
  destruct (String.eqb_spec name ""); [contradiction|]. reflexivity.
Qed.

End AdminFacts.

Lemma admin_calls_after_dispatch_witness :
  is_Some (Login (fun _ => inr (VerificationError "no macaroons")) (inl "m")
             (fun _ _ => None) (fun u => u) plainHandler []).
Proof.
  exact (proj1 (admin_calls_after_dispatch noModels noControllers
                  (fun _ => inr (VerificationError "no macaroons")) (inl "m")
                  (fun _ _ => None) (fun u => u) (fun _ => []) (fun _ => "")
                  (fun l => inl l)
                  plainHandler plainHandler "Admin" 3 "Login"
                  (mkMethodCaller "Admin" "Login") [] eq_refl)).
Defined.

Definition aliceModel : ModelDoc := mkModelDoc "alice/ctl" "alice/ctl" "uuid-1".
Definition aliceController : ControllerDoc := mkControllerDoc "alice/ctl" "uuid-1".
Definition aliceEndpoint : wsHandler :=
  mkHandler "uuid-1" (Some aliceModel) (Some aliceController) "".

Lemma refused_login_keeps_user_witness :
  exists h' err,
    Login (fun _ => inl {[ "username" := "bob" ]}) (inl "m")
      (fun _ _ => Some (EParams ErrUnauthorized)) (fun u => u) aliceEndpoint []
      = Some (h', inr err) /\
    errorString err = errorString (EParams ErrUnauthorized) /\
    username h' = "bob" /\
    (FindMethod noModels noControllers h' "ModelManager" 2 "ListModels").2
      = inl (mkMethodCaller "ModelManager" "ListModels").
Proof.
  refine (refused_login_keeps_user noModels noControllers
            (fun _ => inl {[ "username" := "bob" ]}) (inl "m")
            (fun _ _ => Some (EParams ErrUnauthorized)) (fun u => u)
            aliceEndpoint aliceModel aliceController [] {[ "username" := "bob" ]}
            "bob" (EParams ErrUnauthorized) _ eq_refl eq_refl eq_refl eq_refl _ _ eq_refl).
  - discriminate.
  - reflexivity.
  - discriminate.
Defined.

(** **** The facade list of the login result *)

(** [sort.Strings] orders by [String.leb], a total order. *)
Lemma string_leb_trans a : forall b c,
  String.leb a b = true -> String.leb b c = true -> String.leb a c = true.
Proof.
  unfold String.leb.
  induction a as [|x a IH]; intros [|y b] [|z c]; cbn; try done.
  destruct (Ascii.compare x y) eqn:Hxy; [| |done].
  - apply Ascii.compare_eq_iff in Hxy. subst y.
    destruct (Ascii.compare x z); [apply IH|done|done].
  - destruct (Ascii.compare y z) eqn:Hyz; [| |done].
    + apply Ascii.compare_eq_iff in Hyz. subst z. by rewrite Hxy.
    + intros _ _. unfold Ascii.compare in *.
      rewrite N.compare_lt_iff in Hxy, Hyz.
      assert (Ascii.N_of_ascii x < Ascii.N_of_ascii z)%N as H by lia.
      rewrite <- N.compare_lt_iff in H. by rewrite H.
Qed.

Definition strLe : relation string := fun a b => String.leb a b.

#[local] Instance strLe_total : Total strLe.
Proof.
  intros a b. unfold strLe. destruct (String.leb_total a b) as [->| ->]; [by left|by right].
Qed.

#[local] Instance strLe_trans : Transitive strLe.
Proof.
  intros a b c Hab Hbc. unfold strLe in *.
  apply Is_true_true in Hab, Hbc. apply Is_true_true.
  by apply (string_leb_trans a b c).
Qed.

#[local] Instance strLe_antisym : AntiSymm (=) strLe.
Proof.
  intros a b Hab Hba. unfold strLe in *.
  apply Is_true_true in Hab, Hba. by apply String.leb_antisym.
Qed.

Lemma merge_sort_perm {A} (R : relation A) `{!Total R, !Transitive R, !AntiSymm (=) R}
    `{forall x y, Decision (R x y)} (l1 l2 : list A) :
  l1 ≡ₚ l2 -> merge_sort R l1 = merge_sort R l2.
Proof.
  intros Hp. apply (StronglySorted_unique R).
  - by apply StronglySorted_merge_sort.
  - by apply StronglySorted_merge_sort.
  - by rewrite !merge_sort_Permutation.
Qed.

(** X23. The facade list [Login] returns does not depend on the order
    in which the [range] over the facade table delivers its keys: the
    names come out sorted and without repetition, each with its versions
    in ascending order.  For the table of this package the list is
    Admin 3, Cloud 1, ModelManager 2, Pinger 1. *)
Theorem facade_versions_order_independent :
  (forall keys keys' : list (string * Z),
      keys ≡ₚ keys' -> facadeVersionsOf keys = facadeVersionsOf keys') /\
  (forall keys : list (string * Z),
      StronglySorted strLe ((facadeVersionsOf keys).*1) /\
      NoDup ((facadeVersionsOf keys).*1) /\
      forall name vs, (name, vs) ∈ facadeVersionsOf keys ->
        StronglySorted Z.le vs /\
        forall v, v ∈ vs <-> (name, v) ∈ keys) /\
  facadeVersions =
    [("Admin", [3]); ("Cloud", [1]); ("ModelManager", [2]); ("Pinger", [1])].
Proof.
  split; [|split; [|vm_compute; reflexivity]].
  - intros keys keys' Hp. unfold facadeVersionsOf.
    assert (merge_sort (fun a b : string => String.leb a b) (remove_dups keys.*1) =
            merge_sort (fun a b : string => String.leb a b) (remove_dups keys'.*1))
      as ->.
    { apply (merge_sort_perm strLe). apply NoDup_Permutation.
      - apply NoDup_remove_dups.
      - apply NoDup_remove_dups.
      - intros x. rewrite !elem_of_remove_dups. by rewrite Hp. }
    apply list_fmap_ext. intros i name _. f_equal.
    apply (merge_sort_perm Z.le). by rewrite Hp.
  - intros keys. unfold facadeVersionsOf.
    rewrite <- list_fmap_compose.
    assert ((fst ∘ (fun name : string =>
                      (name, merge_sort Z.le (filter (fun k => k.1 = name) keys).*2)))
            <$> merge_sort (fun a b : string => String.leb a b) (remove_dups keys.*1)
            = merge_sort (fun a b : string => String.leb a b) (remove_dups keys.*1))
      as ->.
    { rewrite <- (list_fmap_id (merge_sort _ _)) at 2. by apply list_fmap_ext. }
    split; [apply (StronglySorted_merge_sort strLe)|].
    split; [rewrite merge_sort_Permutation; apply NoDup_remove_dups|].
    intros name vs Hin. apply list_elem_of_fmap in Hin as (n & [= -> ->] & _).
    split; [apply (StronglySorted_merge_sort Z.le)|].
    intros v. rewrite merge_sort_Permutation, list_elem_of_fmap. split.
    + intros ([n' v'] & -> & Hk). apply list_elem_of_filter in Hk as [Hn Hk].
      cbn in Hn. by subst n'.
    + intros Hk. exists (n, v). split; [reflexivity|].
      apply list_elem_of_filter. by split.
Qed.

(** **** The older ModelManager and Cloud facades *)

Lemma Mask_unauthorized_no_code err e :
  Mask err [Is ErrUnauthorized] = Some e ->
  exists msg, mapError (Some e) = Some (mkJujuError msg "").
Proof.
  destruct err as [e0|]; [|discriminate]. cbn [Mask existsb]. intros [= <-].
  rewrite orb_false_r. unfold Is.
  destruct (Cause e0) as [c| | |]; try (eexists; reflexivity).
  destruct c; eexists; reflexivity.
Qed.

Section OldModelManagerFacts.

Variable ControllerUUID : string.
Variable ModelFromUUID : string -> ModelDoc + error.
Variable CheckCanRead : ModelDoc -> option error.
Variable ParseModelTag : string -> string + error.
Variable Conn : Type.
Variable OpenAPI : ModelDoc -> Conn + error.
Variable clientModelInfo : Conn -> string -> (ModelInfoV2 + string * string) + error.

Lemma modelInfo_cases tag :
  match modelInfo ControllerUUID ModelFromUUID CheckCanRead ParseModelTag Conn
          OpenAPI clientModelInfo tag with
  | inl mi =>
      exists conn u mi0,
        clientModelInfo conn u = inl (inl mi0) /\
        mi = massageModelInfo ControllerUUID mi0
  | inr e => exists msg, mapError (Some e) = Some (mkJujuError msg "")
  end.
Proof.
  unfold modelInfo, oldModelInfoLookup.
  destruct (ParseModelTag tag) as [u|e]; [|eexists; reflexivity].
  destruct (ModelFromUUID u) as [md|e].
  2:{ destruct (causeIs ErrNotFound e); eexists; reflexivity. }
  destruct (Mask (CheckCanRead md) [Is ErrUnauthorized]) as [e|] eqn:Hm;
    [by apply (Mask_unauthorized_no_code _ _ Hm)|].
  destruct (OpenAPI md) as [conn|e]; [|eexists; reflexivity].
  destruct (clientModelInfo conn u) as [[mi0|[msg code]]|e] eqn:Hc;
    [|eexists; reflexivity..].
  by exists conn, u, mi0.
Qed.

(** X15. The older [ModelInfo] answers every entity, in order, either
    with the info the controller returned, rewritten to carry this
    service's controller UUID and none of the users whose name ends in
    "@local" (the other users are all kept), or with an error that has
    no code: not-found, unauthorized and the controller's own error
    codes are all reported by their message alone. *)
Theorem old_model_info_results (args : list string) :
  length (OldModelInfo ControllerUUID ModelFromUUID CheckCanRead ParseModelTag Conn
            OpenAPI clientModelInfo args) = length args /\
  forall r,
    r ∈ OldModelInfo ControllerUUID ModelFromUUID CheckCanRead ParseModelTag Conn
          OpenAPI clientModelInfo args ->
    (resError r = None /\
     exists conn u mi0 mi,
       clientModelInfo conn u = inl (inl mi0) /\
       resValue r = Some mi /\
       InfoControllerUUID mi = ControllerUUID /\
       InfoUUID mi = InfoUUID mi0 /\ InfoRest mi = InfoRest mi0 /\
       forall x, x ∈ Users mi <->
                 x ∈ Users mi0 /\ HasSuffix (UserName x) "@local" = false) \/
    (resValue r = None /\ exists msg, resError r = Some (mkJujuError msg "")).
Proof.
  unfold OldModelInfo. split; [apply length_map|].
  intros r Hr. apply list_elem_of_In, in_map_iff in Hr as (tag & <- & _).
  pose proof (modelInfo_cases tag) as Hc.
  destruct (modelInfo _ _ _ _ _ _ _ tag) as [mi|e].
  - left. split; [reflexivity|].
    destruct Hc as (conn & u & mi0 & Hcl & ->).
    exists conn, u, mi0, (massageModelInfo ControllerUUID mi0).
    split; [exact Hcl|]. do 4 (split; [reflexivity|]).
    intros x. cbn [massageModelInfo Users]. rewrite list_elem_of_filter. tauto.
  - right. split; [reflexivity|]. exact Hc.
Qed.

End OldModelManagerFacts.

Section CloudFacts.

Variable ParseCloudTag : string -> string + error.
Variable DoControllers : string -> list CloudDoc * option error.

Lemma foldl_cloudStep (visited : list CloudDoc) (init : CloudInfo) :
  foldl cloudStep init visited =
  match last visited with
  | Some cnt =>
      mkCloudInfo (ProviderType cnt) (AuthTypes cnt)
        (CloudRegions init ++ concat (Regions <$> visited))
  | None => init
  end.
Proof.
  induction visited as [|cnt visited IH] using rev_ind; [reflexivity|].
  rewrite foldl_app, last_snoc. cbn [foldl]. rewrite IH. unfold cloudStep.
  rewrite fmap_app, concat_app. cbn [fmap list_fmap concat]. rewrite app_nil_r.
  destruct (last visited) as [c0|] eqn:Hl; cbn [CloudRegions].
  - by rewrite app_assoc.
  - apply last_None in Hl. subst visited. cbn. reflexivity.
Qed.

Definition cloudNotAvailable (cloudId : string) : error :=
  WithCausef None ErrNotFound ("cloud " ++ quoted cloudId ++ " not available").

(** X16. When the iteration over the controllers of a cloud ends
    without an error, [cloud.cloud] answers from the last controller
    visited: its provider type and authentication types, with the
    regions of all the controllers visited, in order and with
    repetitions.  The cloud is reported as not available, with the code
    "not found", when no controller was visited or the last one has no
    provider type, whatever the controllers before it said. *)
Theorem cloud_answers_from_last_controller (cloudId : string) (visited : list CloudDoc) :
  DoControllers cloudId = (visited, None) ->
  cloudOf DoControllers cloudId =
    match last visited with
    | Some cnt =>
        if String.eqb (ProviderType cnt) "" then inr (cloudNotAvailable cloudId)
        else inl (mkCloudInfo (ProviderType cnt) (AuthTypes cnt)
                    (concat (Regions <$> visited)))
    | None => inr (cloudNotAvailable cloudId)
    end /\
  mapError (Some (cloudNotAvailable cloudId)) =
    Some (mkJujuError ("cloud " ++ quoted cloudId ++ " not available") CodeNotFound).
Proof.
  intros Hdo. split.
  - unfold cloudOf. rewrite Hdo, foldl_cloudStep.
    destruct (last visited) as [cnt|]; cbn [CloudType CloudRegions app];
      [|reflexivity].
    destruct (String.eqb (ProviderType cnt) ""); reflexivity.
  - unfold cloudNotAvailable, WithCausef, mapError, causeIs, Cause.
    cbn [errorString]. rewrite bool_decide_eq_true_2 by reflexivity.
    destruct (String.eqb_spec ("cloud " ++ quoted cloudId ++ " not available") "")
      as [H|H]; [discriminate H|].
    destruct (String.eqb_spec ("cloud " ++ quoted cloudId ++ " not available") "")
      as [H'|H']; [contradiction|reflexivity].
Qed.

End CloudFacts.

Definition twoControllers : list CloudDoc :=
  [mkCloudDoc "ec2" ["access-key"] ["us-east-1"; "eu-west-1"];
   mkCloudDoc "" [] ["us-east-1"]].

Lemma cloud_answers_from_last_controller_witness :
  cloudOf (fun _ => (twoControllers, None)) "aws" = inr (cloudNotAvailable "aws") /\
  mapError (Some (cloudNotAvailable "aws")) =
    Some (mkJujuError ("cloud " ++ quoted "aws" ++ " not available") CodeNotFound).
Proof.
  exact (cloud_answers_from_last_controller (fun _ => (twoControllers, None))
           "aws" twoControllers eq_refl).
Defined.

End FacadeFacts.

Module ControllerRootFacts.
Import Errors JujuAPI JujuAPIFacts ControllerRoot.

(** What [mapError] makes of a masked error: the message of the error
    masked, and the not-found code only if that cause came through. *)
Lemma mapError_Mask e pass :
  mapError (Mask (Some e) pass) =
  Some (mkJujuError (errorString e)
          (if existsb (fun p => p (Cause e)) pass && causeIs ErrNotFound e
           then CodeNotFound else "")).
Proof.
  cbn [Mask]. unfold mapError, causeIs. cbn [errorString String.eqb Cause].
  destruct (existsb _ pass); cbn [andb]; [|reflexivity].
  destruct (Cause e) as [c| | |]; reflexivity.
Qed.

Lemma causeIs_Is_l c e : Is c (Cause e) = causeIs c e.
Proof. reflexivity. Qed.

Lemma causeIs_Mask c e pass e' :
  Mask (Some e) pass = Some e' -> causeIs c e' = true -> causeIs c e = true.
Proof.
  cbn [Mask]. intros [= <-]. unfold causeIs. cbn [Cause].
  destruct (existsb _ pass); [tauto|discriminate].
Qed.

Section CreateModelFacts.

Variable J : Type.
Variable identity : Type.
Variable convParseUserTag : string -> string + error.
Variable ParseCloudTag : string -> string + error.
Variable ParseCloudCredentialTag : string -> CredentialTag + error.
Variable isErrLocalUser : error -> bool.
Variable jemCreateModel :
  J -> identity -> CreateModelParams -> ModelInfoDoc -> ModelInfoDoc * option error * J.
Variable controllerUUIDMasking : bool.
Variable ControllerUUID : string.

(** The request [args] with another credential tag. *)
Definition withCredentialTag (args : ModelCreateArgs) (tag : string) : ModelCreateArgs :=
  mkModelCreateArgs (Name args) (OwnerTag args) (Config args) (CloudTag args)
    (CloudRegion args) tag.

(** X17. [createModel] takes the cloud and the name from the
    credential tag of the request and the user from the owner tag: two
    requests that differ only in the owner named inside the credential
    tag are treated alike. *)
Theorem credential_tag_owner_is_ignored (j : J) (id : identity)
    (args : ModelCreateArgs) (info : ModelInfoDoc) (t1 t2 : string)
    (tag1 tag2 : CredentialTag) :
  t1 <> "" -> t2 <> "" ->
  ParseCloudCredentialTag t1 = inl tag1 ->
  ParseCloudCredentialTag t2 = inl tag2 ->
  tagCloud tag1 = tagCloud tag2 -> tagName tag1 = tagName tag2 ->
  createModel J identity convParseUserTag ParseCloudTag ParseCloudCredentialTag
    isErrLocalUser jemCreateModel controllerUUIDMasking ControllerUUID
    j id (withCredentialTag args t1) info =
  createModel J identity convParseUserTag ParseCloudTag ParseCloudCredentialTag
    isErrLocalUser jemCreateModel controllerUUIDMasking ControllerUUID
    j id (withCredentialTag args t2) info.
Proof.
  intros H1 H2 Hp1 Hp2 Hc Hn. unfold createModel, withCredentialTag.
  cbn [OwnerTag CloudTag CloudCredentialTag Name CloudRegion Config].
  destruct (convParseUserTag (OwnerTag args)) as [owner|e]; [|reflexivity].
  destruct (String.eqb (CloudTag args) ""); [reflexivity|].
  destruct (ParseCloudTag (CloudTag args)) as [cloud|e]; [|reflexivity].
  destruct (String.eqb_spec t1 ""); [contradiction|].
  destruct (String.eqb_spec t2 ""); [contradiction|].
  rewrite Hp1, Hp2, Hc, Hn. reflexivity.
Qed.

(** [conv.ErrLocalUser] is none of the [params] error codes. *)
Hypothesis localUser_not_params : forall c, isErrLocalUser (EParams c) = false.

(** [createModel] either refuses the request itself, with an error
    whose cause is not [params.ErrNotFound], or hands it to
    [jem.CreateModel] and masks the error of that call. *)
Lemma createModel_cases j id args info :
  let cm := createModel J identity convParseUserTag ParseCloudTag
              ParseCloudCredentialTag isErrLocalUser jemCreateModel
              controllerUUIDMasking ControllerUUID j id args info in
  (cm.2 = j /\ exists e, cm.1.2 = Some e /\ causeIs ErrNotFound e = false) \/
  (exists p, CloudTag args <> "" /\
             cm.2 = (jemCreateModel j id p info).2 /\
             cm.1.2 =
               match (jemCreateModel j id p info).1.2 with
               | Some e =>
                   Mask (Some e) [Is ErrBadRequest; Is ErrNotFound; Is ErrUnauthorized]
               | None => None
               end).
Proof.
  cbn zeta. unfold createModel.
  destruct (convParseUserTag (OwnerTag args)) as [owner|e].
  2:{ left. cbn [fst snd Mask]. split; [reflexivity|].
      eexists. split; [reflexivity|].
      unfold causeIs. cbn [Cause existsb]. rewrite orb_false_r.
      destruct (Cause e) as [c| | |] eqn:Hc.
      - rewrite localUser_not_params, orb_false_r. destruct c; reflexivity.
      - cbn [Is orb]. destruct (isErrLocalUser _); reflexivity.
      - cbn [Is orb]. destruct (isErrLocalUser _); reflexivity.
      - cbn [Is orb]. destruct (isErrLocalUser _); reflexivity. }
  destruct (String.eqb_spec (CloudTag args) "") as [Hct|Hct].
  { left. cbn [fst snd]. split; [reflexivity|]. eexists. split; reflexivity. }
  destruct (ParseCloudTag (CloudTag args)) as [cloud|e].
  2:{ left. cbn [fst snd]. split; [reflexivity|]. eexists. split; reflexivity. }
  destruct (String.eqb (CloudCredentialTag args) "").
  - right.
    exists (mkCreateModelParams owner (Name args) (mkCredentialPath "" "" "") cloud
              (CloudRegion args) (Config args)).
    split; [exact Hct|].
    destruct (jemCreateModel j id _ info) as [[info' [e|]] j']; split; reflexivity.
  - destruct (ParseCloudCredentialTag (CloudCredentialTag args)) as [tag|e].
    + right.
      exists (mkCreateModelParams owner (Name args)
                (mkCredentialPath (tagCloud tag) owner (tagName tag)) cloud
                (CloudRegion args) (Config args)).
      split; [exact Hct|].
      destruct (jemCreateModel j id _ info) as [[info' [e|]] j']; split; reflexivity.
    + left. cbn [fst snd]. split; [reflexivity|]. eexists. split; reflexivity.
Qed.

(** X18. [CreateModel] counts every call once, as created when it
    returns no error and as failed otherwise.  A request without a cloud
    tag is refused before [jem.CreateModel] is called, with a message
    and no code, and the error an API client sees carries the code
    "not found" only if [jem.CreateModel] was called and failed with
    that cause. *)
Theorem create_model_outcome (j : J) (id : identity) (args : ModelCreateArgs)
    (c : Counters) :
  let res :=
    CreateModel J identity convParseUserTag ParseCloudTag ParseCloudCredentialTag
      isErrLocalUser jemCreateModel controllerUUIDMasking ControllerUUID j id args c in
  ((ModelsCreatedCount res.2, ModelsCreatedFailCount res.2) =
   match res.1.1.2 with
   | None => (S (ModelsCreatedCount c), ModelsCreatedFailCount c)
   | Some _ => (ModelsCreatedCount c, S (ModelsCreatedFailCount c))
   end) /\
  ((exists owner, convParseUserTag (OwnerTag args) = inl owner) ->
   CloudTag args = "" ->
   res.1.2 = j /\
   mapError res.1.1.2 =
     Some (mkJujuError "no cloud specified for model; please specify one" "")) /\
  (Code <$> mapError res.1.1.2 = Some CodeNotFound ->
   exists p e, (jemCreateModel j id p (mkModelInfoDoc "" "" "")).1.2 = Some e /\
               causeIs ErrNotFound e = true).
Proof.
  cbn zeta. unfold CreateModel.
  pose proof (createModel_cases j id args (mkModelInfoDoc "" "" "")) as Hcm.
  cbn zeta in Hcm.
  split; [|split].
  - destruct (createModel _ _ _ _ _ _ _ _ _ j id args _) as [[info [e|]] j'];
      reflexivity.
  - intros [owner Ho] Hct. unfold createModel. rewrite Ho, Hct. cbn.
    split; [reflexivity|]. unfold causeIs. cbn [Cause].
    destruct (isErrLocalUser _); reflexivity.
  - destruct (createModel _ _ _ _ _ _ _ _ _ j id args _) as [[info [e|]] j'];
      cbn [fst snd] in *; [|discriminate].
    remember (Mask (Some e) [isErrLocalUser; Is ErrUnauthorized; Is ErrNotFound;
                             Is ErrBadRequest]) as m eqn:Hm.
    destruct m as [e2|]; [|discriminate Hm]. cbn [fst snd]. rewrite Hm.
    rewrite mapError_Mask. cbn [fmap option_fmap option_map Code].
    destruct (existsb _ _ && causeIs ErrNotFound e) eqn:Hpass; [|discriminate].
    intros _. apply andb_prop in Hpass as [_ Hnf].
    destruct Hcm as [(_ & e0 & [= <-] & Hno)|(p & _ & _ & He)]; [congruence|].
    exists p. destruct (jemCreateModel j id p _).1.2 as [e1|]; [|discriminate He].
    exists e1. split; [reflexivity|].
    symmetry in He. by apply (causeIs_Mask _ _ _ _ He).
Qed.

End CreateModelFacts.

(** A request for a model of bob's on the cloud "aws", and oracles
    that accept every tag. *)
Definition bobRequest : ModelCreateArgs :=
  mkModelCreateArgs "model-1" "user-bob@external" "" "cloud-aws" "" "".

Definition parseCredentialTag (t : string) : CredentialTag + error :=
  if String.eqb t "cloudcred-aws_bob@external_c1" then
    inl (mkCredentialTag "aws" "bob@external" "c1")
  else if String.eqb t "cloudcred-aws_alice@external_c1" then
    inl (mkCredentialTag "aws" "alice@external" "c1")
  else inr (EPlain "not a valid cloud credential tag").

Definition acceptingJem (j : unit) (id : unit) (p : CreateModelParams)
    (info : ModelInfoDoc) : ModelInfoDoc * option error * unit :=
  (mkModelInfoDoc "uuid-1" "ctl-uuid" (credUser (Credential p)), None, j).

Lemma credential_tag_owner_is_ignored_witness :
  createModel unit unit (fun t => inl t) (fun t => inl t) parseCredentialTag
    (fun _ => false) acceptingJem false "jimm-uuid" tt tt
    (withCredentialTag bobRequest "cloudcred-aws_bob@external_c1")
    (mkModelInfoDoc "" "" "") =
  createModel unit unit (fun t => inl t) (fun t => inl t) parseCredentialTag
    (fun _ => false) acceptingJem false "jimm-uuid" tt tt
    (withCredentialTag bobRequest "cloudcred-aws_alice@external_c1")
    (mkModelInfoDoc "" "" "").
Proof.
  refine (credential_tag_owner_is_ignored unit unit (fun t => inl t) (fun t => inl t)
            parseCredentialTag (fun _ => false) acceptingJem false "jimm-uuid" tt tt
            bobRequest (mkModelInfoDoc "" "" "")
            "cloudcred-aws_bob@external_c1" "cloudcred-aws_alice@external_c1"
            (mkCredentialTag "aws" "bob@external" "c1")
            (mkCredentialTag "aws" "alice@external" "c1")
            _ _ eq_refl eq_refl eq_refl eq_refl); discriminate.
Defined.

Lemma create_model_outcome_witness :
  (ModelsCreatedCount
     (CreateModel unit unit (fun t => inl t) (fun t => inl t) parseCredentialTag
        (fun _ => false) acceptingJem false "jimm-uuid" tt tt bobRequest
        (mkCounters 0 0)).2,
   ModelsCreatedFailCount
     (CreateModel unit unit (fun t => inl t) (fun t => inl t) parseCredentialTag
        (fun _ => false) acceptingJem false "jimm-uuid" tt tt bobRequest
        (mkCounters 0 0)).2) = (1%nat, 0%nat).
Proof.
  exact (proj1 (create_model_outcome unit unit (fun t => inl t) (fun t => inl t)
                  parseCredentialTag (fun _ => false) acceptingJem false "jimm-uuid"
                  (fun _ => eq_refl) tt tt bobRequest (mkCounters 0 0))).
Defined.

Section ChangeModelCredentialFacts.

Variable J : Type.
Variable identity : Type.
Variable Model : Type.
Variable Cred : Type.
Variable Conn : Type.
Variable modelController : Model -> string.
Variable ParseModelTag : string -> string + error.
Variable ParseCloudCredentialTag : string -> CredentialTag + error.
Variable FromUserTag : string -> string + error.
Variable isErrLocalUser : error -> bool.
Variable GetModel : J -> identity -> string -> string -> Model + error.
Variable OpenAPI : J -> string -> Conn + error.
Variable GetCredential : J -> identity -> CredentialPath -> Cred + error.
Variable UpdateModelCredential : J -> Conn -> Model -> Cred -> option error * J.

(** X19. [ChangeModelCredential] does not turn not-found into
    unauthorized: when the model of an entry is not found, the entry is
    answered with the lookup's own message and the code "not found",
    whatever its credential tag is, and the store is not touched.  The
    same holds for a credential that is not found, whereas a failure to
    open the connection to the controller is reported without a code
    even if its cause is not-found. *)
Theorem change_model_credential_reports_not_found (id : identity) (j : J)
    (arg : ChangeModelCredentialParams) (u : string) :
  ParseModelTag (ChangeModelTag arg) = inl u ->
  let run :=
    changeModelCredential J identity Model Cred Conn modelController ParseModelTag
      ParseCloudCredentialTag FromUserTag isErrLocalUser GetModel OpenAPI
      GetCredential UpdateModelCredential id j arg in
  (forall e, GetModel j id "admin" u = inr e -> causeIs ErrNotFound e = true ->
     mapError run.1 = Some (mkJujuError (errorString e) CodeNotFound) /\ run.2 = j) /\
  (forall model e, GetModel j id "admin" u = inl model ->
     OpenAPI j (modelController model) = inr e ->
     mapError run.1 = Some (mkJujuError (errorString e) "") /\ run.2 = j) /\
  (forall model conn tag user e,
     GetModel j id "admin" u = inl model ->
     OpenAPI j (modelController model) = inl conn ->
     ParseCloudCredentialTag (ChangeCloudCredentialTag arg) = inl tag ->
     FromUserTag (tagOwner tag) = inl user ->
     GetCredential j id (mkCredentialPath (tagCloud tag) user (tagName tag)) = inr e ->
     causeIs ErrNotFound e = true ->
     mapError run.1 = Some (mkJujuError (errorString e) CodeNotFound) /\ run.2 = j).
Proof.
  intros Hp run. subst run. unfold changeModelCredential. rewrite Hp.
  split; [|split].
  - intros e Hg Hnf. rewrite Hg. cbn [fst snd]. split; [|reflexivity].
    rewrite mapError_Mask. cbn [existsb]. rewrite !causeIs_Is_l, Hnf.
    by rewrite !orb_true_r.
  - intros model e Hg Ho. rewrite Hg, Ho. cbn [fst snd]. split; [|reflexivity].
    by rewrite mapError_Mask.
  - intros model conn tag user e Hg Ho Ht Hu Hc Hnf.
    rewrite Hg, Ho, Ht, Hu, Hc. cbn [fst snd]. split; [|reflexivity].
    rewrite mapError_Mask. cbn [existsb]. rewrite !causeIs_Is_l, Hnf. reflexivity.
Qed.

End ChangeModelCredentialFacts.

Lemma change_model_credential_reports_not_found_witness :
  mapError
    (changeModelCredential unit unit unit unit unit (fun _ => "bob/ctl")
       (fun t => inl t) parseCredentialTag (fun t => inl t) (fun _ => false)
       (fun _ _ _ u => inr (WithCausef None ErrNotFound "model not found"))
       (fun _ _ => inl tt) (fun _ _ _ => inl tt) (fun j _ _ _ => (None, j)) tt tt
       (mkChangeModelCredentialParams "model-uuid-9" "not a tag")).1
  = Some (mkJujuError "model not found" CodeNotFound).
Proof.
  exact (proj1 (proj1 (change_model_credential_reports_not_found unit unit unit unit unit
                         (fun _ => "bob/ctl") (fun t => inl t) parseCredentialTag
                         (fun t => inl t) (fun _ => false)
                         (fun _ _ _ u => inr (WithCausef None ErrNotFound "model not found"))
                         (fun _ _ => inl tt) (fun _ _ _ => inl tt)
                         (fun j _ _ _ => (None, j)) tt tt
                         (mkChangeModelCredentialParams "model-uuid-9" "not a tag")
                         "model-uuid-9" eq_refl)
                  (WithCausef None ErrNotFound "model not found") eq_refl eq_refl)).
Defined.

(** X20. On a connection whose URL names a model UUID that cannot be
    resolved, every call, [Admin.Login] included, is answered with the
    lookup's message and no code: [resolveUUID] lets a not-found cause
    through, but [FindMethod] masks it before the connection maps the
    error.  The handler stays unresolved, so the lookup is made again,
    with the same outcome, on every later call. *)
Theorem unresolved_uuid_error_has_no_code (MF : string -> ModelDoc + error)
    (CO : string -> ControllerDoc + error) (h : wsHandler) (r : string) (v : Z)
    (m : string) (e : error) :
  modelUUID h <> "" -> model h = None ->
  MF (modelUUID h) = inr e ->
  let res := FindMethod MF CO h r v m in
  (exists e', res.2 = inr (OtherError e') /\
              mapError (Some e') = Some (mkJujuError (errorString e) "")) /\
  modelUUID res.1 = modelUUID h /\ model res.1 = None /\
  username res.1 = username h.
Proof.
  intros Hu Hm He. cbn zeta. unfold FindMethod, resolveUUID. rewrite Hm, He.
  destruct (String.eqb_spec (modelUUID h) ""); [contradiction|].
  cbn [Mask fst snd]. split; [|repeat split].
  eexists. split; [reflexivity|].
  unfold mapError, causeIs. cbn [Cause errorString String.eqb]. reflexivity.
Qed.

Lemma unresolved_uuid_error_has_no_code_witness :
  exists e',
    (FindMethod noModels noControllers strayHandler "Admin" 3 "Login").2
      = inr (OtherError e') /\
    mapError (Some e') =
      Some (mkJujuError (errorString
                           (WithCausef None ErrNotFound
                              ("model " ++ quoted (modelUUID strayHandler) ++
                               " not found"))) "").
Proof.
  refine (proj1 (unresolved_uuid_error_has_no_code noModels noControllers strayHandler
                   "Admin" 3 "Login" _ _ eq_refl eq_refl)).
  discriminate.
Defined.

End ControllerRootFacts.

Module MonitorLoopFacts.
Import Monitor MonitorLoop.

Definition isOpened (e : Effect) : bool :=
  match e with Opened _ => true | _ => false end.

Definition isReleased (e : Effect) : bool :=
  match e with Close _ | Evict _ => true | _ => false end.

Fixpoint countIf (p : Effect -> bool) (l : list Effect) : nat :=
  match l with
  | [] => 0
  | e :: rest => (if p e then 1 else 0) + countIf p rest
  end.

(** The connections [watcher] leaves open when it returns. *)
Definition leftOpen (exit : option WatcherExit) : nat :=
  match exit with
  | Some CannotSetAvailable | Some CannotUpdateCredentials => 1
  | _ => 0
  end.

(** How [dialAPI] and [watcher] between them report the cause of a
    failed [OpenAPI]. *)
Definition reported (e : cause) : cause :=
  match e with
  | ErrNotFound | errControllerRemoved => errControllerRemoved
  | ErrLeaseUnavailable => ErrLeaseUnavailable
  | _ => ErrMasked
  end.

Local Ltac round r :=
  cbn [watcher]; unfold dialAPI;
  destruct r as [now o dd sa uc wd su ds];
  cbn [clockNow opened dyingDuringDial setAvailableFails updateCredentialsFails
       watchDying setUnavailableFails dyingDuringSleep].

(** X21. Every connection the monitor's loop opens is closed or
    evicted again, by the loop after watching it or by the dialling
    goroutine when the tomb dies before the reply is taken, with one
    exception: when the loop returns because marking the controller
    available or updating its credentials failed, the connection just
    dialled is left as it is.  The time passed to
    [SetControllerUnavailableAt] is always the clock reading taken
    before a dial that failed with [jem.ErrAPIConnection]. *)
Theorem connections_released (rounds : list Round) :
  countIf isOpened (watcher rounds).2 =
    (countIf isReleased (watcher rounds).2 + leftOpen (watcher rounds).1)%nat /\
  forall t, SetControllerUnavailableAt t ∈ (watcher rounds).2 ->
    exists r, r ∈ rounds /\ clockNow r = t /\ dyingDuringDial r = false /\
              opened r = inr ErrAPIConnection.
Proof.
  induction rounds as [|r rest [IHc IHt]].
  { split; [reflexivity|]. intros t H. by apply elem_of_nil in H. }
  assert (forall t, SetControllerUnavailableAt t ∈ (watcher rest).2 ->
            exists r0, r0 ∈ r :: rest /\ clockNow r0 = t /\
                       dyingDuringDial r0 = false /\ opened r0 = inr ErrAPIConnection)
    as IHt'.
  { intros t H. destruct (IHt t H) as (r0 & Hin & Hr0).
    exists r0. split; [by apply list_elem_of_further|exact Hr0]. }
  clear IHt. round r.
  destruct (watcher rest) as [exit later]. cbn [fst snd] in *.
  split.
  - destruct o as [conn|[]], dd, sa, uc, wd, su, ds; cbn; rewrite ?IHc; lia.
  - intros t.
    destruct o as [conn|[]], dd, sa, uc, wd, su, ds; cbn; intros H;
      repeat (apply elem_of_cons in H as [H|H];
              [first [discriminate H
                     |injection H as <-; eexists;
                      split; [apply list_elem_of_here|cbn; repeat split; reflexivity]]|]);
      first [by apply elem_of_nil in H|by apply IHt'].
Qed.

(** X22. When [watcher] gives up because of the dial, the cause of the
    error it returns is that of the last [OpenAPI], with
    [params.ErrNotFound] turned into [errControllerRemoved] and every
    cause other than a removed controller or a lost lease hidden; it is
    never [jem.ErrAPIConnection], which the loop answers by marking the
    controller unavailable and dialling again.  So the error satisfies
    [isMonitoringStoppedError] exactly when [OpenAPI] failed because the
    controller is gone or the lease is lost. *)
Theorem dial_failure_cause (rounds : list Round) :
  match (watcher rounds).1 with
  | Some (CannotDial c) =>
      exists r e,
        r ∈ rounds /\ dyingDuringDial r = false /\ opened r = inr e /\
        e <> ErrAPIConnection /\ c = reported e /\
        (isMonitoringStoppedError c = true <->
         e = ErrNotFound \/ e = errControllerRemoved \/ e = ErrLeaseUnavailable)
  | _ => True
  end.
Proof.
  induction rounds as [|r rest IH]; [exact I|].
  assert (match (watcher rest).1 with
          | Some (CannotDial c) =>
              exists r0 e,
                r0 ∈ r :: rest /\ dyingDuringDial r0 = false /\ opened r0 = inr e /\
                e <> ErrAPIConnection /\ c = reported e /\
                (isMonitoringStoppedError c = true <->
                 e = ErrNotFound \/ e = errControllerRemoved \/ e = ErrLeaseUnavailable)
          | _ => True
          end) as IH'.
  { destruct (watcher rest).1 as [[| | | |c]|]; try exact I.
    destruct IH as (r0 & e & Hin & Hr0). exists r0, e.
    split; [by apply list_elem_of_further|exact Hr0]. }
  clear IH. round r. destruct (watcher rest) as [exit later]. cbn [fst snd] in *.
  destruct o as [conn|[]], dd, sa, uc, wd, su, ds; cbn; try exact I; try exact IH';
    (eexists _, _; split; [apply list_elem_of_here|]; cbn;
     split; [reflexivity|]; split; [reflexivity|]; split; [discriminate|];
     split; [reflexivity|]; cbn;
     split; [intros H; first [discriminate H|auto]
            |intros [H|[H|H]]; first [discriminate H|reflexivity]]).
Qed.

End MonitorLoopFacts.
